(** * The q compiler: calls, for loops and the final link step

    A shallow embedding of the per-function compiler's call sequence
    (CallExpression, BeforeCall, AfterCall, printLn), of the for-loop
    statements (ForStart, ForEnd), of the assembler helpers they emit
    through, and of Build.Compile.

    Go pointers to shared objects are modelled by keys into a store kept in
    the compiler state: a register is its name, a variable is an index into
    the variable heap, a function is its key in one of the two function
    tables.  Go names that are reserved words here (Variable, Parameter,
    Parameters, Register, Function, Type) carry a suffix or a prefix. *)

From Stdlib Require Import ZArith List String Bool Lia.
From stdpp Require Import base option gmap strings list pretty.
Import ListNotations.

Local Open Scope string_scope.
Local Open Scope list_scope.

(** ** Errors and outcomes

    A Go function that returns [error] either succeeds, returns an error, or
    panics (index out of range, nil dereference, failed type assertion,
    explicit panic). *)

Inductive Error :=
| MissingFunctionName
| MissingCharacter (Character : string)
| MissingRange
| MissingRangeStart
| MissingRangeLimit
| ExceededMaxVariables
| UnknownFunction (FunctionName suggestion : string)
| UnknownIdentifier (name : string)
| ParameterCount (FunctionName : string) (CountGiven CountRequired : nat)
| InvalidType (Type_ Expected ParameterName : string)
| RequiresTextParameter (FunctionName given : string)
| RegisterInUse (registerName : string)
| MainMissing
| OtherError (message : string).

Inductive Outcome (A : Type) :=
| Ok (a : A)
| Err (e : Error)
| Panic (message : string).

Arguments Ok {A} a.
Arguments Err {A} e.
Arguments Panic {A} message.

Create HintDb outcome.

#[global] Instance Outcome_ret : MRet Outcome := fun A a => Ok a.

#[global] Instance Outcome_bind : MBind Outcome := fun A B k m =>
  match m with
  | Ok a => k a
  | Err e => Err e
  | Panic msg => Panic msg
  end.

#[global] Instance Outcome_fmap : FMap Outcome := fun A B f m =>
  match m with
  | Ok a => Ok (f a)
  | Err e => Err e
  | Panic msg => Panic msg
  end.

(** Go's [xs[i]]: a run-time panic outside the bounds. *)
Definition index {A} (xs : list A) (i : nat) : Outcome A :=
  match xs !! i with
  | Some x => Ok x
  | None => Panic "index out of range"
  end.

(** Two's-complement wrap-around of Go's fixed-width integers. *)
Definition wrap (bits : Z) (x : Z) : Z :=
  ((x + 2 ^ (bits - 1)) mod 2 ^ bits - 2 ^ (bits - 1))%Z.

Definition int32 (x : Z) : Z := wrap 32 x.
Definition byte (x : Z) : Z := (x mod 256)%Z.
Definition uint64 (x : Z) : Z := (x mod 2 ^ 64)%Z.

(** Whether a character occurs in a string. *)
Fixpoint mentions (c : Ascii.ascii) (s : string) : bool :=
  match s with
  | EmptyString => false
  | String c' rest => bool_decide (c' = c) || mentions c rest
  end.

(** The underscore of the loop labels. *)
Definition underscore : Ascii.ascii := Ascii.ascii_of_nat 95.

(** ** Tokens *)

Module token.

Inductive Kind :=
| Invalid | Identifier | Number | Text | Operator | Keyword | Separator
| GroupStart | GroupEnd | BlockStart | BlockEnd | Range | NewLine | Comment.

#[global] Instance Kind_eq_dec : EqDecision Kind.
Proof. solve_decision. Defined.

Record Token := { kind : Kind; text : string }.

(** Modelled from the spec: token.Index lies outside the files verified
    here; ForStart compares its result with -1, so it is the position of the
    first token of the given kind, and -1 when there is none. *)
Fixpoint Index (tokens : list Token) (k : Kind) : Z :=
  match tokens with
  | [] => (-1)%Z
  | t :: rest =>
      if decide (kind t = k) then 0%Z
      else let i := Index rest k in
           if (i =? -1)%Z then (-1)%Z else (i + 1)%Z
  end.

End token.

(** ** Types of the language *)

Module spec.

(** Modelled from the spec: the primitive types (signed and unsigned
    integers of widths 8 to 64, boolean, text); equality is identity. *)
Inductive Type_ :=
| Int8 | Int16 | Int32 | Int64
| UInt8 | UInt16 | UInt32 | UInt64
| Bool | Text.

#[global] Instance Type_eq_dec : EqDecision Type_.
Proof. solve_decision. Defined.

Definition String (t : Type_) : string :=
  match t with
  | Int8 => "Int8" | Int16 => "Int16" | Int32 => "Int32" | Int64 => "Int64"
  | UInt8 => "UInt8" | UInt16 => "UInt16" | UInt32 => "UInt32"
  | UInt64 => "UInt64" | Bool => "Bool" | Text => "Text"
  end.

(** Operators.go: the operators used in the language.  The number
    corresponds to the operator priority and can not be zero. *)
Definition Operators : gmap string Z :=
  list_to_map
    [(",", 1);
     ("=", 2); ("+=", 2); ("-=", 2); ("*=", 2); ("/=", 2); (">>=", 2); ("<<=", 2);
     ("||", 3);
     ("&&", 4);
     ("==", 5); ("!=", 5); ("<=", 5); (">=", 5);
     ("<", 6); (">", 6);
     ("+", 7); ("-", 7);
     ("*", 8); ("/", 8); ("%", 8)]%Z.

(** Go's [Operators[op]]: the zero value for a string that is not a key. *)
Definition priority (op : string) : Z := default 0%Z (Operators !! op).

End spec.

(** ** The assembler (build/assembler) *)

Module assembler.

Definition MOV := "mov".
Definition CMP := "cmp".
Definition ADD := "add".
Definition SUB := "sub".
Definition MUL := "mul".
Definition RET := "ret".
Definition SYSCALL := "syscall".
Definition CALL := "call".
Definition JMP := "jmp".
Definition JE := "je".
Definition JNE := "jne".
Definition JL := "jl".
Definition JLE := "jle".
Definition JG := "jg".
Definition JGE := "jge".
Definition INC := "inc".
Definition DEC := "dec".
Definition PUSH := "push".
Definition POP := "pop".
Definition CPUID := "cpuid".
(** Used by Helpers.go, declared outside the given Mnemonics.go. *)
Definition STORE := "store".

(** One instruction record: a mnemonic and its operands; registers are
    named. *)
Inductive Instruction :=
| Instr0 (mnemonic : string)
| InstrLabel (mnemonic label : string)
| InstrRegister1 (mnemonic destination : string)
| InstrRegister2 (mnemonic destination source : string)
| InstrRegisterNumber (mnemonic destination : string) (number : Z)
| InstrRegisterAddress (mnemonic destination : string) (address : Z)
| InstrMemoryNumber (mnemonic destination : string)
    (offset byteCount number : Z)
| Label (name : string).

#[global] Instance Instruction_eq_dec : EqDecision Instruction.
Proof. solve_decision. Defined.

(** The instruction stream and the string pool. *)
Record Assembler := {
  instructions : list Instruction;
  strings : list string
}.

Definition New : Assembler := {| instructions := []; strings := [] |}.

Definition emit (i : Instruction) (a : Assembler) : Assembler :=
  {| instructions := instructions a ++ [i]; strings := strings a |}.

(** Modelled from the spec: the do* helpers and AddLabel lie outside the
    files verified here; each appends one instruction record, and a move of a register
    onto itself is suppressed. *)
Definition do (mnemonic : string) := emit (Instr0 mnemonic).
Definition doLabel (mnemonic label : string) := emit (InstrLabel mnemonic label).
Definition doRegister1 (mnemonic destination : string) :=
  emit (InstrRegister1 mnemonic destination).
Definition doRegister2 (mnemonic destination source : string) (a : Assembler) :=
  if bool_decide (mnemonic = MOV) && bool_decide (destination = source) then a
  else emit (InstrRegister2 mnemonic destination source) a.
Definition doRegisterNumber (mnemonic destination : string) (number : Z) :=
  emit (InstrRegisterNumber mnemonic destination number).
Definition doRegisterAddress (mnemonic destination : string) (address : Z) :=
  emit (InstrRegisterAddress mnemonic destination address).
Definition doMemoryNumber (mnemonic destination : string) (offset byteCount number : Z) :=
  emit (InstrMemoryNumber mnemonic destination offset byteCount number).
Definition AddLabel (name : string) := emit (Label name).

Definition lastInstruction (a : Assembler) : option Instruction :=
  last (instructions a).

Definition Name (i : Instruction) : string :=
  match i with
  | Instr0 m | InstrLabel m _ | InstrRegister1 m _ | InstrRegister2 m _ _
  | InstrRegisterNumber m _ _ | InstrRegisterAddress m _ _
  | InstrMemoryNumber m _ _ _ _ => m
  | Label _ => EmptyString
  end.

(** Helpers.go *)
Definition Return (a : Assembler) : Assembler :=
  match lastInstruction a with
  | Some lastInstr => if bool_decide (Name lastInstr = RET) then a else do RET a
  | None => do RET a
  end.

Definition Syscall := do SYSCALL.
Definition Call (label : string) := doLabel CALL label.
Definition Jump (label : string) := doLabel JMP label.
Definition JumpIfEqual (label : string) := doLabel JE label.
Definition IncreaseRegister (destination : string) := doRegister1 INC destination.
Definition PushRegister (destination : string) := doRegister1 PUSH destination.
Definition PopRegister (destination : string) := doRegister1 POP destination.
Definition MoveRegisterRegister (destination source : string) :=
  doRegister2 MOV destination source.
Definition MoveRegisterNumber (destination : string) (number : Z) :=
  doRegisterNumber MOV destination number.
Definition StoreNumber (destination : string) (offset byteCount number : Z) :=
  doMemoryNumber STORE destination offset byteCount number.
Definition MoveRegisterAddress (destination : string) (address : Z) :=
  doRegisterAddress MOV destination address.
Definition CompareRegisterRegister (destination source : string) :=
  doRegister2 CMP destination source.

(** Modelled from the spec: the string pool (AddString lies outside the
    files verified here) deduplicates text literals; the address of a literal is its
    byte offset in the pool, the base of the data segment being fixed only
    when the executable is laid out. *)
Fixpoint offsetOf (pool : list string) (s : string) : option Z :=
  match pool with
  | [] => None
  | x :: rest =>
      if bool_decide (x = s) then Some 0%Z
      else (fun o => (Z.of_nat (String.length x) + o)%Z) <$> offsetOf rest s
  end.

Definition poolSize (pool : list string) : Z :=
  fold_right (fun x n => (Z.of_nat (String.length x) + n)%Z) 0%Z pool.

Definition AddString (s : string) (a : Assembler) : Z * Assembler :=
  match offsetOf (strings a) s with
  | Some address => (address, a)
  | None =>
      (poolSize (strings a),
       {| instructions := instructions a; strings := strings a ++ [s] |})
  end.

End assembler.

(** ** Registers (build/register) *)

Module register.

(** A register is identified by its canonical name. *)
Abbreviation Name := string (only parsing).

(** The four views of the register file; they share the registers. *)
Record Manager := {
  All : list Name;
  General : list Name;
  Call : list Name;
  Syscall : list Name;
  ReturnValue : list Name
}.

(** Modelled from the spec: ByName (outside the files verified here) finds
    the register of that name in a list; nil when there is none. *)
Definition ByName (l : list Name) (name : string) : option Name :=
  if bool_decide (name ∈ l) then Some name else None.

End register.

(** The Linux x86-64 system call numbers of github.com/akyoto/asm/syscall. *)
Module syscall.
Definition Write : Z := 1.
End syscall.

(** ** The per-function compiler: function calls (package build) *)

Module build.

Import assembler.

(** An expression node; a function call is a node whose token is the
    function's identifier and whose children are the arguments. *)
#[local] Unset Elimination Schemes.
Inductive Expression := mkExpression {
  Token : token.Token;
  Children : list Expression;
  ExprRegister : option register.Name;
  ExprType : option spec.Type_
}.
#[local] Set Elimination Schemes.

(** Modelled from the spec: IsLeaf (outside the files verified here) holds
    of a node without children. *)
Definition IsLeaf (e : Expression) : bool :=
  match Children e with [] => true | _ => false end.

Record ParameterT := { pName : string; pType : spec.Type_ }.

Record VariableT := {
  vName : string;
  vType : spec.Type_;
  AliveUntil : Z;
  vRegister : option register.Name
}.

(** What a register's User() can be: BeforeCall asserts a *Variable,
    CallExpression installs the call expression, BeforeCall installs the
    callee's parameter. *)
Inductive User :=
| UserVariable (variable : nat)
| UserExpression (expr : Expression)
| UserParameter (param : ParameterT).

(** What a function's compile task publishes when it finishes. *)
Record Completion := {
  finalSideEffects : Z;
  finalUsedRegisterNames : list string;
  finalAssembler : Assembler
}.

Record FunctionT := {
  fName : string;
  fParameters : list ParameterT;
  ReturnTypes : list spec.Type_;
  NoParameterCheck : bool;
  SideEffects : Z;
  CallCount : Z;
  usedRegisterNames : list string;
  fAssembler : Assembler;
  (* [Some c]: the compile task of this function is still running and
   will publish [c]; [None]: it has finished. *)
  completion : option Completion
}.

(** A *Function: an entry of environment.Functions or of
    BuiltinFunctions. *)
Inductive FunctionRef :=
| UserFunction (key : string)
| BuiltinFunction (key : string).

#[global] Instance FunctionRef_eq_dec : EqDecision FunctionRef.
Proof. solve_decision. Defined.

(** For.go: a for loop being compiled, and the for-loop state. *)
Record ForLoop := {
  labelStart : string;
  labelEnd : string;
  counter : option register.Name;
  limit : option register.Name
}.

Record ForState := {
  forCounter : Z;
  stack : list ForLoop
}.

Record State := {
  assembler : Assembler;
  registers : register.Manager;
  (* the user of every register that is in use *)
  users : gmap string User;
  (* the scope stack, innermost scope first *)
  scopes : list (gmap string nat);
  (* the heap of *Variable objects *)
  variables : gmap nat VariableT;
  (* state.environment.Functions *)
  Functions : gmap string FunctionT;
  BuiltinFunctions : gmap string FunctionT;
  (* state.function, the function being compiled *)
  function : FunctionRef;
  (* the value of state.InstructionEndPosition() *)
  instructionEndPosition : Z;
  tokenCursor : Z;
  forLoop : ForState
}.

Definition withAssembler (a : Assembler) (s : State) : State :=
  {| assembler := a; registers := registers s; users := users s;
     scopes := scopes s; variables := variables s;
     Functions := Functions s; BuiltinFunctions := BuiltinFunctions s;
     function := function s;
     instructionEndPosition := instructionEndPosition s;
     tokenCursor := tokenCursor s; forLoop := forLoop s |}.

Definition withUsers (u : gmap string User) (s : State) : State :=
  {| assembler := assembler s; registers := registers s; users := u;
     scopes := scopes s; variables := variables s;
     Functions := Functions s; BuiltinFunctions := BuiltinFunctions s;
     function := function s;
     instructionEndPosition := instructionEndPosition s;
     tokenCursor := tokenCursor s; forLoop := forLoop s |}.

Definition withScopes (sc : list (gmap string nat)) (s : State) : State :=
  {| assembler := assembler s; registers := registers s; users := users s;
     scopes := sc; variables := variables s;
     Functions := Functions s; BuiltinFunctions := BuiltinFunctions s;
     function := function s;
     instructionEndPosition := instructionEndPosition s;
     tokenCursor := tokenCursor s; forLoop := forLoop s |}.

Definition withVariables (v : gmap nat VariableT) (s : State) : State :=
  {| assembler := assembler s; registers := registers s; users := users s;
     scopes := scopes s; variables := v;
     Functions := Functions s; BuiltinFunctions := BuiltinFunctions s;
     function := function s;
     instructionEndPosition := instructionEndPosition s;
     tokenCursor := tokenCursor s; forLoop := forLoop s |}.

Definition withFunctions (user builtin : gmap string FunctionT) (s : State) : State :=
  {| assembler := assembler s; registers := registers s; users := users s;
     scopes := scopes s; variables := variables s;
     Functions := user; BuiltinFunctions := builtin;
     function := function s;
     instructionEndPosition := instructionEndPosition s;
     tokenCursor := tokenCursor s; forLoop := forLoop s |}.

Definition withTokenCursor (c : Z) (s : State) : State :=
  {| assembler := assembler s; registers := registers s; users := users s;
     scopes := scopes s; variables := variables s;
     Functions := Functions s; BuiltinFunctions := BuiltinFunctions s;
     function := function s;
     instructionEndPosition := instructionEndPosition s;
     tokenCursor := c; forLoop := forLoop s |}.

Definition withForLoop (f : ForState) (s : State) : State :=
  {| assembler := assembler s; registers := registers s; users := users s;
     scopes := scopes s; variables := variables s;
     Functions := Functions s; BuiltinFunctions := BuiltinFunctions s;
     function := function s;
     instructionEndPosition := instructionEndPosition s;
     tokenCursor := tokenCursor s; forLoop := f |}.

(** Emitting through state.assembler. *)
Definition asm (f : Assembler -> Assembler) (s : State) : State :=
  withAssembler (f (assembler s)) s.

(** *** Registers in use *)

Definition IsFree (r : register.Name) (s : State) : bool :=
  bool_decide (users s !! r = None).

(** Modelled from the spec: Use and Free of package register (outside the
    files verified here): Use takes a free register for an owner and fails
    on a register in use; Free releases it. *)
Definition Use (r : register.Name) (owner : User) (s : State) : Outcome State :=
  if IsFree r s then Ok (withUsers (<[r := owner]> (users s)) s)
  else Err (RegisterInUse r).

Definition Free (r : register.Name) (s : State) : State :=
  withUsers (delete r (users s)) s.

(** Modelled from the spec: FindFree of package register (outside the files
    verified here) returns a register of the list that is not in use (here
    the first one), nil when all are in use. *)
Definition FindFree (l : list register.Name) (s : State) : option register.Name :=
  List.find (fun r => IsFree r s) l.

(** *** Variables and scopes *)

(** Modelled from the spec: Get of the scope stack (outside the files
    verified here) walks the scopes outward; nil on a miss. *)
Fixpoint scopesGet (stack : list (gmap string nat)) (name : string) : option nat :=
  match stack with
  | [] => None
  | scope :: outer =>
      match scope !! name with
      | Some v => Some v
      | None => scopesGet outer name
      end
  end.

(** Modelled from the spec: SetRegister of Variable (outside the files
    verified here) rebinds the variable to the register and makes the
    variable the register's user. *)
Definition SetRegister (variable : nat) (r : register.Name) (s : State) : State :=
  let s := withVariables
             (alter (fun v => {| vName := vName v; vType := vType v;
                                 AliveUntil := AliveUntil v;
                                 vRegister := Some r |}) variable (variables s)) s in
  withUsers (<[r := UserVariable variable]> (users s)) s.

(** *** Functions *)

Definition deref (ref : FunctionRef) (s : State) : option FunctionT :=
  match ref with
  | UserFunction key => Functions s !! key
  | BuiltinFunction key => BuiltinFunctions s !! key
  end.

Definition alterFunction (g : FunctionT -> FunctionT) (ref : FunctionRef) (s : State) : State :=
  match ref with
  | UserFunction key => withFunctions (alter g key (Functions s)) (BuiltinFunctions s) s
  | BuiltinFunction key => withFunctions (Functions s) (alter g key (BuiltinFunctions s)) s
  end.

(** atomic.AddInt32(&f.SideEffects, 1) *)
Definition addSideEffects (f : FunctionT) : FunctionT :=
  {| fName := fName f; fParameters := fParameters f; ReturnTypes := ReturnTypes f;
     NoParameterCheck := NoParameterCheck f;
     SideEffects := int32 (SideEffects f + 1); CallCount := CallCount f;
     usedRegisterNames := usedRegisterNames f; fAssembler := fAssembler f;
     completion := completion f |}.

(** atomic.AddInt32(&f.CallCount, 1) *)
Definition addCallCount (f : FunctionT) : FunctionT :=
  {| fName := fName f; fParameters := fParameters f; ReturnTypes := ReturnTypes f;
     NoParameterCheck := NoParameterCheck f;
     SideEffects := SideEffects f; CallCount := int32 (CallCount f + 1);
     usedRegisterNames := usedRegisterNames f; fAssembler := fAssembler f;
     completion := completion f |}.

Definition publish (f : FunctionT) : FunctionT :=
  match completion f with
  | None => f
  | Some c =>
      {| fName := fName f; fParameters := fParameters f; ReturnTypes := ReturnTypes f;
         NoParameterCheck := NoParameterCheck f;
         SideEffects := finalSideEffects c; CallCount := CallCount f;
         usedRegisterNames := finalUsedRegisterNames c;
         fAssembler := finalAssembler c;
         completion := None |}
  end.

(** Modelled from the spec: Wait (outside the files verified here) returns
    once the callee's compile task has finished; from then on the caller
    sees what the task published: its register usage, its side-effect
    counter and its code. *)
Definition Wait (ref : FunctionRef) (s : State) : State :=
  alterFunction publish ref s.

(** Modelled from the spec: HasReturnValue (outside the files verified
    here): a function has a return value when its list of return types is
    not empty. *)
Definition HasReturnValue (f : FunctionT) : bool :=
  match ReturnTypes f with [] => false | _ => true end.

(** Modelled from the spec: Push of the scope stack (outside the files
    verified here) opens a scope. *)
Definition scopesPush (s : State) : State := withScopes (∅ :: scopes s) s.

(** Modelled from the spec: CompareExpression (outside the files verified
    here), as the for statement uses it: the label, LIMIT evaluated into a
    temporary register by the token compiler, then the comparison of the
    counter with it. *)
Definition CompareExpressionSpec
    (tokensToRegister : list token.Token -> option register.Name -> State ->
                        Outcome (option register.Name * State))
    (reg : option register.Name)
    (upperLimit : list token.Token) (label : string) (s : State)
  : Outcome (option register.Name * State) :=
  let s := asm (AddLabel label) s in
  match FindFree (register.General (registers s)) s with
  | None => Err ExceededMaxVariables
  | Some temporary =>
      '(_, s) ← tokensToRegister upperLimit (Some temporary) s;
      match reg with
      | None => Panic "nil pointer dereference"
      | Some r => Ok (Some temporary, asm (CompareRegisterRegister r temporary) s)
      end
  end.

(** *** The parts of the compiler outside Call.go and For.go

    The call sequence and the for statements call into the expression
    compiler, the assignment compiler, the variable bookkeeping and the
    inliner; those are taken as they come. *)
Class Collaborators := {
  (* the key of a function in the function tables *)
  PolymorphName : string -> nat -> string;
  (* the keys of the builtins *)
  BuiltinPrint : string;
  BuiltinStore : string;
  BuiltinSyscall : string;
  UnknownFunctionError : string -> State -> Error;
  (* the expression compiler: the type of the expression and the state in
     which its value is in the register *)
  ExpressionToRegister :
    Expression -> register.Name -> State -> Outcome (spec.Type_ * State);
  (* the same from tokens; the register may be nil.  For.go uses its
     error only. *)
  TokensToRegister :
    list token.Token -> option register.Name -> State ->
    Outcome (option register.Name * State);
  (* the bookkeeping of a read of a variable *)
  UseVariable : nat -> State -> State;
  CanInline : FunctionT -> bool;
  InlineInto : FunctionT -> State -> State;
  (* strconv.Atoi, zero on an error *)
  Atoi : string -> Z;
  Expect : token.Kind -> State -> State;
  PopScope : State -> Outcome State;
  (* the assignment compiler: the variable assigned to *)
  AssignVariable : list token.Token -> State -> Outcome (nat * State);
  CompareExpression :
    option register.Name -> list token.Token -> string -> State ->
    Outcome (option register.Name * State)
}.

(** Go's "\n". *)
Definition newline : string := String (Ascii.ascii_of_nat 10) EmptyString.

Section Call.

Context `{Collaborators}.

(** Call handles function calls. *)
Definition Call (tokens : list token.Token) (s : State) : Outcome State :=
  firstToken ← index tokens 0;
  if negb (bool_decide (token.kind firstToken = token.Identifier))
  then Err MissingFunctionName
  else
    lastToken ← index tokens (length tokens - 1);
    if negb (bool_decide (token.kind lastToken = token.GroupEnd))
    then Err (MissingCharacter ")")
    else '(_, s) ← TokensToRegister tokens None s; Ok s.

(** printLn adds instructions to print a message to the console. *)
Definition printLn (text : string) (s : State) : Outcome State :=
  let text := text +:+ newline in
  let '(address, a) := AddString text (assembler s) in
  let s := withAssembler a s in
  r0 ← index (register.Syscall (registers s)) 0;
  let s := asm (MoveRegisterNumber r0 (uint64 syscall.Write)) s in
  r1 ← index (register.Syscall (registers s)) 1;
  let s := asm (MoveRegisterNumber r1 1) s in
  r2 ← index (register.Syscall (registers s)) 2;
  let s := asm (MoveRegisterAddress r2 address) s in
  r3 ← index (register.Syscall (registers s)) 3;
  let s := asm (MoveRegisterNumber r3 (uint64 (Z.of_nat (String.length text)))) s in
  Ok (asm Syscall s).

(** BeforeCall, first loop: determine the registers we need to save.
    The names are visited in the order in which the range loop over
    function.UsedRegisterNames() yields them. *)
Fixpoint registersToSave (names : list string) (s : State)
  : Outcome (list register.Name) :=
  match names with
  | [] => Ok []
  | registerName :: rest =>
      match register.ByName (register.All (registers s)) registerName with
      | None => Panic "nil pointer dereference"
      | Some callModifiedRegister =>
          match users s !! callModifiedRegister with
          | None => registersToSave rest s
          | Some (UserVariable v) =>
              match variables s !! v with
              | None => Panic "nil pointer dereference"
              | Some variable =>
                  (* Don't push variables that are going to die after
                     this instruction *)
                  if (AliveUntil variable <? instructionEndPosition s)%Z
                  then registersToSave rest s
                  else (callModifiedRegister ::.) <$> registersToSave rest s
              end
          | Some _ => Panic "interface conversion: not a *Variable"
          end
      end
  end.

(** BeforeCall, second loop: save registers. *)
Definition saveRegisters (pushRegisters : list register.Name) (s : State) : State :=
  fold_left (fun s reg => asm (PushRegister reg) s) pushRegisters s.

(** The check whether the move can be skipped because the variable is
    already inside the correct register. *)
Definition alreadyInPlace (parameter : Expression) (callRegister : register.Name)
    (s : State) : option nat :=
  if IsLeaf parameter && bool_decide (token.kind (Token parameter) = token.Identifier)
  then
    match scopesGet (scopes s) (token.text (Token parameter)) with
    | Some v =>
        match variables s !! v with
        | Some variable =>
            if bool_decide (vRegister variable = Some callRegister)
            then Some v else None
        | None => None
        end
    | None => None
    end
  else None.

(** Moving the current user of a call register that is in use to
    another register. *)
Definition relocate (callRegister : register.Name) (s : State) : Outcome State :=
  match FindFree (register.General (registers s)) s with
  | None => Err ExceededMaxVariables
  | Some freeRegister =>
      let s := asm (MoveRegisterRegister freeRegister callRegister) s in
      match users s !! callRegister with
      | Some (UserVariable variable) =>
          Ok (Free callRegister (SetRegister variable freeRegister s))
      | _ => Panic "This should never happen"
      end
  end.

(** [_ = callRegister.Use(owner)]: the error is dropped. *)
Definition UseIgnoringError (r : register.Name) (owner : User) (s : State) : State :=
  match Use r owner s with
  | Ok s' => s'
  | _ => s
  end.

(** BeforeCall, third loop, the body after the skip check: the call
    register is cleared of its current user, taken for the callee's
    parameter, and the argument is compiled into it. *)
Definition materialise (callee : FunctionT) (callRegister : register.Name)
    (i : nat) (parameter : Expression) (s : State)
  : Outcome (spec.Type_ * ParameterT * State) :=
  s ← (if IsFree callRegister s then Ok s else relocate callRegister s);
  param ← index (fParameters callee) i;
  let s := UseIgnoringError callRegister (UserParameter param) s in
  '(typ, s) ← ExpressionToRegister parameter callRegister s;
  Ok (typ, param, s).

(** BeforeCall, third loop: move parameters into registers, from the
    parameter of position [i] on. *)
Fixpoint moveParameters (callee : FunctionT) (callRegisters : list register.Name)
    (i : nat) (parameters : list Expression) (s : State) : Outcome State :=
  match parameters with
  | [] => Ok s
  | parameter :: rest =>
      callRegister ← index callRegisters i;
      match alreadyInPlace parameter callRegister s with
      | Some variable =>
          moveParameters callee callRegisters (S i) rest (UseVariable variable s)
      | None =>
          '(typ, param, s) ← materialise callee callRegister i parameter s;
          if negb (NoParameterCheck callee) && negb (bool_decide (typ = pType param))
          then Err (InvalidType (spec.String typ) (spec.String (pType param))
                      (pName param))
          else moveParameters callee callRegisters (S i) rest s
      end
  end.

(** The clobber set of a callee, as its caller sees it after the
    wait. *)
Definition clobberSet (ref : FunctionRef) (s : State) : option (list string) :=
  usedRegisterNames <$> deref ref (Wait ref s).

(** A register that BeforeCall saves: it is held by a variable whose
    AliveUntil is not before the end position of the instruction. *)
Definition liveAcross (s : State) (r : register.Name) : bool :=
  match users s !! r with
  | Some (UserVariable v) =>
      match variables s !! v with
      | Some variable => negb (AliveUntil variable <? instructionEndPosition s)%Z
      | None => false
      end
  | _ => false
  end.

(** The arguments of a call, from position [i] on, have all been
    handled: each was found in its call register already, or was
    compiled into it with the declared type of its parameter. *)
Inductive Checked (callee : FunctionT) (callRegisters : list register.Name)
  : nat -> list Expression -> State -> State -> Prop :=
| Checked_nil i s : Checked callee callRegisters i [] s s
| Checked_skip i parameter rest s s' callRegister variable :
    callRegisters !! i = Some callRegister ->
    alreadyInPlace parameter callRegister s = Some variable ->
    Checked callee callRegisters (S i) rest (UseVariable variable s) s' ->
    Checked callee callRegisters i (parameter :: rest) s s'
| Checked_compiled i parameter rest s s1 s' callRegister param :
    callRegisters !! i = Some callRegister ->
    alreadyInPlace parameter callRegister s = None ->
    materialise callee callRegister i parameter s = Ok (pType param, param, s1) ->
    fParameters callee !! i = Some param ->
    Checked callee callRegisters (S i) rest s1 s' ->
    Checked callee callRegisters i (parameter :: rest) s s'.

(** The same without a word on the types: each argument was found in its
    call register already, or was compiled into it. *)
Inductive Compiled (callee : FunctionT) (callRegisters : list register.Name)
  : nat -> list Expression -> State -> State -> Prop :=
| Compiled_nil i s : Compiled callee callRegisters i [] s s
| Compiled_skip i parameter rest s s' callRegister variable :
    callRegisters !! i = Some callRegister ->
    alreadyInPlace parameter callRegister s = Some variable ->
    Compiled callee callRegisters (S i) rest (UseVariable variable s) s' ->
    Compiled callee callRegisters i (parameter :: rest) s s'
| Compiled_into i parameter rest s s1 s' callRegister typ param :
    callRegisters !! i = Some callRegister ->
    alreadyInPlace parameter callRegister s = None ->
    materialise callee callRegister i parameter s = Ok (typ, param, s1) ->
    Compiled callee callRegisters (S i) rest s1 s' ->
    Compiled callee callRegisters i (parameter :: rest) s s'.

(** BeforeCall pushes parameters into registers. *)
Definition BeforeCall (ref : FunctionRef) (parameters : list Expression) (s : State)
  : Outcome (list register.Name * list register.Name * State) :=
  (* Wait for function compilation to finish *)
  let s := Wait ref s in
  match deref ref s with
  | None => Panic "nil pointer dereference"
  | Some callee =>
      pushRegisters ← registersToSave (usedRegisterNames callee) s;
      let s := saveRegisters pushRegisters s in
      let callRegisters :=
        if bool_decide (fName callee = BuiltinSyscall)
        then register.Syscall (registers s)
        else register.Call (registers s) in
      s ← moveParameters callee callRegisters 0 parameters s;
      Ok (pushRegisters, callRegisters, s)
  end.

(** AfterCall restores saved registers from the stack. *)
Definition AfterCall (ref : FunctionRef) (pushedRegisters callRegisters : list register.Name)
    (s : State) : State :=
  let s := alterFunction addCallCount ref s in
  let s := fold_left (fun s reg => asm (PopRegister reg) s) (rev pushedRegisters) s in
  fold_left (fun s callRegister => Free callRegister s) callRegisters s.

(** The lookup at the head of CallExpression: user functions first, then
    the builtins. *)
Definition resolve (functionName : string) (s : State) : option (FunctionRef * bool) :=
  match Functions s !! functionName with
  | Some _ => Some (UserFunction functionName, false)
  | None =>
      match BuiltinFunctions s !! functionName with
      | Some _ => Some (BuiltinFunction functionName, true)
      | None => None
      end
  end.

(** The builtin store. *)
Definition storeBuiltin (parameters : list Expression) (s : State) : Outcome State :=
  p0 ← index parameters 0;
  p1 ← index parameters 1;
  p2 ← index parameters 2;
  p3 ← index parameters 3;
  let variableName := token.text (Token p0) in
  let offsetString := token.text (Token p1) in
  let byteCountString := token.text (Token p2) in
  let valueString := token.text (Token p3) in
  let variable := scopesGet (scopes s) variableName in
  let offset := Atoi offsetString in
  let byteCount := Atoi byteCountString in
  let value := Atoi valueString in
  match variable with
  | None =>
      (* state.UseVariable(nil), then variable.Register() on nil *)
      Panic "nil pointer dereference"
  | Some v =>
      let s := UseVariable v s in
      match variables s !! v ≫= vRegister with
      | None => Panic "nil pointer dereference"
      | Some reg =>
          Ok (asm (StoreNumber reg (byte offset) (byte byteCount) (uint64 value)) s)
      end
  end.

(** The call itself, between BeforeCall and AfterCall, and what follows
    AfterCall. *)
Definition callSequence (expr : Expression) (functionName : string)
    (ref : FunctionRef) (s : State) : Outcome (Expression * State) :=
  '(pushRegisters, callRegisters, s) ← BeforeCall ref (Children expr) s;
  callee ← from_option Ok (Panic "nil pointer dereference") (deref ref s);
  let s :=
    if bool_decide (functionName = BuiltinSyscall) then asm Syscall s
    else if CanInline callee then InlineInto callee s
    else asm (assembler.Call functionName) s in
  let s := AfterCall ref pushRegisters callRegisters s in
  (* Mark return value register temporarily as used *)
  returnValueRegister ← index (register.ReturnValue (registers s)) 0;
  s ← Use returnValueRegister (UserExpression expr) s;
  (* Save return value in temporary register *)
  let s :=
    if bool_decide (ExprRegister expr = Some returnValueRegister) then s
    else
      let s := match ExprRegister expr with
               | Some r => asm (MoveRegisterRegister r returnValueRegister) s
               | None => s
               end in
      Free returnValueRegister s in
  callee ← from_option Ok (Panic "nil pointer dereference") (deref ref s);
  if HasReturnValue callee
  then
    t ← index (ReturnTypes callee) 0;
    Ok ({| Token := Token expr; Children := Children expr;
           ExprRegister := ExprRegister expr; ExprType := Some t |}, s)
  else Ok (expr, s).

(** CallExpression executes a function call. *)
Definition CallExpression (expr : Expression) (s : State) : Outcome (Expression * State) :=
  let parameters := Children expr in
  let functionName := token.text (Token expr) in
  let functionName := PolymorphName functionName (length parameters) in
  match resolve functionName s with
  | None => Err (UnknownFunctionError functionName s)
  | Some (ref, isBuiltin) =>
      callee ← from_option Ok (Panic "nil pointer dereference") (deref ref s);
      (* Calling a function with side effects causes our function to
         have side effects *)
      let s := if (0 <? SideEffects callee)%Z
               then alterFunction addSideEffects (function s) s else s in
      (* Parameter check *)
      if negb (NoParameterCheck callee)
         && negb (bool_decide (length parameters = length (fParameters callee)))
      then Err (ParameterCount (fName callee) (length parameters)
                  (length (fParameters callee)))
      else if isBuiltin && bool_decide (functionName = BuiltinPrint) then
        parameter ← index parameters 0;
        if negb (bool_decide (token.kind (Token parameter) = token.Text))
        then Err (RequiresTextParameter (fName callee) (token.text (Token parameter)))
        else s ← printLn (token.text (Token parameter)) s; Ok (expr, s)
      else if isBuiltin && bool_decide (functionName = BuiltinStore) then
        s ← storeBuiltin parameters s; Ok (expr, s)
      else callSequence expr functionName ref s
  end.

End Call.

Section For.

Context `{Collaborators}.

(** int64 wrap-around of Go's int on x86-64. *)
Definition int (x : Z) : Z := wrap 64 x.

(** fmt.Sprintf("for_%d", n) and fmt.Sprintf("for_%d_end", n) *)
Definition forLabel (n : Z) : string := "for_" +:+ pretty n.
Definition forEndLabel (n : Z) : string := "for_" +:+ pretty n +:+ "_end".

(** state.registers.FindFreeRegister() *)
Definition FindFreeRegister (s : State) : option register.Name :=
  FindFree (register.General (registers s)) s.

(** ForStart, the branch on operatorPos: the register of the counter,
    loaded with START.  Without an operator token in the header the
    counter is anonymous; otherwise the tokens before the range are an
    assignment and the counter is its variable. *)
Definition counterRegister (expression : list token.Token) (rangePos : Z) (s : State)
  : Outcome (option register.Name * State) :=
  let operatorPos := token.Index expression token.Operator in
  if (operatorPos =? -1)%Z then
    let start := take (Z.to_nat rangePos) expression in
    if bool_decide (length start = 0) then Err MissingRangeStart
    else
      match FindFreeRegister s with
      | None => Err ExceededMaxVariables
      | Some reg =>
          '(_, s) ← TokensToRegister start (Some reg) s;
          Ok (Some reg, s)
      end
  else
    let assignment := take (Z.to_nat rangePos) expression in
    '(variable, s) ← AssignVariable assignment s;
    match variables s !! variable with
    | None => Panic "nil pointer dereference"
    | Some v => Ok (vRegister v, s)
    end.

(** ForStart handles the start of for loops. *)
Definition ForStart (tokens : list token.Token) (s : State) : Outcome State :=
  let s := Expect token.Keyword s in
  let s := scopesPush s in
  match tokens with
  | [] => Panic "slice bounds out of range"
  | _ :: expression =>
      let rangePos := token.Index expression token.Range in
      if (rangePos =? -1)%Z then Err MissingRange
      else
        '(reg, s) ← counterRegister expression rangePos s;
        let n := int (forCounter (forLoop s) + 1) in
        let s := withForLoop {| forCounter := n; stack := stack (forLoop s) |} s in
        let labelStart := forLabel n in
        let labelEnd := forEndLabel n in
        let upperLimit := drop (Z.to_nat (rangePos + 1)) expression in
        if bool_decide (length upperLimit = 0) then Err MissingRangeLimit
        else
          let s := withTokenCursor (int (tokenCursor s + 1)) s in
          '(temporary, s) ← CompareExpression reg upperLimit labelStart s;
          let s := asm (JumpIfEqual labelEnd) s in
          Ok (withForLoop
                {| forCounter := forCounter (forLoop s);
                   stack := stack (forLoop s) ++
                            [{| labelStart := labelStart; labelEnd := labelEnd;
                                counter := reg; limit := temporary |}] |} s)
  end.

(** ForEnd handles the end of for loops. *)
Definition ForEnd (s : State) : Outcome State :=
  s ← PopScope s;
  match last (stack (forLoop s)) with
  | None => Panic "index out of range"
  | Some loop =>
      let s := withForLoop {| forCounter := forCounter (forLoop s);
                              stack := removelast (stack (forLoop s)) |} s in
      match counter loop with
      | None => Panic "nil pointer dereference"
      | Some loopCounter =>
          let s := asm (IncreaseRegister loopCounter) s in
          let s := asm (Jump (labelStart loop)) s in
          let s := asm (AddLabel (labelEnd loop)) s in
          let s := Free loopCounter s in
          match limit loop with
          | Some loopLimit => Ok (Free loopLimit s)
          | None => Ok s
          end
      end
  end.

(** The code of a for loop as the spec lists it: START into the counter,
    the label for_N, LIMIT into a temporary register, the comparison,
    the jump out of the loop, the body, the increment, the jump back and
    the label for_N_end. *)
Definition forCode (startCode limitCode body : list Instruction)
    (loopCounter temporary : register.Name) (n : Z) : list Instruction :=
  startCode ++ [Label (forLabel n)] ++ limitCode ++
  [InstrRegister2 CMP loopCounter temporary; InstrLabel JE (forEndLabel n)] ++
  body ++
  [InstrRegister1 INC loopCounter; InstrLabel JMP (forLabel n);
   Label (forEndLabel n)].

End For.

End build.

(** ** Build.Compile: the final link step (build/Build.go) *)

Module Build.

Import assembler build.

(** What the select loop of Compile receives, in the order in which it
    receives it, from the two channels of Environment.Compile.  A received
    function is a pointer; Compile reads its fields only after the results
    channel is closed, when every compile task has finished, so the record
    of an event is the function as it is then. *)
Inductive ChannelEvent :=
| ErrorReceived (err : Error)
| ErrorsClosed
| ResultReceived (compiled : FunctionT)
| ResultsClosed.

(** The part of the world outside Build.go: the machine code library
    (github.com/akyoto/asm), the encoder of a function's instruction
    stream and the file system. *)
Class World := {
  (* finalCode.Exit(0): the instructions of the exit system call *)
  Exit : Z -> list Instruction;
  (* function.assembler.Finalize() *)
  Finalize : Assembler -> list Instruction;
  (* finalCode.Verify() *)
  Verify : list Instruction -> list Error;
  (* elf.New(main).WriteToFile(filePath) followed by os.Chmod *)
  WriteToFile : list Instruction -> string -> option Error;
  Chmod : string -> Z -> option Error
}.

Record BuildT := {
  Path : string;
  ExecutablePath : string;
  ExecutableName : string;
  Environment : gmap string FunctionT;
  WriteExecutable : bool;
  Optimize : bool;
  Verbose : bool
}.

Section Compile.

Context `{World}.

(** The receive loop.  [None]: the loop is still waiting when the
    events end, Compile does not return. *)
Fixpoint receive (events : list ChannelEvent) (results : list FunctionT)
  : option (Outcome (list FunctionT)) :=
  match events with
  | [] => None
  | ErrorReceived err :: _ => Some (Err err)
  | ErrorsClosed :: rest => receive rest results
  | ResultReceived compiled :: rest => receive rest (results ++ [compiled])
  | ResultsClosed :: _ => Some (Ok results)
  end.

(** The merge loop: functions that are never called are skipped. *)
Fixpoint merge (finalCode : list Instruction) (results : list FunctionT)
  : list Instruction :=
  match results with
  | [] => finalCode
  | f :: rest =>
      if (CallCount f =? 0)%Z then merge finalCode rest
      else merge (finalCode ++ Finalize (fAssembler f)) rest
  end.

(** writeToDisk writes the executable file to disk. *)
Definition writeToDisk (main : list Instruction) (filePath : string) : option Error :=
  match WriteToFile main filePath with
  | Some err => Some err
  | None => Chmod filePath 493
  end.

(** Compile compiles all the functions in the environment (the listing of
    the assembler code under the verbose flag is left out).  The result
    is [None] when Compile does not return, and otherwise the error, or
    the code written to the executable ([Ok None] when nothing is to be
    written). *)
Definition Compile (build : BuildT) (events : list ChannelEvent)
  : option (Outcome (option (list Instruction))) :=
  match Environment build !! "main" with
  | None => Some (Err MainMissing)
  | Some _ =>
      (* Generate machine code *)
      let finalCode := instructions (assembler.Call "main" assembler.New) ++ Exit 0 in
      match receive events [] with
      | None => None
      | Some (Err err) => Some (Err err)
      | Some (Panic msg) => Some (Panic msg)
      | Some (Ok results) =>
          if negb (WriteExecutable build) then Some (Ok None)
          else
            let finalCode := merge finalCode results in
            match Verify finalCode with
            | err :: _ => Some (Err err)
            | [] =>
                match writeToDisk finalCode (ExecutablePath build) with
                | Some err => Some (Err err)
                | None => Some (Ok (Some finalCode))
                end
            end
      end
  end.

(** The functions whose code is part of the executable. *)
Definition linked (results : list FunctionT) : list FunctionT :=
  List.filter (fun f => negb (CallCount f =? 0)%Z) results.

(** An event after which the receive loop goes on: the close of the
    errors channel or a compiled function. *)
Definition pending (ev : ChannelEvent) : Prop :=
  match ev with
  | ErrorsClosed | ResultReceived _ => True
  | ErrorReceived _ | ResultsClosed => False
  end.

(** The functions among the events, in their order. *)
Definition received (events : list ChannelEvent) : list FunctionT :=
  omap (fun ev => match ev with ResultReceived compiled => Some compiled | _ => None end)
    events.

End Compile.

End Build.

(** ** Running the emitted loop code

    The meaning of the instructions a for loop consists of: register moves,
    the comparison, the conditional and the unconditional jump, the
    increment and labels. *)

Module machine.

Import assembler.

Record Machine := {
  pc : nat;
  regs : gmap string Z;
  zeroFlag : bool
}.

Definition read (m : Machine) (r : string) : Z := default 0%Z (regs m !! r).

Definition next (m : Machine) : Machine :=
  {| pc := S (pc m); regs := regs m; zeroFlag := zeroFlag m |}.

Definition write (r : string) (x : Z) (m : Machine) : Machine :=
  {| pc := S (pc m); regs := <[r := x]> (regs m); zeroFlag := zeroFlag m |}.

Definition compare (x y : Z) (m : Machine) : Machine :=
  {| pc := S (pc m); regs := regs m; zeroFlag := (x =? y)%Z |}.

(** The position of a label in the program. *)
Fixpoint labelPosition (program : list Instruction) (name : string) : option nat :=
  match program with
  | [] => None
  | i :: rest =>
      if bool_decide (i = Label name) then Some 0
      else S <$> labelPosition rest name
  end.

Definition jump (program : list Instruction) (name : string) (m : Machine)
  : option Machine :=
  target ← labelPosition program name;
  Some {| pc := target; regs := regs m; zeroFlag := zeroFlag m |}.

(** One instruction.  [None]: the program counter is past the end of the
    program (the run is over), or the instruction is not one of the loop
    instructions. *)
Definition step (program : list Instruction) (m : Machine) : option Machine :=
  i ← program !! pc m;
  match i with
  | Label _ => Some (next m)
  | InstrRegisterNumber mnemonic d n =>
      if bool_decide (mnemonic = MOV) then Some (write d (uint64 n) m)
      else if bool_decide (mnemonic = CMP) then Some (compare (read m d) (uint64 n) m)
      else None
  | InstrRegister2 mnemonic d src =>
      if bool_decide (mnemonic = MOV) then Some (write d (read m src) m)
      else if bool_decide (mnemonic = CMP) then Some (compare (read m d) (read m src) m)
      else None
  | InstrRegister1 mnemonic d =>
      if bool_decide (mnemonic = INC) then Some (write d (uint64 (read m d + 1)) m)
      else None
  | InstrLabel mnemonic name =>
      if bool_decide (mnemonic = JMP) then jump program name m
      else if bool_decide (mnemonic = JE) then
        if zeroFlag m then jump program name m else Some (next m)
      else None
  | _ => None
  end.

(** The positions of the instructions executed by a run of at most [fuel]
    steps. *)
Fixpoint executed (fuel : nat) (program : list Instruction) (m : Machine) : list nat :=
  match fuel with
  | 0 => []
  | S fuel =>
      match step program m with
      | None => []
      | Some m' => pc m :: executed fuel program m'
      end
  end.

(** The run is over within [fuel] steps: the program counter has left the
    program. *)
Fixpoint halts (fuel : nat) (program : list Instruction) (m : Machine) : bool :=
  match program !! pc m with
  | None => true
  | Some _ =>
      match fuel with
      | 0 => false
      | S fuel =>
          match step program m with
          | None => false
          | Some m' => halts fuel program m'
          end
      end
  end.

Definition start : Machine := {| pc := 0; regs := ∅; zeroFlag := false |}.

End machine.

(** ** What is assumed of the rest of the compiler *)

Import assembler build.

(** An outcome that is not a ParameterCount error. *)
Definition noParameterCount {A} (o : Outcome A) : Prop :=
  forall name given required, o <> Err (ParameterCount name given required).

(** A ParameterCount error of the outcome is the error with which the
    compilation of one of the given arguments failed. *)
Definition parameterCountOnlyFrom `{Collaborators} (arguments : list Expression)
    {A} (o : Outcome A) : Prop :=
  forall name given required,
    o = Err (ParameterCount name given required) ->
    exists e r st,
      e ∈ arguments /\
      ExpressionToRegister e r st = Err (ParameterCount name given required).

(** An InvalidType error of the outcome is the error with which the
    compilation of one of the given arguments failed. *)
Definition invalidTypeOnlyFrom `{Collaborators} (arguments : list Expression)
    {A} (o : Outcome A) : Prop :=
  forall typ expected name,
    o = Err (InvalidType typ expected name) ->
    exists e r st,
      e ∈ arguments /\
      ExpressionToRegister e r st = Err (InvalidType typ expected name).

(** What the for statements need of the rest of the compiler: the token
    and assignment compilers only append to the instruction stream, none of
    them touches the for-loop state, and CompareExpression is as the spec
    describes it. *)
Class ForLaws `{Collaborators} : Prop := {
  Expect_frame k s :
    assembler (Expect k s) = assembler s /\ forLoop (Expect k s) = forLoop s;
  TokensToRegister_appends tokens target s r s' :
    TokensToRegister tokens target s = Ok (r, s') ->
    forLoop s' = forLoop s /\
    exists code, instructions (assembler s') = instructions (assembler s) ++ code;
  AssignVariable_appends tokens s v s' :
    AssignVariable tokens s = Ok (v, s') ->
    forLoop s' = forLoop s /\
    exists code, instructions (assembler s') = instructions (assembler s) ++ code;
  PopScope_frame s s' :
    PopScope s = Ok s' -> assembler s' = assembler s /\ forLoop s' = forLoop s;
  CompareExpression_spec reg upperLimit label s :
    CompareExpression reg upperLimit label s =
    CompareExpressionSpec TokensToRegister reg upperLimit label s
}.

(** What the call sequence needs of the rest of the compiler: the expression
    compiler, the variable bookkeeping and the inliner only append to the
    instruction stream. *)
Class CallLaws `{Collaborators} : Prop := {
  ExpressionToRegister_appends e r s typ s' :
    ExpressionToRegister e r s = Ok (typ, s') ->
    exists code, instructions (assembler s') = instructions (assembler s) ++ code;
  UseVariable_appends v s :
    exists code, instructions (assembler (UseVariable v s)) = instructions (assembler s) ++ code;
  InlineInto_appends callee s :
    exists code, instructions (assembler (InlineInto callee s)) = instructions (assembler s) ++ code
}.

(** What the bookkeeping of open loops needs of the rest of the compiler:
    none of the collaborators of the for statements touches the for-loop
    state. *)
Class ForFrame `{Collaborators} : Prop := {
  Expect_forLoop k s : forLoop (Expect k s) = forLoop s;
  TokensToRegister_forLoop tokens target s r s' :
    TokensToRegister tokens target s = Ok (r, s') -> forLoop s' = forLoop s;
  AssignVariable_forLoop tokens s v s' :
    AssignVariable tokens s = Ok (v, s') -> forLoop s' = forLoop s;
  CompareExpression_forLoop reg upperLimit label s t s' :
    CompareExpression reg upperLimit label s = Ok (t, s') -> forLoop s' = forLoop s;
  PopScope_forLoop s s' : PopScope s = Ok s' -> forLoop s' = forLoop s
}.

(** ** A concrete compiler environment

    A register file, a token compiler for literals and identifiers and the
    simplest variable bookkeeping, on which the call sequence and the for
    statements run on concrete programs. *)

Module example.

Import assembler build.

Definition digit (c : Ascii.ascii) : option Z :=
  let n := Ascii.nat_of_ascii c in
  if (48 <=? n)%nat && (n <=? 57)%nat then Some (Z.of_nat (n - 48)) else None.

Fixpoint digits (s : string) (acc : Z) : option Z :=
  match s with
  | EmptyString => Some acc
  | String c rest => d ← digit c; digits rest (10 * acc + d)%Z
  end.

(** strconv.Atoi on a decimal literal; the callers drop the error and
    keep the zero value. *)
Definition parseDecimal (s : string) : Z :=
  match s with
  | EmptyString => 0%Z
  | _ => default 0%Z (digits s 0%Z)
  end.

Definition registerFile : register.Manager :=
  {| register.All := ["rax"; "rcx"; "rdx"; "rbx"; "rsi"; "rdi"; "r8"; "r9";
                      "r10"; "r11"; "r12"; "r13"; "r14"; "r15"];
     register.General := ["rbx"; "r12"; "r13"; "r14"; "r15"; "rcx"; "r11"];
     register.Call := ["rdi"; "rsi"; "rdx"; "rcx"; "r8"; "r9"];
     register.Syscall := ["rax"; "rdi"; "rsi"; "rdx"; "r10"; "r8"; "r9"];
     register.ReturnValue := ["rax"] |}.

Definition leaf (k : token.Kind) (text : string) : Expression :=
  {| Token := {| token.kind := k; token.text := text |};
     Children := []; ExprRegister := None; ExprType := None |}.

Definition call (name : string) (arguments : list Expression) : Expression :=
  {| Token := {| token.kind := token.Identifier; token.text := name |};
     Children := arguments; ExprRegister := None; ExprType := None |}.

(** A literal or a variable into a register. *)
Definition leafToRegister (e : Expression) (r : register.Name) (s : State)
  : Outcome (spec.Type_ * State) :=
  let text := token.text (Token e) in
  match token.kind (Token e) with
  | token.Number =>
      Ok (spec.Int64, asm (MoveRegisterNumber r (uint64 (parseDecimal text))) s)
  | token.Text =>
      let '(address, a) := AddString text (assembler s) in
      Ok (spec.Text, asm (MoveRegisterAddress r address) (withAssembler a s))
  | token.Identifier =>
      match scopesGet (scopes s) text ≫= (fun v => variables s !! v) with
      | None => Err (UnknownIdentifier text)
      | Some variable =>
          match vRegister variable with
          | None => Panic "nil pointer dereference"
          | Some source => Ok (vType variable, asm (MoveRegisterRegister r source) s)
          end
      end
  | _ => Err (OtherError "Unknown expression")
  end.

(** A single token into a register, which it takes when it is free. *)
Definition tokensToRegister (tokens : list token.Token) (target : option register.Name)
    (s : State) : Outcome (option register.Name * State) :=
  match tokens, target with
  | [t], Some r =>
      let e := leaf (token.kind t) (token.text t) in
      let s := match Use r (UserExpression e) s with Ok s' => s' | _ => s end in
      '(_, s) ← leafToRegister e r s; Ok (Some r, s)
  | _, _ => Err (OtherError "Unknown expression")
  end.

(** [name = number]: a new variable in a free register. *)
Definition assignVariable (tokens : list token.Token) (s : State)
  : Outcome (nat * State) :=
  match tokens with
  | [name; _; value] =>
      match FindFree (register.General (registers s)) s with
      | None => Err ExceededMaxVariables
      | Some r =>
          let v := size (variables s) in
          let s := withVariables
                     (<[v := {| vName := token.text name; vType := spec.Int64;
                                AliveUntil := 0; vRegister := Some r |}]> (variables s)) s in
          let s := withScopes
                     (match scopes s with
                      | [] => [{[ token.text name := v ]}]
                      | scope :: outer => <[token.text name := v]> scope :: outer
                      end) s in
          let s := withUsers (<[r := UserVariable v]> (users s)) s in
          Ok (v, asm (MoveRegisterNumber r (uint64 (parseDecimal (token.text value)))) s)
      end
  | _ => Err (OtherError "Unknown expression")
  end.

Definition popScope (s : State) : Outcome State :=
  Ok (withScopes (tail (scopes s)) s).

Definition inlineInto (callee : FunctionT) (s : State) : State :=
  asm (fun a => {| instructions := instructions a ++ instructions (fAssembler callee);
                   strings := strings a |}) s.

(** Modelled from the spec: PolymorphName and the names of the builtins
    lie outside the files verified here.  A function is known under its
    name and the number of its parameters, name|arity.  The builtin
    syscall takes the number of the system call and up to six arguments,
    and CallExpression and BeforeCall compare the name under which the
    callee was looked up, and the name of the callee, with the one
    constant BuiltinSyscall: so the name under which syscall is looked up
    does not depend on the number of its arguments. *)
Definition polymorphName (name : string) (arity : nat) : string :=
  if bool_decide (name = "syscall") then "syscall"
  else name +:+ "|" +:+ pretty arity.

(** The environment in which only leaves can be arguments. *)
#[local] Instance leaves : Collaborators := {|
  PolymorphName := polymorphName;
  BuiltinPrint := "print|1";
  BuiltinStore := "store|4";
  BuiltinSyscall := "syscall";
  UnknownFunctionError name _ := UnknownFunction name EmptyString;
  ExpressionToRegister e r s :=
    if IsLeaf e then leafToRegister e r s else Err (OtherError "Unknown expression");
  TokensToRegister := tokensToRegister;
  UseVariable _ s := s;
  CanInline _ := false;
  InlineInto := inlineInto;
  Atoi := parseDecimal;
  Expect _ s := withTokenCursor (tokenCursor s + 1) s;
  PopScope := popScope;
  AssignVariable := assignVariable;
  CompareExpression := CompareExpressionSpec tokensToRegister
|}.

(** Modelled from the spec: the expression compiler (ExpressionToRegister
    lies outside the files verified here) on an argument that is itself a call: the
    call is compiled by CallExpression with the argument's register as its
    result slot, and the argument has the callee's return type.  [depth]
    bounds the nesting of calls. *)
Fixpoint nested (depth : nat) : Collaborators :=
  match depth with
  | 0 => leaves
  | S depth =>
      {| PolymorphName := @PolymorphName leaves;
         BuiltinPrint := @BuiltinPrint leaves;
         BuiltinStore := @BuiltinStore leaves;
         BuiltinSyscall := @BuiltinSyscall leaves;
         UnknownFunctionError := @UnknownFunctionError leaves;
         ExpressionToRegister e r s :=
           if IsLeaf e then leafToRegister e r s
           else
             '(e', s) ← @CallExpression (nested depth)
                          {| Token := Token e; Children := Children e;
                             ExprRegister := Some r; ExprType := ExprType e |} s;
             match ExprType e' with
             | Some t => Ok (t, s)
             | None => Err (OtherError "call without a return value")
             end;
         TokensToRegister := tokensToRegister;
         UseVariable := @UseVariable leaves;
         CanInline := @CanInline leaves;
         InlineInto := inlineInto;
         Atoi := parseDecimal;
         Expect := @Expect leaves;
         PopScope := popScope;
         AssignVariable := assignVariable;
         CompareExpression := CompareExpressionSpec tokensToRegister |}
  end.

Definition emptyFunction (name : string) (params : list ParameterT)
    (returns : list spec.Type_) : FunctionT :=
  {| fName := name; fParameters := params; ReturnTypes := returns;
     NoParameterCheck := false; SideEffects := 0; CallCount := 0;
     usedRegisterNames := []; fAssembler := assembler.New; completion := None |}.

Definition int64Param (name : string) : ParameterT :=
  {| pName := name; pType := spec.Int64 |}.

(** Modelled from the spec: the table of the builtins (BuiltinFunctions lies
    outside the files verified here): print(text), store(var, offset,
    byteCount, value) and syscall(num, ...args) with up to six arguments;
    syscall opts out of parameter checking.  The clobber set of print is
    the set of registers that its code writes; the code of store writes no
    register. *)
Definition printFunction : FunctionT :=
  {| fName := "print|1"; fParameters := [{| pName := "text"; pType := spec.Text |}];
     ReturnTypes := []; NoParameterCheck := false; SideEffects := 1;
     CallCount := 0; usedRegisterNames := ["rax"; "rdi"; "rsi"; "rdx"];
     fAssembler := assembler.New; completion := None |}.

Definition storeFunction : FunctionT :=
  emptyFunction "store|4"
    [int64Param "variable"; int64Param "offset"; int64Param "byteCount";
     int64Param "value"] [].

Definition syscallFunction : FunctionT :=
  {| fName := "syscall";
     fParameters := [int64Param "number"; int64Param "a"; int64Param "b";
                     int64Param "c"; int64Param "d"; int64Param "e";
                     int64Param "f"];
     ReturnTypes := [spec.Int64]; NoParameterCheck := true; SideEffects := 1;
     CallCount := 0; usedRegisterNames := []; fAssembler := assembler.New;
     completion := None |}.

Definition builtins : gmap string FunctionT :=
  {[ "print|1" := printFunction; "store|4" := storeFunction;
     "syscall" := syscallFunction ]}.

(** The state at the start of the compilation of main. *)
Definition initial (functions : gmap string FunctionT) : State :=
  {| assembler := assembler.New; registers := registerFile; users := ∅;
     scopes := [∅]; variables := ∅;
     Functions := functions; BuiltinFunctions := builtins;
     function := UserFunction "main|0";
     instructionEndPosition := 0; tokenCursor := 0;
     forLoop := {| forCounter := 0; stack := [] |} |}.

Definition main : FunctionT := emptyFunction "main|0" [] [].

Definition number (text : string) : Expression := leaf token.Number text.

(** [fn f(a)] and [fn g(x) -> Int64], both compiled already, neither
    using a register. *)
Definition f1 : FunctionT := emptyFunction "f|1" [int64Param "a"] [].
Definition g1 : FunctionT := emptyFunction "g|1" [int64Param "x"] [spec.Int64].

Definition program : gmap string FunctionT :=
  {[ "main|0" := main; "f|1" := f1; "g|1" := g1 ]}.

(** [fn noisy()], whose compile task is still running: so far it has no
    side effect; when the task finishes it will have one (its body
    prints). *)
Definition noisy (finished : bool) : FunctionT :=
  {| fName := "noisy|0"; fParameters := []; ReturnTypes := [];
     NoParameterCheck := false;
     SideEffects := if finished then 1 else 0; CallCount := 0;
     usedRegisterNames := if finished then ["rax"; "rdi"; "rsi"; "rdx"] else [];
     fAssembler := assembler.New;
     completion :=
       if finished then None
       else Some {| finalSideEffects := 1;
                    finalUsedRegisterNames := ["rax"; "rdi"; "rsi"; "rdx"];
                    finalAssembler := assembler.New |} |}.

(** [fn h()], compiled, which uses rbx; and a state in which the variable
    x lives in rbx and is read for the last time at position [last], the
    call statement ending at position 7. *)
Definition h0 : FunctionT :=
  {| fName := "h|0"; fParameters := []; ReturnTypes := [];
     NoParameterCheck := false; SideEffects := 0; CallCount := 0;
     usedRegisterNames := ["rbx"; "r12"]; fAssembler := assembler.New;
     completion := None |}.

Definition withVariableInRbx (last : Z) : State :=
  {| assembler := assembler.New; registers := registerFile;
     users := {[ "rbx" := UserVariable 0 ]};
     scopes := [{[ "x" := 0 ]}];
     variables := {[ 0 := {| vName := "x"; vType := spec.Int64;
                             AliveUntil := last; vRegister := Some "rbx" |} ]};
     Functions := {[ "main|0" := main; "h|0" := h0 ]};
     BuiltinFunctions := builtins;
     function := UserFunction "main|0";
     instructionEndPosition := 7; tokenCursor := 0;
     forLoop := {| forCounter := 0; stack := [] |} |}.

(** A state in which the variable n, a parameter of the function being
    compiled, lives in rdi and is read again after the current statement. *)
Definition withVariableInRdi : State :=
  {| assembler := assembler.New; registers := registerFile;
     users := {[ "rdi" := UserVariable 0 ]};
     scopes := [{[ "n" := 0 ]}];
     variables := {[ 0 := {| vName := "n"; vType := spec.Int64;
                             AliveUntil := 100; vRegister := Some "rdi" |} ]};
     Functions := {[ "main|0" := main ]};
     BuiltinFunctions := builtins;
     function := UserFunction "main|0";
     instructionEndPosition := 7; tokenCursor := 0;
     forLoop := {| forCounter := 0; stack := [] |} |}.

(** A state in which the text variable t lives in rdi, the first call
    register. *)
Definition withTextInRdi : State :=
  {| assembler := assembler.New; registers := registerFile;
     users := {[ "rdi" := UserVariable 0 ]};
     scopes := [{[ "t" := 0 ]}];
     variables := {[ 0 := {| vName := "t"; vType := spec.Text;
                             AliveUntil := 3; vRegister := Some "rdi" |} ]};
     Functions := program;
     BuiltinFunctions := builtins;
     function := UserFunction "main|0";
     instructionEndPosition := 7; tokenCursor := 0;
     forLoop := {| forCounter := 0; stack := [] |} |}.

(** A state in which every register of the general pool holds a
    variable. *)
Definition allGeneralInUse : State :=
  {| assembler := assembler.New; registers := registerFile;
     users := list_to_map
                (imap (fun i r => (r, UserVariable i)) (register.General registerFile));
     scopes := [∅]; variables := ∅;
     Functions := {[ "main|0" := main ]}; BuiltinFunctions := builtins;
     function := UserFunction "main|0";
     instructionEndPosition := 0; tokenCursor := 0;
     forLoop := {| forCounter := 0; stack := [] |} |}.

(** A program that defines a function syscall of one parameter of its
    own. *)
Definition redefined : gmap string FunctionT :=
  {[ "main|0" := main; "syscall" := emptyFunction "syscall" [int64Param "a"] [] ]}.

(** The initial state with a table of builtins in which syscall does not
    opt out of parameter checking. *)
Definition withoutOptOut : State :=
  withFunctions program
    (<["syscall" := {| fName := "syscall"; fParameters := fParameters syscallFunction;
                       ReturnTypes := ReturnTypes syscallFunction;
                       NoParameterCheck := false;
                       SideEffects := SideEffects syscallFunction;
                       CallCount := 0; usedRegisterNames := [];
                       fAssembler := assembler.New; completion := None |}]> builtins)
    (initial program).

Definition text (value : string) : Expression := leaf token.Text value.

Definition ok {A} (o : Outcome A) (otherwise : A) : A :=
  match o with Ok a => a | _ => otherwise end.

Definition tok (k : token.Kind) (text : string) : token.Token :=
  {| token.kind := k; token.text := text |}.

(** The machine code library and the file system of the link step: the
    exit system call of Linux on x86-64, the instruction stream as it
    is, no undefined label, no failing write. *)
#[local] Instance world : Build.World := {|
  Build.Exit code := [InstrRegisterNumber MOV "rax" 60;
                      InstrRegisterNumber MOV "rdi" code; Instr0 SYSCALL];
  Build.Finalize a := instructions a;
  Build.Verify _ := [];
  Build.WriteToFile _ _ := None;
  Build.Chmod _ _ := None
|}.

Definition compiled (name : string) (calls : Z) (code : list Instruction) : FunctionT :=
  {| fName := name; fParameters := []; ReturnTypes := [];
     NoParameterCheck := false; SideEffects := 1; CallCount := calls;
     usedRegisterNames := [];
     fAssembler := {| instructions := code; strings := [] |};
     completion := None |}.

(** The call [h()] compiled in the state in which x is read for the last
    time at position [last]. *)
Definition afterCallOfH (last : Z) : State :=
  snd (ok (CallExpression (call "h" []) (withVariableInRbx last))
         (call "h" [], withVariableInRbx last)).

(** The text literal "hi" compiled into rdi for the parameter a of f. *)
Definition textIntoRdi : State :=
  snd (ok (materialise f1 "rdi" 0 (text "hi") (initial program))
         (spec.Text, int64Param "a", initial program)).

(** A build in which a, main and unused have been compiled; nothing
    calls unused. *)
Definition exampleBuild : Build.BuildT :=
  {| Build.Path := "/project"; Build.ExecutablePath := "/project/project";
     Build.ExecutableName := "project";
     Build.Environment := {[ "main" := compiled "main" 1 [] ]};
     Build.WriteExecutable := true; Build.Optimize := false;
     Build.Verbose := false |}.

Definition codeOfA : list Instruction := [Instr0 SYSCALL; Instr0 RET].
Definition codeOfMain : list Instruction := [InstrLabel CALL "a"; Instr0 RET].

Definition exampleEvents : list Build.ChannelEvent :=
  [Build.ResultReceived (compiled "a" 1 codeOfA);
   Build.ErrorsClosed;
   Build.ResultReceived (compiled "unused" 0 [Instr0 RET]);
   Build.ResultReceived (compiled "main" 1 codeOfMain);
   Build.ResultsClosed].

(** The statement [for 0..0], a body of one call, and the states after
    ForStart, after the body and after ForEnd. *)
Definition forTokens : list token.Token :=
  [tok token.Keyword "for"; tok token.Number "0"; tok token.Range "..";
   tok token.Number "0"].

Definition loopBody : list Instruction := [InstrLabel CALL "f|1"].

Definition afterForStart : State :=
  ok (ForStart forTokens (initial program)) (initial program).

Definition inLoop : State :=
  asm (fun a => {| instructions := instructions a ++ loopBody; strings := strings a |})
    afterForStart.

Definition afterForEnd : State := ok (ForEnd inLoop) inLoop.

(** A for statement compiled from its header and the code of its body. *)
Definition forStatement (header : list token.Token) (body : list Instruction)
    (s : State) : State :=
  let opened := ok (ForStart (tok token.Keyword "for" :: header) s) s in
  let filled := asm (fun a => {| instructions := instructions a ++ body;
                                 strings := strings a |}) opened in
  ok (ForEnd filled) filled.

(** [for 0..3 { for 0..2 { ... } }]: the inner statement is compiled
    between ForStart and ForEnd of the outer one. *)
Definition nestedLoops : State :=
  let header limit := [tok token.Keyword "for"; tok token.Number "0";
                       tok token.Range ".."; tok token.Number limit] in
  let outer := ok (ForStart (header "3") (initial program)) (initial program) in
  let inner := forStatement (tail (header "2")) [InstrRegisterNumber MOV "rax" 1] outer in
  ok (ForEnd inner) inner.

(** A register file whose system call list has two registers only, and
    the state at the start of main on it. *)
Definition narrowRegisterFile : register.Manager :=
  {| register.All := register.All registerFile;
     register.General := register.General registerFile;
     register.Call := register.Call registerFile;
     register.Syscall := ["rax"; "rdi"];
     register.ReturnValue := register.ReturnValue registerFile |}.

Definition narrow : State :=
  {| assembler := assembler.New; registers := narrowRegisterFile; users := ∅;
     scopes := [∅]; variables := ∅;
     Functions := program; BuiltinFunctions := builtins;
     function := UserFunction "main|0";
     instructionEndPosition := 0; tokenCursor := 0;
     forLoop := {| forCounter := 0; stack := [] |} |}.

(** A state in which rbx holds the value of an expression, not a
    variable. *)
Definition withExpressionInRbx : State :=
  withUsers {[ "rbx" := UserExpression (number "1") ]} (withVariableInRbx 9).

(** The call [g(1)] on the initial state, with rbx as its result slot. *)
Definition callOfG : Expression :=
  {| Token := tok token.Identifier "g"; Children := [number "1"];
     ExprRegister := Some "rbx"; ExprType := None |}.

Definition afterCallOfG : Expression * State :=
  ok (callSequence callOfG "g|1" (UserFunction "g|1") (initial program))
    (callOfG, initial program).

(** A store into the variable x, with an offset that does not fit a
    byte. *)
Definition storeIntoX : Expression :=
  call "store" [leaf token.Identifier "x"; number "256"; number "1"; number "5"].

(** The system call of the spec's example, [syscall(1, 1, "Hello Syscalls",
    14)]. *)
Definition syscallOfFour : Expression :=
  call "syscall" [number "1"; number "1"; text "Hello Syscalls"; number "14"].

Definition afterStoreIntoX : Expression * State :=
  ok (CallExpression storeIntoX (withVariableInRbx 9)) (storeIntoX, withVariableInRbx 9).

End example.

(** * Properties *)

(** ** Frame lemmas: what the bookkeeping leaves alone *)

Lemma assembler_alterFunction g ref s :
  assembler (alterFunction g ref s) = assembler s.
Proof. by destruct ref. Qed.

Lemma registers_alterFunction g ref s :
  registers (alterFunction g ref s) = registers s.
Proof. by destruct ref. Qed.

Lemma users_alterFunction g ref s :
  users (alterFunction g ref s) = users s.
Proof. by destruct ref. Qed.

Lemma variables_alterFunction g ref s :
  variables (alterFunction g ref s) = variables s.
Proof. by destruct ref. Qed.

Lemma scopes_alterFunction g ref s :
  scopes (alterFunction g ref s) = scopes s.
Proof. by destruct ref. Qed.

Lemma instructionEndPosition_alterFunction g ref s :
  instructionEndPosition (alterFunction g ref s) = instructionEndPosition s.
Proof. by destruct ref. Qed.

Lemma deref_alterFunction g ref s :
  deref ref (alterFunction g ref s) = g <$> deref ref s.
Proof. destruct ref; simpl; by rewrite lookup_alter_eq. Qed.

Lemma length_append (s1 s2 : string) :
  String.length (s1 +:+ s2) = String.length s1 + String.length s2.
Proof. induction s1 as [|c s1 IH]; simpl; [done | by rewrite IH]. Qed.

Lemma instructions_emit i a :
  instructions (emit i a) = instructions a ++ [i].
Proof. done. Qed.

(** The string pool after AddString holds the string at the returned
    address. *)
Lemma offsetOf_app_r pool x s :
  offsetOf pool s = None ->
  offsetOf (pool ++ [x]) s = (fun o => (poolSize pool + o)%Z) <$> offsetOf [x] s.
Proof.
  induction pool as [|y pool IH]; simpl; intros Hnone.
  - destruct (bool_decide (x = s)); simpl; [done | done].
  - destruct (bool_decide (y = s)); [done |].
    destruct (offsetOf pool s) eqn:E; [done |].
    rewrite IH by done. simpl.
    destruct (bool_decide (x = s)); simpl; [f_equal; lia | done].
Qed.

Lemma AddString_interned s a address a' :
  AddString s a = (address, a') ->
  offsetOf (strings a') s = Some address /\ instructions a' = instructions a.
Proof.
  unfold AddString. destruct (offsetOf (strings a) s) eqn:E; intros [= <- <-].
  - done.
  - simpl. split; [| done]. rewrite offsetOf_app_r by done. simpl.
    rewrite bool_decide_eq_true_2 by done. simpl. f_equal. lia.
Qed.


Lemma noParameterCount_bind {A B} (m : Outcome A) (k : A -> Outcome B) :
  noParameterCount m -> (forall a, noParameterCount (k a)) ->
  noParameterCount (m ≫= k).
Proof.
  intros Hm Hk. destruct m as [a|e|msg]; simpl.
  - apply Hk.
  - intros ??? [= ->]. by eapply Hm.
  - by intros ???.
Qed.

Lemma noParameterCount_Ok {A} (a : A) : noParameterCount (Ok a).
Proof. by intros ???. Qed.

Lemma noParameterCount_Panic {A} msg : noParameterCount (@Panic A msg).
Proof. by intros ???. Qed.

Lemma noParameterCount_index {A} (l : list A) i : noParameterCount (index l i).
Proof. unfold index. destruct (l !! i); by intros ???. Qed.

Lemma noParameterCount_from_option {A} (o : option A) msg :
  noParameterCount (from_option Ok (Panic msg) o).
Proof. destruct o; by intros ???. Qed.

#[local] Hint Resolve noParameterCount_Ok noParameterCount_Panic
  noParameterCount_index noParameterCount_from_option : outcome.

(** ** The call sequence *)

Section CallProperties.

Context `{Collaborators}.

Lemma noParameterCount_registersToSave names s :
  noParameterCount (registersToSave names s).
Proof.
  induction names as [|name names IH]; simpl; [by intros ??? |].
  destruct (register.ByName _ _); [| by intros ???].
  destruct (users s !! _) as [[v| |]|]; try by intros ???.
  destruct (variables s !! v); [| by intros ???].
  destruct (_ <? _)%Z; [done |].
  destruct (registersToSave names s); simpl; by intros ???.
Qed.

Lemma noParameterCount_relocate r s : noParameterCount (relocate r s).
Proof.
  unfold relocate. destruct (FindFree _ _); [| by intros ???].
  destruct (users _ !! r) as [[| |]|]; by intros ???.
Qed.

Lemma onlyFrom_none arguments {A} (o : Outcome A) :
  noParameterCount o -> parameterCountOnlyFrom arguments o.
Proof. intros Hno name given required Heq. by destruct (Hno name given required). Qed.

Lemma onlyFrom_bind arguments {A B} (m : Outcome A) (k : A -> Outcome B) :
  parameterCountOnlyFrom arguments m ->
  (forall a, parameterCountOnlyFrom arguments (k a)) ->
  parameterCountOnlyFrom arguments (m ≫= k).
Proof.
  intros Hm Hk. destruct m as [a|e|msg]; simpl.
  - apply Hk.
  - intros name given required [= ->]. by apply Hm.
  - by intros ???.
Qed.

Lemma onlyFrom_moveParameters arguments callee callRegisters parameters :
  (forall e, e ∈ parameters -> e ∈ arguments) ->
  forall i s,
    parameterCountOnlyFrom arguments (moveParameters callee callRegisters i parameters s).
Proof.
  induction parameters as [|p ps IH]; intros Hsub i s; simpl; [by intros ??? |].
  assert (Hps : forall e, e ∈ ps -> e ∈ arguments).
  { intros e He. apply Hsub. apply elem_of_cons. by right. }
  apply onlyFrom_bind; [apply onlyFrom_none; auto with outcome |]. intros callRegister.
  destruct (alreadyInPlace p callRegister s); [by apply IH |].
  apply onlyFrom_bind.
  { unfold materialise. apply onlyFrom_bind.
    { apply onlyFrom_none.
      destruct (IsFree callRegister s); [auto with outcome | apply noParameterCount_relocate]. }
    intros s1. apply onlyFrom_bind; [apply onlyFrom_none; auto with outcome |].
    intros param. apply onlyFrom_bind; [| by intros [typ s2] ???].
    intros name given required HE. eexists p, _, _. split; [| exact HE].
    apply Hsub. apply elem_of_cons. by left. }
  intros [[typ param] s2].
  destruct (_ && _); [by intros ??? | by apply IH].
Qed.

Lemma onlyFrom_callSequence expr functionName ref s :
  parameterCountOnlyFrom (Children expr) (callSequence expr functionName ref s).
Proof.
  unfold callSequence.
  apply onlyFrom_bind.
  { unfold BeforeCall. destruct (deref ref (Wait ref s)); [| by intros ???].
    apply onlyFrom_bind;
      [apply onlyFrom_none, noParameterCount_registersToSave |].
    intros push. apply onlyFrom_bind; [by apply onlyFrom_moveParameters |].
    intros s1. by intros ???. }
  intros [[push regs] s1]. apply onlyFrom_none.
  apply noParameterCount_bind; [auto with outcome |]. intros callee.
  apply noParameterCount_bind; [auto with outcome |]. intros rv.
  apply noParameterCount_bind.
  { unfold Use. destruct (IsFree _ _); by intros ???. }
  intros s2. apply noParameterCount_bind; [auto with outcome |]. intros callee'.
  destruct (HasReturnValue callee'); [| by intros ???].
  apply noParameterCount_bind; [auto with outcome |]. intros t. by intros ???.
Qed.

Lemma resolve_deref functionName s ref isBuiltin :
  resolve functionName s = Some (ref, isBuiltin) ->
  exists callee, deref ref s = Some callee.
Proof.
  unfold resolve. destruct (Functions s !! functionName) eqn:E1.
  - intros [= <- <-]. eauto.
  - destruct (BuiltinFunctions s !! functionName) eqn:E2; [| done].
    intros [= <- <-]. eauto.
Qed.

(** C5.  A call whose name and number of arguments are in neither table
    fails when the callee is looked up, before any count is compared.
    When the callee that was found does not opt out of parameter checking
    and the number of arguments differs from the number of its declared
    parameters, the call fails with a ParameterCount error that carries
    the name of the callee and both counts.  A callee that opts out, as
    the builtin syscall does, never yields this error for the call itself,
    whatever the number of arguments: when its compilation fails with a
    ParameterCount error, that error is the one with which the compilation
    of one of its arguments (a call in its own right) failed. *)
Theorem parameter_count_check (expr : Expression) (s : State) :
  let parameters := Children expr in
  let functionName := PolymorphName (token.text (Token expr)) (length parameters) in
  (resolve functionName s = None ->
   CallExpression expr s = Err (UnknownFunctionError functionName s)) /\
  (forall ref isBuiltin callee,
     resolve functionName s = Some (ref, isBuiltin) ->
     deref ref s = Some callee ->
     (NoParameterCheck callee = false ->
      length parameters <> length (fParameters callee) ->
      CallExpression expr s =
        Err (ParameterCount (fName callee) (length parameters)
               (length (fParameters callee)))) /\
     (NoParameterCheck callee = true ->
      parameterCountOnlyFrom parameters (CallExpression expr s))).
Proof.
  intros parameters functionName. split.
  { intros Hmiss. unfold CallExpression. fold parameters. fold functionName.
    by rewrite Hmiss. }
  intros ref isBuiltin callee Hresolve Hderef. split.
  - intros Hcheck Hcount. unfold CallExpression.
    fold parameters. fold functionName. rewrite Hresolve, Hderef. simpl.
    rewrite Hcheck. rewrite (bool_decide_eq_false_2 _ Hcount). done.
  - intros Hcheck. unfold CallExpression.
    fold parameters. fold functionName. rewrite Hresolve, Hderef. simpl.
    rewrite Hcheck. simpl.
    destruct (isBuiltin && bool_decide (functionName = BuiltinPrint)).
    { apply onlyFrom_none.
      apply noParameterCount_bind; [auto with outcome |]. intros p.
      destruct (negb _); [by intros ??? |].
      apply noParameterCount_bind; [| by intros ????].
      unfold printLn. destruct (AddString _ _).
      repeat (apply noParameterCount_bind; [auto with outcome |]; intros ?).
      auto with outcome. }
    destruct (isBuiltin && bool_decide (functionName = BuiltinStore)).
    { apply onlyFrom_none.
      apply noParameterCount_bind; [| by intros ????].
      unfold storeBuiltin.
      repeat (apply noParameterCount_bind; [auto with outcome |]; intros ?).
      destruct (scopesGet _ _); [| auto with outcome].
      destruct (_ ≫= _); auto with outcome. }
    apply onlyFrom_callSequence.
Qed.

(** C7.  Compiling print(s) for a text literal s interns s followed by a
    newline and appends exactly the write system call: the first four
    system call registers are loaded with the number of write, the file
    descriptor 1, the address of the interned string and the length
    len(s)+1, and a syscall instruction follows. *)
Theorem print_emits_write (expr parameter : Expression) (s : State)
    (callee : FunctionT) (r0 r1 r2 r3 : register.Name) (rest : list register.Name) :
  let functionName := PolymorphName (token.text (Token expr)) 1 in
  let literal := token.text (Token parameter) in
  Children expr = [parameter] ->
  token.kind (Token parameter) = token.Text ->
  Functions s !! functionName = None ->
  BuiltinFunctions s !! functionName = Some callee ->
  functionName = BuiltinPrint ->
  length (fParameters callee) = 1 ->
  register.Syscall (registers s) = r0 :: r1 :: r2 :: r3 :: rest ->
  (Z.of_nat (String.length literal) + 1 < 2 ^ 64)%Z ->
  exists s' address,
    CallExpression expr s = Ok (expr, s') /\
    offsetOf (strings (assembler s')) (literal +:+ newline) = Some address /\
    instructions (assembler s') =
      instructions (assembler s) ++
      [InstrRegisterNumber MOV r0 syscall.Write;
       InstrRegisterNumber MOV r1 1;
       InstrRegisterAddress MOV r2 address;
       InstrRegisterNumber MOV r3 (Z.of_nat (String.length literal) + 1);
       Instr0 SYSCALL].
Proof.
  intros functionName literal Hchildren Hkind Huser Hbuiltin Hprint Hparams Hregs Hlen.
  unfold CallExpression. rewrite Hchildren. simpl length.
  fold functionName. unfold resolve. rewrite Huser, Hbuiltin. simpl.
  rewrite Hbuiltin. simpl.
  set (s1 := if (0 <? SideEffects callee)%Z then _ else s).
  assert (Hasm : assembler s1 = assembler s).
  { subst s1. destruct (0 <? SideEffects callee)%Z; [apply assembler_alterFunction | done]. }
  assert (Hreg : registers s1 = registers s).
  { subst s1. destruct (0 <? SideEffects callee)%Z; [apply registers_alterFunction | done]. }
  rewrite Hparams. rewrite (bool_decide_eq_true_2 (1 = 1)) by done.
  rewrite andb_false_r. rewrite (bool_decide_eq_true_2 _ Hprint). simpl.
  rewrite (bool_decide_eq_true_2 _ Hkind). simpl.
  unfold printLn. fold literal.
  destruct (AddString (literal +:+ newline) (assembler s1)) as [address a] eqn:Hadd.
  apply AddString_interned in Hadd as [Hoff Hins].
  simpl. rewrite Hreg, Hregs. simpl.
  exists (asm Syscall
            (asm (MoveRegisterNumber r3
                    (uint64 (Z.of_nat (String.length (literal +:+ newline)))))
               (asm (MoveRegisterAddress r2 address)
                  (asm (MoveRegisterNumber r1 1)
                     (asm (MoveRegisterNumber r0 (uint64 syscall.Write))
                        (withAssembler a s1)))))), address.
  split; [done |]. split; [done |].
  simpl. rewrite Hins, Hasm. rewrite <- !app_assoc. simpl.
  do 4 f_equal.
  rewrite length_append. simpl.
  unfold uint64. rewrite Z.mod_small by lia. repeat f_equal. lia.
Qed.

End CallProperties.

Section StoreProperties.

Context `{Collaborators}.

(** C9.  A call to the builtin store whose first argument names a variable
    that no enclosing scope binds does not fail with an UnknownIdentifier
    error: the nil result of the scope lookup is dereferenced and the
    compilation panics. *)
Theorem store_unbound_variable_panics (expr p0 p1 p2 p3 : Expression) (s : State)
    (callee : FunctionT) :
  let functionName := PolymorphName (token.text (Token expr)) 4 in
  Children expr = [p0; p1; p2; p3] ->
  Functions s !! functionName = None ->
  BuiltinFunctions s !! functionName = Some callee ->
  functionName = BuiltinStore ->
  functionName <> BuiltinPrint ->
  NoParameterCheck callee = true \/ length (fParameters callee) = 4 ->
  scopesGet (scopes s) (token.text (Token p0)) = None ->
  CallExpression expr s = Panic "nil pointer dereference" /\
  forall name, CallExpression expr s <> Err (UnknownIdentifier name).
Proof.
  intros functionName Hchildren Huser Hbuiltin Hstore Hprint Hcount Hscope.
  assert (Hpanic : CallExpression expr s = Panic "nil pointer dereference");
    [| split; [done | by rewrite Hpanic]].
  unfold CallExpression. rewrite Hchildren. simpl length.
  fold functionName. unfold resolve. rewrite Huser, Hbuiltin. simpl.
  rewrite Hbuiltin. simpl.
  set (s1 := if (0 <? SideEffects callee)%Z then _ else s).
  assert (Hsc : scopes s1 = scopes s).
  { subst s1. destruct (0 <? SideEffects callee)%Z; [apply scopes_alterFunction | done]. }
  assert (Hcheck : negb (NoParameterCheck callee)
                   && negb (bool_decide (4 = length (fParameters callee))) = false).
  { destruct Hcount as [-> | ->]; [done |].
    rewrite (bool_decide_eq_true_2 (4 = 4)) by done. apply andb_false_r. }
  rewrite Hcheck. simpl.
  rewrite (bool_decide_eq_false_2 _ Hprint).
  rewrite (bool_decide_eq_true_2 _ Hstore). simpl.
  unfold storeBuiltin. simpl. by rewrite Hsc, Hscope.
Qed.

End StoreProperties.

(** ** The link step *)

Section CompileProperties.

Import Build.
Context `{World}.

Lemma merge_linked finalCode results :
  merge finalCode results =
  finalCode ++ concat (map (fun f => Finalize (fAssembler f)) (linked results)).
Proof.
  revert finalCode. induction results as [|f results IH]; intros finalCode; simpl.
  - by rewrite app_nil_r.
  - destruct (CallCount f =? 0)%Z eqn:E; simpl; [apply IH |].
    rewrite IH. by rewrite <- app_assoc.
Qed.

Lemma elem_of_linked f results :
  f ∈ linked results <-> f ∈ results /\ CallCount f <> 0%Z.
Proof.
  unfold linked. rewrite !list_elem_of_In, filter_In.
  destruct (Z.eqb_spec (CallCount f) 0); simpl; intuition congruence.
Qed.

Lemma receive_received events : forall acc results,
  receive events acc = Some (Ok results) ->
  forall f, f ∈ results -> f ∈ acc \/ ResultReceived f ∈ events.
Proof.
  induction events as [|ev events IH]; intros acc results; simpl; [done |].
  destruct ev as [err| |compiled|].
  - done.
  - intros Hr f Hf. destruct (IH _ _ Hr f Hf); [by left | right; by constructor].
  - intros Hr f Hf. destruct (IH _ _ Hr f Hf) as [Hin | Hin].
    + apply elem_of_app in Hin as [Hin | Hin]; [by left |].
      apply list_elem_of_singleton in Hin as ->. right. by constructor.
    + right. by constructor.
  - intros [= ->] f Hf. by left.
Qed.

(** Below 2^31 - 1 call sites the counter that AfterCall increments does
    not wrap around: it stays positive. *)
Lemma CallCount_addCallCount f :
  (0 <= CallCount f < 2 ^ 31 - 1)%Z ->
  CallCount (addCallCount f) = (CallCount f + 1)%Z.
Proof.
  intros Hrange. unfold addCallCount, int32, wrap. simpl CallCount.
  change (2 ^ (32 - 1))%Z with (2 ^ 31)%Z.
  rewrite Z.mod_small; lia.
Qed.

(** C3.  The code of the executable is the entry [call main; exit 0]
    followed by the code of the received functions whose CallCount is not
    zero, in the order of their reception: a function whose CallCount is
    zero is left out, and every function that is part of the executable
    has a positive CallCount (or is main), the counter never being
    negative. *)
Theorem compile_links_called_functions (build : BuildT)
    (events : list ChannelEvent) (code : list Instruction) :
  (forall f, ResultReceived f ∈ events -> (0 <= CallCount f)%Z) ->
  Compile build events = Some (Ok (Some code)) ->
  exists results,
    receive events [] = Some (Ok results) /\
    code = InstrLabel CALL "main" :: Exit 0 ++
           concat (map (fun f => Finalize (fAssembler f)) (linked results)) /\
    (forall f, f ∈ results -> CallCount f = 0%Z -> f ∉ linked results) /\
    (forall f, f ∈ linked results ->
               f ∈ results /\ ((0 < CallCount f)%Z \/ fName f = "main")).
Proof.
  intros Hcount. unfold Compile.
  destruct (Environment build !! "main"); [| done].
  destruct (receive events []) as [[results|err|msg]|] eqn:Hreceive; try done.
  destruct (WriteExecutable build); simpl; [| done].
  destruct (Verify _); [| done].
  destruct (writeToDisk _ _); [done |].
  intros [= <-]. exists results. split; [done |]. split.
  { by rewrite merge_linked. }
  split.
  - intros g _ Hzero Hin. apply elem_of_linked in Hin as [_ Hne]. done.
  - intros g Hin. apply elem_of_linked in Hin as [Hin Hne]. split; [done |].
    left. destruct (receive_received _ _ _ Hreceive g Hin) as [Hacc | Hev].
    + by apply elem_of_nil in Hacc.
    + specialize (Hcount g Hev). lia.
Qed.

End CompileProperties.

(** ** For loops *)

Lemma bind_Ok {A B} (m : Outcome A) (k : A -> Outcome B) (b : B) :
  m ≫= k = Ok b -> exists a, m = Ok a /\ k a = Ok b.
Proof. destruct m as [a|e|msg]; simpl; [eauto | done | done]. Qed.


Section ForProperties.

Context `{Collaborators}.


(** C8, as the code has it.  Without a range token after [for] the
    statement fails with MissingRange.  With a range token that no token
    precedes, and no operator token in the header, it fails with
    MissingRangeStart.  With a range token that no token follows it fails
    with MissingRangeLimit once the part before the range has been
    compiled: an error of that part comes first. *)
Theorem for_header_errors (keyword : token.Token) (expression : list token.Token)
    (s : State) :
  let rangePos := token.Index expression token.Range in
  let entered := scopesPush (Expect token.Keyword s) in
  (rangePos = (-1)%Z -> ForStart (keyword :: expression) s = Err MissingRange) /\
  (rangePos = 0%Z -> token.Index expression token.Operator = (-1)%Z ->
   ForStart (keyword :: expression) s = Err MissingRangeStart) /\
  (rangePos <> (-1)%Z ->
   drop (Z.to_nat (rangePos + 1)) expression = [] ->
   (forall e, counterRegister expression rangePos entered = Err e ->
              ForStart (keyword :: expression) s = Err e) /\
   (forall reg s1, counterRegister expression rangePos entered = Ok (reg, s1) ->
                   ForStart (keyword :: expression) s = Err MissingRangeLimit)).
Proof.
  intros rangePos entered. unfold ForStart. fold entered. fold rangePos.
  split; [| split].
  - intros ->. done.
  - intros Hzero Hop. rewrite Hzero. simpl.
    unfold counterRegister. rewrite Hop. done.
  - intros Hrange Hlimit. rewrite (proj2 (Z.eqb_neq _ _)) by done. split.
    + intros e He. by rewrite He.
    + intros reg s1 Hs. rewrite Hs. simpl. by rewrite Hlimit.
Qed.

Lemma instructions_CompareRegisterRegister d src a :
  instructions (CompareRegisterRegister d src a) =
  instructions a ++ [InstrRegister2 CMP d src].
Proof. done. Qed.



End ForProperties.

(** ** Running a loop whose bounds are equal *)

Section LoopRun.

Import machine.

Lemma labelPosition_app pre rest name :
  Label name ∉ pre ->
  labelPosition (pre ++ rest) name =
  (fun p => length pre + p) <$> labelPosition rest name.
Proof.
  induction pre as [|i pre IH]; simpl; intros Hn.
  - by destruct (labelPosition rest name).
  - apply not_elem_of_cons in Hn as [Hi Hpre].
    rewrite bool_decide_eq_false_2 by done. rewrite IH by done.
    by destruct (labelPosition rest name).
Qed.

Lemma forLabel_ne n : forLabel n <> forEndLabel n.
Proof.
  unfold forLabel, forEndLabel. intros Heq.
  apply (f_equal String.length) in Heq. rewrite !length_append in Heq.
  simpl in Heq. lia.
Qed.

Lemma executed_step fuel program m m' :
  step program m = Some m' ->
  executed (S fuel) program m = pc m :: executed fuel program m'.
Proof. intros Hs. simpl. by rewrite Hs. Qed.

Lemma executed_stop fuel program m :
  step program m = None -> executed fuel program m = [].
Proof. intros Hs. destruct fuel; simpl; [done | by rewrite Hs]. Qed.

Lemma halts_step fuel program m m' i :
  program !! pc m = Some i -> step program m = Some m' ->
  halts (S fuel) program m = halts fuel program m'.
Proof. intros Hi Hs. simpl. by rewrite Hi, Hs. Qed.

Lemma halts_end fuel program m :
  program !! pc m = None -> halts fuel program m = true.
Proof. intros Hi. destruct fuel; simpl; by rewrite Hi. Qed.


End LoopRun.

Section ForLoopCode.

Context `{Collaborators}.



End ForLoopCode.

(** ** Saving registers around a call, and the types of the arguments *)


Section SaveRestore.

Context `{Collaborators}.

Lemma registersToSave_filter names s saved :
  registersToSave names s = Ok saved ->
  saved = List.filter (liveAcross s) names.
Proof.
  revert saved. induction names as [|name names IH]; simpl; intros saved.
  - by intros [= <-].
  - unfold register.ByName. destruct (bool_decide _); simpl; [| done].
    unfold liveAcross at 1.
    destruct (users s !! name) as [[v| |]|]; try done; [| by apply IH].
    destruct (variables s !! v) as [variable|]; [| done].
    destruct (AliveUntil variable <? instructionEndPosition s)%Z; simpl; [by apply IH |].
    destruct (registersToSave names s) as [saved'| |]; simpl; try done.
    intros [= <-]. f_equal. by apply IH.
Qed.

Lemma instructions_saveRegisters pushRegisters s :
  instructions (assembler (saveRegisters pushRegisters s)) =
  instructions (assembler s) ++ map (InstrRegister1 PUSH) pushRegisters.
Proof.
  unfold saveRegisters. revert s.
  induction pushRegisters as [|r rs IH]; intros s; simpl.
  - by rewrite app_nil_r.
  - rewrite IH. simpl. by rewrite <- app_assoc.
Qed.

Lemma frame_saveRegisters pushRegisters s :
  users (saveRegisters pushRegisters s) = users s /\
  variables (saveRegisters pushRegisters s) = variables s /\
  registers (saveRegisters pushRegisters s) = registers s.
Proof.
  unfold saveRegisters. revert s.
  induction pushRegisters as [|r rs IH]; intros s; simpl; [done |].
  destruct (IH (asm (PushRegister r) s)) as (-> & -> & ->). done.
Qed.

Lemma assembler_freeAll callRegisters s :
  assembler (fold_left (fun s callRegister => Free callRegister s) callRegisters s)
  = assembler s.
Proof.
  revert s. induction callRegisters as [|r rs IH]; intros s; simpl; [done |].
  by rewrite IH.
Qed.

Lemma instructions_AfterCall ref pushedRegisters callRegisters s :
  instructions (assembler (AfterCall ref pushedRegisters callRegisters s)) =
  instructions (assembler s) ++ map (InstrRegister1 POP) (rev pushedRegisters).
Proof.
  unfold AfterCall. rewrite assembler_freeAll.
  generalize (rev pushedRegisters) as pops.
  assert (Hgen : forall pops s0,
    instructions (assembler (fold_left (fun s reg => asm (PopRegister reg) s) pops s0)) =
    instructions (assembler s0) ++ map (InstrRegister1 POP) pops).
  { induction pops as [|r rs IH]; intros s0; simpl.
    - by rewrite app_nil_r.
    - rewrite IH. simpl. by rewrite <- app_assoc. }
  intros pops. rewrite Hgen. by rewrite assembler_alterFunction.
Qed.

Lemma relocate_appends callRegister s s' :
  relocate callRegister s = Ok s' ->
  exists code, instructions (assembler s') = instructions (assembler s) ++ code.
Proof.
  unfold relocate. destruct (FindFree _ _) as [freeRegister|]; [| done].
  destruct (users _ !! callRegister) as [[v| |]|]; try done.
  intros [= <-]. simpl. unfold MoveRegisterRegister, doRegister2.
  destruct (_ && _); simpl; [exists []; by rewrite app_nil_r | eauto].
Qed.

Lemma assembler_UseIgnoringError r owner s :
  assembler (UseIgnoringError r owner s) = assembler s.
Proof. unfold UseIgnoringError, Use. by destruct (IsFree r s). Qed.

Lemma materialise_appends `{!CallLaws} callee callRegister i parameter s typ param s' :
  materialise callee callRegister i parameter s = Ok (typ, param, s') ->
  exists code, instructions (assembler s') = instructions (assembler s) ++ code.
Proof.
  unfold materialise. intros Hb.
  apply bind_Ok in Hb as (s1 & Hfree & Hb).
  apply bind_Ok in Hb as (param' & Hparam & Hb).
  apply bind_Ok in Hb as ([typ' s2] & HE & [= <- <- <-]).
  apply ExpressionToRegister_appends in HE as [code2 HE].
  rewrite assembler_UseIgnoringError in HE.
  destruct (IsFree callRegister s).
  - injection Hfree as <-. eauto.
  - apply relocate_appends in Hfree as [code1 Hfree].
    exists (code1 ++ code2). by rewrite HE, Hfree, app_assoc.
Qed.

Lemma moveParameters_appends `{!CallLaws} callee callRegisters parameters :
  forall i s s',
    moveParameters callee callRegisters i parameters s = Ok s' ->
    exists code, instructions (assembler s') = instructions (assembler s) ++ code.
Proof.
  induction parameters as [|p ps IH]; intros i s s'; simpl.
  - intros [= <-]. exists []. by rewrite app_nil_r.
  - intros Hb. apply bind_Ok in Hb as (callRegister & _ & Hb).
    destruct (alreadyInPlace p callRegister s) as [v|].
    + apply IH in Hb as [code2 Hb].
      destruct (UseVariable_appends v s) as [code1 Hu].
      exists (code1 ++ code2). by rewrite Hb, Hu, app_assoc.
    + apply bind_Ok in Hb as ([[typ param] s1] & Hm & Hb).
      destruct (_ && _); [done |].
      apply IH in Hb as [code2 Hb].
      apply materialise_appends in Hm as [code1 Hm].
      exists (code1 ++ code2). by rewrite Hb, Hm, app_assoc.
Qed.

Lemma moveParameters_Checked callee callRegisters parameters :
  NoParameterCheck callee = false ->
  forall i s s',
    moveParameters callee callRegisters i parameters s = Ok s' ->
    Checked callee callRegisters i parameters s s'.
Proof.
  intros Hcheck. induction parameters as [|p ps IH]; intros i s s'; simpl.
  - intros [= <-]. constructor.
  - intros Hb. apply bind_Ok in Hb as (callRegister & Hreg & Hb).
    unfold index in Hreg. destruct (callRegisters !! i) as [r|] eqn:Hr; [| done].
    injection Hreg as ->.
    destruct (alreadyInPlace p callRegister s) as [v|] eqn:Hskip.
    + eapply Checked_skip; eauto.
    + apply bind_Ok in Hb as ([[typ param] s1] & Hm & Hb).
      rewrite Hcheck in Hb. simpl in Hb.
      destruct (bool_decide (typ = pType param)) eqn:Htyp; simpl in Hb; [| done].
      apply bool_decide_eq_true_1 in Htyp as ->.
      eapply Checked_compiled; eauto.
      unfold materialise in Hm.
      apply bind_Ok in Hm as (s2 & _ & Hm).
      apply bind_Ok in Hm as (param' & Hparam & Hm).
      apply bind_Ok in Hm as ([typ' s3] & _ & [= _ <- _]).
      unfold index in Hparam. by destruct (fParameters callee !! i) as [q|]; [injection Hparam as -> |].
Qed.

End SaveRestore.

Section CallSaves.

Context `{Collaborators}.

Lemma liveAcross_Wait ref s r : liveAcross (Wait ref s) r = liveAcross s r.
Proof.
  unfold liveAcross, Wait.
  by rewrite users_alterFunction, variables_alterFunction,
    instructionEndPosition_alterFunction.
Qed.

Lemma elem_of_saved s names r :
  r ∈ List.filter (liveAcross s) names <->
  r ∈ names /\
  exists v variable,
    users s !! r = Some (UserVariable v) /\ variables s !! v = Some variable /\
    (instructionEndPosition s <= AliveUntil variable)%Z.
Proof.
  rewrite !list_elem_of_In, filter_In. unfold liveAcross.
  split.
  - intros [Hin Hlive]. split; [done |].
    destruct (users s !! r) as [[v| |]|] eqn:Hu; try done.
    destruct (variables s !! v) as [variable|] eqn:Hv; [| done].
    exists v, variable. split; [done |]. split; [done |].
    apply negb_true_iff, Z.ltb_ge in Hlive. lia.
  - intros [Hin (v & variable & -> & -> & Hle)]. split; [done |].
    apply negb_true_iff, Z.ltb_ge. lia.
Qed.

Lemma deref_alterFunction_ne g ref other s :
  ref <> other -> deref ref (alterFunction g other s) = deref ref s.
Proof.
  intros Hne. destruct ref as [k|k], other as [k'|k']; simpl; try done.
  - apply lookup_alter_ne. congruence.
  - apply lookup_alter_ne. congruence.
Qed.

(** Incrementing the caller's side-effect counter does not change the
    clobber set that the callee publishes. *)
Lemma clobberSet_addSideEffects ref caller s :
  clobberSet ref (alterFunction addSideEffects caller s) = clobberSet ref s.
Proof.
  unfold clobberSet, Wait. rewrite !deref_alterFunction.
  destruct (decide (ref = caller)) as [->|Hne].
  - rewrite deref_alterFunction. destruct (deref caller s) as [f|]; [| done].
    simpl. f_equal. unfold publish. simpl. by destruct (completion f).
  - by rewrite deref_alterFunction_ne.
Qed.

Lemma callSequence_code `{!CallLaws} expr functionName ref s expr' s' :
  callSequence expr functionName ref s = Ok (expr', s') ->
  exists callee argumentCode callCode resultCode,
    deref ref (Wait ref s) = Some callee /\
    instructions (assembler s') =
      instructions (assembler s) ++
      map (InstrRegister1 PUSH) (List.filter (liveAcross s) (usedRegisterNames callee)) ++
      argumentCode ++ callCode ++
      map (InstrRegister1 POP)
        (rev (List.filter (liveAcross s) (usedRegisterNames callee))) ++
      resultCode /\
    (callCode = [Instr0 SYSCALL] \/ callCode = [InstrLabel CALL functionName] \/
     exists inlined sb,
       CanInline inlined = true /\
       instructions (assembler (InlineInto inlined sb)) =
         instructions (assembler sb) ++ callCode) /\
    (resultCode = [] \/ exists r rv, resultCode = [InstrRegister2 MOV r rv]).
Proof.
  unfold callSequence. intros Hb.
  apply bind_Ok in Hb as ([[pushRegisters callRegisters] sb] & Hbefore & Hb).
  unfold BeforeCall in Hbefore.
  destruct (deref ref (Wait ref s)) as [callee|] eqn:Hcallee; [| done].
  apply bind_Ok in Hbefore as (saved & Hsaved & Hbefore).
  apply bind_Ok in Hbefore as (sb' & Hmove & [= <- <- <-]).
  apply registersToSave_filter in Hsaved.
  rewrite (filter_ext _ _ (liveAcross_Wait ref s)) in Hsaved. subst saved.
  set (saved := List.filter (liveAcross s) (usedRegisterNames callee)) in *.
  apply moveParameters_appends in Hmove as [argumentCode Hmove].
  rewrite instructions_saveRegisters in Hmove.
  unfold Wait in Hmove. rewrite assembler_alterFunction in Hmove.
  apply bind_Ok in Hb as (callee' & _ & Hb).
  set (sc := if bool_decide (functionName = BuiltinSyscall) then asm Syscall sb'
             else if CanInline callee' then InlineInto callee' sb'
             else asm (assembler.Call functionName) sb') in Hb.
  assert (Hcall : exists callCode,
    instructions (assembler sc) = instructions (assembler sb') ++ callCode /\
    (callCode = [Instr0 SYSCALL] \/ callCode = [InstrLabel CALL functionName] \/
     exists inlined sb,
       CanInline inlined = true /\
       instructions (assembler (InlineInto inlined sb)) =
         instructions (assembler sb) ++ callCode)).
  { subst sc. destruct (bool_decide (functionName = BuiltinSyscall)).
    { exists [Instr0 SYSCALL]. split; [done | by left]. }
    destruct (CanInline callee') eqn:Hinline.
    - destruct (InlineInto_appends callee' sb') as [code Hcode].
      exists code. split; [done |]. right. right. by exists callee', sb'.
    - exists [InstrLabel CALL functionName]. split; [done | right; by left]. }
  destruct Hcall as (callCode & Hcall & Hkind).
  set (sa := AfterCall ref _ _ sc) in Hb.
  assert (Hafter : instructions (assembler sa) =
                   instructions (assembler sc) ++ map (InstrRegister1 POP) (rev saved))
    by apply instructions_AfterCall.
  apply bind_Ok in Hb as (rv & _ & Hb).
  apply bind_Ok in Hb as (su & Huse & Hb).
  assert (Hsu : assembler su = assembler sa).
  { unfold Use in Huse. destruct (IsFree rv sa); [| done]. by injection Huse as <-. }
  set (sr := if bool_decide (ExprRegister expr = Some rv) then su else _) in Hb.
  assert (Hresult : exists resultCode,
    instructions (assembler sr) = instructions (assembler su) ++ resultCode /\
    (resultCode = [] \/ exists r rv, resultCode = [InstrRegister2 MOV r rv])).
  { subst sr. destruct (bool_decide (ExprRegister expr = Some rv)).
    - exists []. split; [by rewrite app_nil_r | by left].
    - destruct (ExprRegister expr) as [r|]; simpl.
      + unfold MoveRegisterRegister, doRegister2. destruct (_ && _); simpl.
        * exists []. split; [by rewrite app_nil_r | by left].
        * exists [InstrRegister2 MOV r rv]. split; [done |]. right. eauto.
      + exists []. split; [by rewrite app_nil_r | by left]. }
  destruct Hresult as (resultCode & Hresult & Hshape).
  assert (Hs' : s' = sr).
  { apply bind_Ok in Hb as (callee'' & _ & Hb).
    destruct (HasReturnValue callee'').
    - apply bind_Ok in Hb as (t & _ & Hb). by injection Hb as _ <-.
    - by injection Hb as _ <-. }
  subst s'. exists callee, argumentCode, callCode, resultCode.
  split; [done |]. split; [| done].
  rewrite Hresult, Hsu, Hafter, Hcall, Hmove. by rewrite <- !app_assoc.
Qed.

Lemma storeBuiltin_code `{!CallLaws} parameters s s' :
  storeBuiltin parameters s = Ok s' ->
  exists argumentCode reg offset byteCount value,
    instructions (assembler s') =
      instructions (assembler s) ++ argumentCode ++
      [InstrMemoryNumber STORE reg offset byteCount value].
Proof.
  unfold storeBuiltin. intros Hb.
  apply bind_Ok in Hb as (p0 & _ & Hb). apply bind_Ok in Hb as (p1 & _ & Hb).
  apply bind_Ok in Hb as (p2 & _ & Hb). apply bind_Ok in Hb as (p3 & _ & Hb).
  destruct (scopesGet (scopes s) _) as [v|]; [| done].
  destruct (variables (UseVariable v s) !! v ≫= vRegister) as [reg|]; [| done].
  injection Hb as <-.
  destruct (UseVariable_appends v s) as [code Hcode].
  exists code, reg. eexists _, _, _. simpl. rewrite Hcode. by rewrite <- app_assoc.
Qed.

(** C1, as the code has it.  The builtin store clobbers no register (its
    code writes none).  A call site other than one of the builtin print,
    whose code is emitted directly, appends: a push of every register of
    the callee's clobber set that is held by a variable whose AliveUntil
    is not before the end position of the call statement, in the order in
    which the clobber set is visited; the code of the arguments; the call
    (for the builtin store, its store instruction); the pops of the same
    registers in reverse order.  A register that is free, or whose
    variable's AliveUntil is before that end position, is not among them;
    a variable whose AliveUntil equals the end position is still saved.
    A function of the program that has the name of a builtin is called
    like any other. *)
Theorem call_saves_live_registers `{!CallLaws} (expr expr' : Expression)
    (s s' : State) :
  let functionName := PolymorphName (token.text (Token expr)) (length (Children expr)) in
  (forall clobbered,
     clobberSet (BuiltinFunction BuiltinStore) s = Some clobbered -> clobbered = []) ->
  CallExpression expr s = Ok (expr', s') ->
  exists ref isBuiltin clobbered,
    let saved := List.filter (liveAcross s) clobbered in
    resolve functionName s = Some (ref, isBuiltin) /\
    clobberSet ref s = Some clobbered /\
    (forall r,
       r ∈ saved <->
       r ∈ clobbered /\
       exists v variable,
         users s !! r = Some (UserVariable v) /\ variables s !! v = Some variable /\
         (instructionEndPosition s <= AliveUntil variable)%Z) /\
    ((isBuiltin = true /\ functionName = BuiltinPrint) \/
     exists argumentCode callCode resultCode,
       instructions (assembler s') =
         instructions (assembler s) ++
         map (InstrRegister1 PUSH) saved ++ argumentCode ++ callCode ++
         map (InstrRegister1 POP) (rev saved) ++ resultCode /\
       (callCode = [Instr0 SYSCALL] \/ callCode = [InstrLabel CALL functionName] \/
        (exists inlined sb,
           CanInline inlined = true /\
           instructions (assembler (InlineInto inlined sb)) =
             instructions (assembler sb) ++ callCode) \/
        (isBuiltin = true /\ functionName = BuiltinStore /\
         exists reg offset byteCount value,
           callCode = [InstrMemoryNumber STORE reg offset byteCount value])) /\
       (resultCode = [] \/ exists r rv, resultCode = [InstrRegister2 MOV r rv])).
Proof.
  intros functionName Hstoreset. unfold CallExpression. fold functionName.
  destruct (resolve functionName s) as [[ref isBuiltin]|] eqn:Hresolve; [| done].
  intros Hb. apply bind_Ok in Hb as (callee0 & Hcallee0 & Hb).
  destruct (deref ref s) as [callee0'|] eqn:Hderef; [| done].
  injection Hcallee0 as ->.
  set (s1 := if (0 <? SideEffects callee0)%Z then _ else s) in Hb.
  destruct (_ && _) in Hb; [done |].
  assert (Hframe : assembler s1 = assembler s /\ users s1 = users s /\
                   variables s1 = variables s /\
                   instructionEndPosition s1 = instructionEndPosition s /\
                   clobberSet ref s1 = clobberSet ref s).
  { subst s1. destruct (0 <? SideEffects callee0)%Z; [| done].
    by rewrite assembler_alterFunction, users_alterFunction,
      variables_alterFunction, instructionEndPosition_alterFunction,
      clobberSet_addSideEffects. }
  destruct Hframe as (Hasm & Husers & Hvars & Hend & Hclobber).
  assert (Hset : clobberSet ref s = Some (usedRegisterNames (publish callee0))).
  { unfold clobberSet, Wait. by rewrite deref_alterFunction, Hderef. }
  assert (Hbuiltin : isBuiltin = true -> ref = BuiltinFunction functionName).
  { intros ->. unfold resolve in Hresolve.
    destruct (Functions s !! functionName); [done |].
    destruct (BuiltinFunctions s !! functionName); [| done].
    by injection Hresolve as <-. }
  exists ref, isBuiltin, (usedRegisterNames (publish callee0)).
  cbv zeta. split; [done |]. split; [done |]. split; [apply elem_of_saved |].
  destruct (isBuiltin && bool_decide (functionName = BuiltinPrint)) eqn:Hprint.
  { apply andb_true_iff in Hprint as [-> Hprint%bool_decide_eq_true_1]. by left. }
  right.
  destruct (isBuiltin && bool_decide (functionName = BuiltinStore)) eqn:Hstore.
  { apply andb_true_iff in Hstore as [-> Hstore%bool_decide_eq_true_1].
    rewrite (Hbuiltin eq_refl), Hstore in Hset.
    apply Hstoreset in Hset. rewrite Hset. simpl.
    apply bind_Ok in Hb as (s2 & Hb & [= _ <-]).
    apply storeBuiltin_code in Hb
      as (argumentCode & reg & offset & byteCount & value & Hcode).
    exists argumentCode, [InstrMemoryNumber STORE reg offset byteCount value], [].
    split; [by rewrite Hcode, Hasm, app_nil_r |]. split; [| by left].
    right. right. right. split; [done |]. split; [done |]. eauto. }
  apply callSequence_code in Hb
    as (callee & argumentCode & callCode & resultCode & Hcallee & Hcode & Hcall & Hres).
  assert (Hlive : forall r, liveAcross s1 r = liveAcross s r).
  { intros r. unfold liveAcross. by rewrite Husers, Hvars, Hend. }
  rewrite (filter_ext _ _ Hlive) in Hcode. rewrite Hasm in Hcode.
  assert (Hsame : usedRegisterNames callee = usedRegisterNames (publish callee0)).
  { assert (Hc : clobberSet ref s1 = Some (usedRegisterNames callee)).
    { unfold clobberSet. by rewrite Hcallee. }
    rewrite Hclobber, Hset in Hc. by injection Hc as ->. }
  rewrite Hsame in Hcode.
  exists argumentCode, callCode, resultCode.
  split; [done |]. split; [| done].
  destruct Hcall as [-> | [-> | Hinline]]; [by left | right; by left |].
  right. right. by left.
Qed.

End CallSaves.

(** ** The concrete environment obeys the laws *)

Section ExampleLaws.

Import example.

Lemma leafToRegister_appends e r s typ s' :
  leafToRegister e r s = Ok (typ, s') ->
  forLoop s' = forLoop s /\
  exists code, instructions (assembler s') = instructions (assembler s) ++ code.
Proof.
  unfold leafToRegister.
  destruct (token.kind (Token e)); try done.
  - destruct (scopesGet _ _ ≫= _) as [variable|]; [| done].
    destruct (vRegister variable) as [source|]; [| done].
    intros [= _ <-]. split; [done |]. simpl.
    unfold MoveRegisterRegister, doRegister2. destruct (_ && _); simpl.
    + exists []. by rewrite app_nil_r.
    + eauto.
  - intros [= _ <-]. split; [done |]. simpl. eauto.
  - destruct (AddString _ _) as [address a] eqn:Hadd.
    apply AddString_interned in Hadd as [_ Hins].
    intros [= _ <-]. split; [done |]. simpl. rewrite Hins. eauto.
Qed.

Lemma tokensToRegister_appends tokens target s r s' :
  tokensToRegister tokens target s = Ok (r, s') ->
  forLoop s' = forLoop s /\
  exists code, instructions (assembler s') = instructions (assembler s) ++ code.
Proof.
  unfold tokensToRegister.
  destruct tokens as [|t [|]]; try done. destruct target as [r0|]; [| done].
  intros Hb. apply bind_Ok in Hb as ([typ s1] & Hleaf & [= _ <-]).
  apply leafToRegister_appends in Hleaf as [Hfor Hcode].
  unfold Use in *. destruct (IsFree r0 s); done.
Qed.

Lemma assignVariable_appends tokens s v s' :
  assignVariable tokens s = Ok (v, s') ->
  forLoop s' = forLoop s /\
  exists code, instructions (assembler s') = instructions (assembler s) ++ code.
Proof.
  unfold assignVariable.
  destruct tokens as [|name [|op [|value [|]]]]; try done.
  destruct (FindFree _ _) as [r|]; [| done].
  intros [= _ <-]. split; [done |]. simpl. eauto.
Qed.

Lemma leaves_ForLaws : ForLaws (H := leaves).
Proof.
  split; simpl.
  - done.
  - apply tokensToRegister_appends.
  - apply assignVariable_appends.
  - unfold popScope. by intros s s' [= <-].
  - done.
Qed.

Lemma leaves_CallLaws : CallLaws (H := leaves).
Proof.
  split; simpl.
  - intros e r s typ s'. destruct (IsLeaf e); [| done].
    intros Hleaf. by apply leafToRegister_appends in Hleaf as [_ ?].
  - intros v s. exists []. by rewrite app_nil_r.
  - intros callee s. unfold inlineInto. simpl. eauto.
Qed.

Lemma leaves_noParameterCount e r st :
  noParameterCount (ExpressionToRegister (Collaborators := leaves) e r st).
Proof.
  simpl. destruct (IsLeaf e); [| by intros ???].
  unfold leafToRegister. destruct (token.kind (Token e)); try by intros ???.
  - destruct (scopesGet _ _ ≫= _) as [variable|]; [| by intros ???].
    destruct (vRegister variable); by intros ???.
  - destruct (AddString _ _). by intros ???.
Qed.

End ExampleLaws.

(** ** The types of the arguments *)

Section ArgumentTypes.

Context `{Collaborators}.

Lemma Checked_moveParameters callee callRegisters prefix :
  NoParameterCheck callee = false ->
  forall i s si rest,
    Checked callee callRegisters i prefix s si ->
    moveParameters callee callRegisters i (prefix ++ rest) s =
    moveParameters callee callRegisters (i + length prefix) rest si.
Proof.
  intros Hcheck i s si rest Hchecked.
  induction Hchecked as [i s|i p ps s s' r v Hr Hskip _ IH
                         |i p ps s s1 s' r param Hr Hskip Hm Hparam _ IH]; simpl.
  - by rewrite Nat.add_0_r.
  - unfold index. rewrite Hr. simpl. rewrite Hskip.
    rewrite IH. f_equal. lia.
  - unfold index. rewrite Hr. simpl. rewrite Hskip, Hm. simpl.
    rewrite Hcheck. rewrite (bool_decide_eq_true_2 (pType param = pType param)) by done.
    simpl. rewrite IH. f_equal. lia.
Qed.

Lemma Compiled_moveParameters callee callRegisters parameters :
  NoParameterCheck callee = true ->
  forall i s s',
    Compiled callee callRegisters i parameters s s' ->
    moveParameters callee callRegisters i parameters s = Ok s'.
Proof.
  intros Hout i s s' Hcompiled.
  induction Hcompiled as [i s|i p ps s s' r v Hr Hskip _ IH
                          |i p ps s s1 s' r typ param Hr Hskip Hm _ IH]; simpl.
  - done.
  - unfold index. rewrite Hr. simpl. by rewrite Hskip.
  - unfold index. rewrite Hr. simpl. rewrite Hskip, Hm. simpl.
    by rewrite Hout.
Qed.

Lemma invalidTypeOnlyFrom_moveParameters arguments callee callRegisters parameters :
  NoParameterCheck callee = true ->
  (forall e, e ∈ parameters -> e ∈ arguments) ->
  forall i s,
    invalidTypeOnlyFrom arguments (moveParameters callee callRegisters i parameters s).
Proof.
  intros Hout. induction parameters as [|p ps IH]; intros Hsub i s; simpl; [by intros ??? |].
  assert (Hps : forall e, e ∈ ps -> e ∈ arguments).
  { intros e He. apply Hsub. apply elem_of_cons. by right. }
  unfold index. destruct (callRegisters !! i) as [callRegister|]; [| by intros ???].
  simpl. destruct (alreadyInPlace p callRegister s); [by apply IH |].
  unfold materialise.
  destruct (if IsFree callRegister s then Ok s else relocate callRegister s)
    as [s1|e|msg] eqn:Hfree; simpl.
  2:{ intros typ expected name [= ->]. destruct (IsFree callRegister s); [done |].
      unfold relocate in Hfree. destruct (FindFree _ _); [| done].
      by destruct (users _ !! callRegister) as [[| |]|]. }
  2:{ by intros ???. }
  unfold index. destruct (fParameters callee !! i) as [param|]; [| by intros ???]. simpl.
  destruct (ExpressionToRegister p callRegister _) as [[typ s2]|e|msg] eqn:HE; simpl.
  - rewrite Hout. simpl. by apply IH.
  - intros typ expected name [= ->]. eexists p, _, _. split; [| exact HE].
    apply Hsub. apply elem_of_cons. by left.
  - by intros ???.
Qed.

Lemma registersToSave_no_error names s e : registersToSave names s <> Err e.
Proof.
  induction names as [|name names IH]; simpl; [done |].
  destruct (register.ByName _ _); [| done].
  destruct (users s !! _) as [[v| |]|]; try done.
  destruct (variables s !! v); [| done].
  destruct (_ <? _)%Z; [done |].
  by destruct (registersToSave names s).
Qed.

(** An error of BeforeCall is the error of the call. *)
Lemma CallExpression_BeforeCall_error expr s ref isBuiltin callee0 e :
  let functionName := PolymorphName (token.text (Token expr)) (length (Children expr)) in
  let entered := if (0 <? SideEffects callee0)%Z
                 then alterFunction addSideEffects (function s) s else s in
  resolve functionName s = Some (ref, isBuiltin) ->
  deref ref s = Some callee0 ->
  NoParameterCheck callee0 = true \/
  length (Children expr) = length (fParameters callee0) ->
  isBuiltin = false \/ (functionName <> BuiltinPrint /\ functionName <> BuiltinStore) ->
  BeforeCall ref (Children expr) entered = Err e ->
  CallExpression expr s = Err e.
Proof.
  intros functionName entered Hresolve Hderef Hcount Hbranch Hbefore.
  unfold CallExpression. fold functionName. rewrite Hresolve, Hderef. simpl.
  fold entered.
  assert (Hcheck : negb (NoParameterCheck callee0)
                   && negb (bool_decide (length (Children expr) = length (fParameters callee0)))
                   = false).
  { destruct Hcount as [-> | ->]; simpl; [done |].
    rewrite bool_decide_eq_true_2 by done. by rewrite andb_false_r. }
  rewrite Hcheck.
  assert (Hprint : isBuiltin && bool_decide (functionName = BuiltinPrint) = false).
  { destruct Hbranch as [-> | [Hp _]]; [done |].
    rewrite (bool_decide_eq_false_2 _ Hp). apply andb_false_r. }
  assert (Hstore : isBuiltin && bool_decide (functionName = BuiltinStore) = false).
  { destruct Hbranch as [-> | [_ Hs]]; [done |].
    rewrite (bool_decide_eq_false_2 _ Hs). apply andb_false_r. }
  rewrite Hprint, Hstore. unfold callSequence. by rewrite Hbefore.
Qed.

(** C6, as the code has it.  BeforeCall, in the state in which the callee
    has been waited for and the registers to save have been pushed, goes
    through the arguments.  For a callee that does not opt out of parameter
    checking: when BeforeCall succeeds, every argument either was found in
    its call register already or was compiled into its call register with
    the declared type of its parameter; and the first argument that is
    compiled to another type makes BeforeCall fail with an InvalidType
    error that carries the type found, the declared type and the
    parameter's name.  For a callee that opts out, as the builtin syscall
    does, BeforeCall succeeds as soon as every argument is in place or
    compiles, whatever the types, and an InvalidType error can only be the
    error of the compilation of one of the arguments.  An error of
    BeforeCall is the error of the call. *)
Theorem argument_types_checked (expr : Expression) (s : State) (ref : FunctionRef)
    (callee : FunctionT) (saved : list register.Name) :
  let parameters := Children expr in
  let pushed := saveRegisters saved (Wait ref s) in
  let callRegisters := if bool_decide (fName callee = BuiltinSyscall)
                       then register.Syscall (registers pushed)
                       else register.Call (registers pushed) in
  deref ref (Wait ref s) = Some callee ->
  registersToSave (usedRegisterNames callee) (Wait ref s) = Ok saved ->
  (NoParameterCheck callee = false ->
   (forall result,
      BeforeCall ref parameters s = Ok result ->
      exists moved,
        result = (saved, callRegisters, moved) /\
        Checked callee callRegisters 0 parameters pushed moved) /\
   (forall prefix parameter rest si callRegister typ param s1,
      parameters = prefix ++ parameter :: rest ->
      Checked callee callRegisters 0 prefix pushed si ->
      callRegisters !! length prefix = Some callRegister ->
      alreadyInPlace parameter callRegister si = None ->
      materialise callee callRegister (length prefix) parameter si = Ok (typ, param, s1) ->
      typ <> pType param ->
      BeforeCall ref parameters s =
      Err (InvalidType (spec.String typ) (spec.String (pType param)) (pName param)))) /\
  (NoParameterCheck callee = true ->
   (forall moved,
      Compiled callee callRegisters 0 parameters pushed moved ->
      BeforeCall ref parameters s = Ok (saved, callRegisters, moved)) /\
   invalidTypeOnlyFrom parameters (BeforeCall ref parameters s)) /\
  (forall caller isBuiltin callee0 e,
     let functionName := PolymorphName (token.text (Token expr)) (length parameters) in
     resolve functionName caller = Some (ref, isBuiltin) ->
     deref ref caller = Some callee0 ->
     NoParameterCheck callee0 = true \/ length parameters = length (fParameters callee0) ->
     isBuiltin = false \/ (functionName <> BuiltinPrint /\ functionName <> BuiltinStore) ->
     s = (if (0 <? SideEffects callee0)%Z
          then alterFunction addSideEffects (function caller) caller else caller) ->
     BeforeCall ref parameters s = Err e ->
     CallExpression expr caller = Err e).
Proof.
  intros parameters pushed callRegisters Hcallee Hsaved.
  assert (Hbefore : BeforeCall ref parameters s =
                    (moved ← moveParameters callee callRegisters 0 parameters pushed;
                     Ok (saved, callRegisters, moved))).
  { unfold BeforeCall. rewrite Hcallee, Hsaved. done. }
  split; [| split].
  - intros Hcheck. split.
    + intros result Hok. rewrite Hbefore in Hok.
      apply bind_Ok in Hok as (moved & Hmove & [= <-]).
      exists moved. split; [done |]. by apply moveParameters_Checked.
    + intros prefix parameter rest si callRegister typ param s1
        Hparameters Hchecked Hr Hskip Hm Htyp.
      rewrite Hbefore, Hparameters.
      rewrite (Checked_moveParameters _ _ _ Hcheck _ _ _ _ Hchecked). simpl.
      unfold index. rewrite Hr. simpl. rewrite Hskip, Hm. simpl.
      rewrite Hcheck. by rewrite (bool_decide_eq_false_2 _ Htyp).
  - intros Hout. split.
    + intros moved Hcompiled. rewrite Hbefore.
      by rewrite (Compiled_moveParameters _ _ _ Hout _ _ _ Hcompiled).
    + rewrite Hbefore. intros typ expected name Herr.
      destruct (moveParameters callee callRegisters 0 parameters pushed)
        as [moved|e|msg] eqn:Hmove; simpl in Herr; [done | | done].
      injection Herr as ->.
      by apply (invalidTypeOnlyFrom_moveParameters parameters callee callRegisters
                  parameters Hout (fun e He => He) 0 pushed).
  - intros caller isBuiltin callee0 e functionName Hresolve Hderef Hcount Hbranch -> Herr.
    by apply (CallExpression_BeforeCall_error expr caller ref isBuiltin callee0 e).
Qed.

End ArgumentTypes.

(** ** Concrete runs *)

Section Runs.

Import example.
#[local] Existing Instance leaves.
#[local] Existing Instance world.
#[local] Existing Instance leaves_ForLaws.
#[local] Existing Instance leaves_CallLaws.

Lemma print_emits_write_witness :
  exists s' address,
    CallExpression (call "print" [text EmptyString]) (initial program)
      = Ok (call "print" [text EmptyString], s') /\
    offsetOf (strings (assembler s')) (EmptyString +:+ newline) = Some address /\
    instructions (assembler s') =
      instructions (assembler (initial program)) ++
      [InstrRegisterNumber MOV "rax" syscall.Write;
       InstrRegisterNumber MOV "rdi" 1;
       InstrRegisterAddress MOV "rsi" address;
       InstrRegisterNumber MOV "rdx" 1;
       Instr0 SYSCALL].
Proof.
  apply (print_emits_write (H := leaves) (call "print" [text EmptyString]) (text EmptyString)
           (initial program) printFunction "rax" "rdi" "rsi" "rdx" ["r10"; "r8"; "r9"]);
    vm_compute; reflexivity.
Defined.

Lemma parameter_count_check_witness :
  CallExpression (call "f" [number "1"; number "2"]) (initial program)
    = Err (UnknownFunction "f|2" EmptyString) /\
  CallExpression (call "syscall" [number "60"; number "0"]) (initial redefined)
    = Err (ParameterCount "syscall" 2 1) /\
  noParameterCount
    (CallExpression (call "syscall" [number "60"; number "0"]) (initial program)).
Proof.
  split; [| split].
  - destruct (parameter_count_check (H := leaves)
                (call "f" [number "1"; number "2"]) (initial program)) as [Hmiss _].
    apply Hmiss. vm_compute. reflexivity.
  - destruct (parameter_count_check (H := leaves)
                (call "syscall" [number "60"; number "0"]) (initial redefined))
      as [_ Hfound].
    destruct (Hfound (UserFunction "syscall") false
                (emptyFunction "syscall" [int64Param "a"] [])) as [Hcount _];
      [vm_compute; reflexivity | vm_compute; reflexivity |].
    apply Hcount; vm_compute; [reflexivity | discriminate].
  - destruct (parameter_count_check (H := leaves)
                (call "syscall" [number "60"; number "0"]) (initial program))
      as [_ Hfound].
    destruct (Hfound (BuiltinFunction "syscall") true syscallFunction) as [_ Hsyscall];
      [vm_compute; reflexivity | vm_compute; reflexivity |].
    intros name given required Herror.
    destruct (Hsyscall eq_refl name given required Herror) as (e & r & st & _ & He).
    by eapply leaves_noParameterCount.
Defined.

(** The call [syscall(60, 0)] has two arguments, syscall declares seven
    parameters: the call compiles, to the loads of the two arguments and
    the syscall instruction.  The same call against a table in which
    syscall does not opt out fails on the parameter count. *)
Lemma syscall_count_is_not_checked :
  length (fParameters syscallFunction) = 7 /\
  (exists expr' s',
     CallExpression (call "syscall" [number "60"; number "0"]) (initial program)
       = Ok (expr', s') /\
     instructions (assembler s') =
       [InstrRegisterNumber MOV "rax" 60; InstrRegisterNumber MOV "rdi" 0;
        Instr0 SYSCALL]) /\
  CallExpression (call "syscall" [number "60"; number "0"]) withoutOptOut
    = Err (ParameterCount "syscall" 2 7).
Proof.
  split; [reflexivity |]. split.
  - eexists _, _. split; vm_compute; reflexivity.
  - vm_compute. reflexivity.
Qed.

Lemma store_unbound_variable_panics_witness :
  let expr := call "store" [leaf token.Identifier "x"; number "0"; number "1"; number "5"] in
  CallExpression expr (initial program) = Panic "nil pointer dereference" /\
  forall name, CallExpression expr (initial program) <> Err (UnknownIdentifier name).
Proof.
  apply (store_unbound_variable_panics (H := leaves)
           (call "store" [leaf token.Identifier "x"; number "0"; number "1"; number "5"])
           (leaf token.Identifier "x") (number "0") (number "1") (number "5")
           (initial program) storeFunction);
    vm_compute; first [reflexivity | discriminate | (right; reflexivity)].
Defined.

Lemma compile_links_called_functions_witness :
  exists results,
    Build.receive exampleEvents [] = Some (Ok results) /\
    InstrLabel CALL "main" :: Build.Exit 0 ++ codeOfA ++ codeOfMain =
      InstrLabel CALL "main" :: Build.Exit 0 ++
      concat (map (fun f => Build.Finalize (fAssembler f)) (Build.linked results)) /\
    (forall f, f ∈ results -> CallCount f = 0%Z -> f ∉ Build.linked results) /\
    (forall f, f ∈ Build.linked results ->
               f ∈ results /\ ((0 < CallCount f)%Z \/ fName f = "main")).
Proof.
  apply (compile_links_called_functions (H := world) exampleBuild exampleEvents).
  - intros f Hin.
    repeat (apply elem_of_cons in Hin as [Hin | Hin];
            [try discriminate Hin; injection Hin as ->; simpl; lia |]).
    by apply elem_of_nil in Hin.
  - vm_compute. reflexivity.
Defined.


(** [for 0..0] with a body of one call, compiled and run: the call at
    position 5 is not executed. *)
Lemma for_zero_to_zero_skips_body :
  instructions (assembler afterForEnd) =
    forCode [InstrRegisterNumber MOV "rbx" 0] [InstrRegisterNumber MOV "r12" 0]
      loopBody "rbx" "r12" 1 /\
  machine.executed 100 (instructions (assembler afterForEnd)) machine.start
    = [0; 1; 2; 3; 4; 8] /\
  machine.halts 100 (instructions (assembler afterForEnd)) machine.start = true.
Proof. split; [| split]; vm_compute; reflexivity. Qed.

(** [for 0..3] and [for i = 0..3], with a body of one load, compiled and
    run: START is loaded into the counter, LIMIT into the temporary
    register, and the load of the body at position 5 is executed three
    times. *)
Lemma for_zero_to_three_runs_body_thrice :
  let body := [InstrRegisterNumber MOV "rax" 1] in
  let compiled header :=
    instructions (assembler (forStatement header body (initial program))) in
  compiled [tok token.Number "0"; tok token.Range ".."; tok token.Number "3"] =
    forCode [InstrRegisterNumber MOV "rbx" 0] [InstrRegisterNumber MOV "r12" 3]
      body "rbx" "r12" 1 /\
  compiled [tok token.Identifier "i"; tok token.Operator "="; tok token.Number "0";
            tok token.Range ".."; tok token.Number "3"] =
    forCode [InstrRegisterNumber MOV "rbx" 0] [InstrRegisterNumber MOV "r12" 3]
      body "rbx" "r12" 1 /\
  machine.executed 100
    (compiled [tok token.Number "0"; tok token.Range ".."; tok token.Number "3"])
    machine.start
    = [0; 1; 2; 3; 4; 5; 6; 7; 1; 2; 3; 4; 5; 6; 7; 1; 2; 3; 4; 5; 6; 7;
       1; 2; 3; 4; 8] /\
  machine.halts 100
    (compiled [tok token.Number "0"; tok token.Range ".."; tok token.Number "3"])
    machine.start = true.
Proof. do 3 (split; [vm_compute; reflexivity |]). vm_compute. reflexivity. Qed.

(** A loop in the body of a loop: the inner statement has its own labels,
    for_2 and for_2_end, and the code of the outer statement is the code
    of C4 with the inner statement as its body. *)
Lemma nested_for_statements :
  let inner := forCode [InstrRegisterNumber MOV "r13" 0] [InstrRegisterNumber MOV "r14" 2]
                 [InstrRegisterNumber MOV "rax" 1] "r13" "r14" 2 in
  instructions (assembler nestedLoops) =
    forCode [InstrRegisterNumber MOV "rbx" 0] [InstrRegisterNumber MOV "r12" 3]
      inner "rbx" "r12" 1 /\
  forLoop nestedLoops = {| forCounter := 2; stack := [] |}.
Proof. split; vm_compute; reflexivity. Qed.

Lemma for_header_errors_witness :
  ForStart [tok token.Keyword "for"; tok token.Number "0"] (initial program)
    = Err MissingRange /\
  ForStart [tok token.Keyword "for"; tok token.Range ".."; tok token.Number "3"]
    (initial program) = Err MissingRangeStart /\
  ForStart [tok token.Keyword "for"; tok token.Number "0"; tok token.Range ".."]
    (initial program) = Err MissingRangeLimit.
Proof.
  split; [| split].
  - destruct (for_header_errors (H := leaves) (tok token.Keyword "for")
                [tok token.Number "0"] (initial program)) as (Hrange & _ & _).
    apply Hrange. reflexivity.
  - destruct (for_header_errors (H := leaves) (tok token.Keyword "for")
                [tok token.Range ".."; tok token.Number "3"] (initial program))
      as (_ & Hstart & _).
    apply Hstart; reflexivity.
  - destruct (for_header_errors (H := leaves) (tok token.Keyword "for")
                [tok token.Number "0"; tok token.Range ".."] (initial program))
      as (_ & _ & Hlimit).
    destruct Hlimit as [_ Hlimit]; [vm_compute; discriminate | reflexivity |].
    eapply Hlimit. vm_compute. reflexivity.
Defined.

(** C8 as stated fails: no token follows the range of [for 0..], but with
    every register of the general pool in use the statement fails with
    ExceededMaxVariables; and nothing follows the range of [for ..], which
    fails with MissingRangeStart. *)
Lemma for_header_errors_counterexample :
  let header := [tok token.Number "0"; tok token.Range ".."] in
  token.Index header token.Range = 1%Z /\
  drop (Z.to_nat (token.Index header token.Range + 1)) header = [] /\
  ForStart (tok token.Keyword "for" :: header) allGeneralInUse
    = Err ExceededMaxVariables /\
  ForStart (tok token.Keyword "for" :: header) allGeneralInUse
    <> Err MissingRangeLimit /\
  ForStart [tok token.Keyword "for"; tok token.Range ".."] (initial program)
    = Err MissingRangeStart.
Proof.
  do 3 (split; [vm_compute; reflexivity |]).
  split; vm_compute; [discriminate | reflexivity].
Qed.

Lemma call_saves_live_registers_witness :
  let s := withVariableInRbx 9 in
  (exists ref isBuiltin clobbered,
     let saved := List.filter (liveAcross s) clobbered in
     resolve "h|0" s = Some (ref, isBuiltin) /\
     clobberSet ref s = Some clobbered /\
     (forall r,
        r ∈ saved <->
        r ∈ clobbered /\
        exists v variable,
          users s !! r = Some (UserVariable v) /\ variables s !! v = Some variable /\
          (instructionEndPosition s <= AliveUntil variable)%Z) /\
     ((isBuiltin = true /\ "h|0" = BuiltinPrint) \/
      exists argumentCode callCode resultCode,
        instructions (assembler (afterCallOfH 9)) =
          instructions (assembler s) ++
          map (InstrRegister1 PUSH) saved ++ argumentCode ++ callCode ++
          map (InstrRegister1 POP) (rev saved) ++ resultCode /\
        (callCode = [Instr0 SYSCALL] \/ callCode = [InstrLabel CALL "h|0"] \/
         (exists inlined sb,
            CanInline inlined = true /\
            instructions (assembler (InlineInto inlined sb)) =
              instructions (assembler sb) ++ callCode) \/
         (isBuiltin = true /\ "h|0" = BuiltinStore /\
          exists reg offset byteCount value,
            callCode = [InstrMemoryNumber STORE reg offset byteCount value])) /\
        (resultCode = [] \/ exists r rv, resultCode = [InstrRegister2 MOV r rv]))) /\
  (exists ref isBuiltin clobbered,
     let saved := List.filter (liveAcross s) clobbered in
     resolve "store|4" s = Some (ref, isBuiltin) /\
     clobberSet ref s = Some clobbered /\
     (forall r,
        r ∈ saved <->
        r ∈ clobbered /\
        exists v variable,
          users s !! r = Some (UserVariable v) /\ variables s !! v = Some variable /\
          (instructionEndPosition s <= AliveUntil variable)%Z) /\
     ((isBuiltin = true /\ "store|4" = BuiltinPrint) \/
      exists argumentCode callCode resultCode,
        instructions (assembler (snd afterStoreIntoX)) =
          instructions (assembler s) ++
          map (InstrRegister1 PUSH) saved ++ argumentCode ++ callCode ++
          map (InstrRegister1 POP) (rev saved) ++ resultCode /\
        (callCode = [Instr0 SYSCALL] \/ callCode = [InstrLabel CALL "store|4"] \/
         (exists inlined sb,
            CanInline inlined = true /\
            instructions (assembler (InlineInto inlined sb)) =
              instructions (assembler sb) ++ callCode) \/
         (isBuiltin = true /\ "store|4" = BuiltinStore /\
          exists reg offset byteCount value,
            callCode = [InstrMemoryNumber STORE reg offset byteCount value])) /\
        (resultCode = [] \/ exists r rv, resultCode = [InstrRegister2 MOV r rv]))).
Proof.
  intros s. split.
  - apply (call_saves_live_registers (H := leaves) (call "h" []) (call "h" [])
             (withVariableInRbx 9) (afterCallOfH 9)).
    + intros clobbered [= <-]. reflexivity.
    + vm_compute. reflexivity.
  - apply (call_saves_live_registers (H := leaves) storeIntoX (fst afterStoreIntoX)
             (withVariableInRbx 9) (snd afterStoreIntoX)).
    + intros clobbered [= <-]. reflexivity.
    + vm_compute. reflexivity.
Defined.

(** The call of h, the store into x and a call of a function of the
    program that has the name of the builtin print, run: rbx, which h
    clobbers and in which x lives, is pushed and popped around the call of
    h; the store into x is one instruction; and the program's own print is
    called like any other function, with rbx saved. *)
Lemma registers_saved_around_calls :
  instructions (assembler (afterCallOfH 9)) =
    [InstrRegister1 PUSH "rbx"; InstrLabel CALL "h|0"; InstrRegister1 POP "rbx"] /\
  instructions (assembler (snd afterStoreIntoX)) =
    [InstrMemoryNumber STORE "rbx" 0 1 5] /\
  (let s := withFunctions
              {[ "main|0" := main;
                 "print|1" := {| fName := "print|1";
                                 fParameters := [{| pName := "text"; pType := spec.Text |}];
                                 ReturnTypes := []; NoParameterCheck := false;
                                 SideEffects := 0; CallCount := 0;
                                 usedRegisterNames := ["rbx"];
                                 fAssembler := assembler.New; completion := None |} ]}
              builtins (withVariableInRbx 9) in
   exists expr' s',
     CallExpression (call "print" [text "a"]) s = Ok (expr', s') /\
     instructions (assembler s') =
       [InstrRegister1 PUSH "rbx"; InstrRegisterAddress MOV "rdi" 0;
        InstrLabel CALL "print|1"; InstrRegister1 POP "rbx"]).
Proof.
  split; [vm_compute; reflexivity |]. split; [vm_compute; reflexivity |].
  eexists _, _. split; vm_compute; reflexivity.
Qed.

(** C1 as stated fails: x, which lives in rbx, is read for the last time
    at position 7, the end position of the call statement, so it dies at
    the end of the statement; h clobbers rbx; and yet rbx is pushed before
    the call and popped after it.  And at a call of the builtin print,
    whose code writes rdi, nothing is pushed or popped although the
    variable n lives in rdi and is read after the statement. *)
Lemma call_saves_live_registers_counterexample :
  (let s := withVariableInRbx 7 in
   users s !! "rbx" = Some (UserVariable 0) /\
   AliveUntil <$> variables s !! 0 = Some (instructionEndPosition s) /\
   clobberSet (UserFunction "h|0") s = Some ["rbx"; "r12"] /\
   CallExpression (call "h" []) s = Ok (call "h" [], afterCallOfH 7) /\
   instructions (assembler (afterCallOfH 7)) =
     [InstrRegister1 PUSH "rbx"; InstrLabel CALL "h|0"; InstrRegister1 POP "rbx"]) /\
  (let s := withVariableInRdi in
   users s !! "rdi" = Some (UserVariable 0) /\
   liveAcross s "rdi" = true /\
   clobberSet (BuiltinFunction "print|1") s = Some ["rax"; "rdi"; "rsi"; "rdx"] /\
   exists s',
     CallExpression (call "print" [text "a"]) s = Ok (call "print" [text "a"], s') /\
     instructions (assembler s') =
       [InstrRegisterNumber MOV "rax" 1; InstrRegisterNumber MOV "rdi" 1;
        InstrRegisterAddress MOV "rsi" 0; InstrRegisterNumber MOV "rdx" 2;
        Instr0 SYSCALL]).
Proof.
  split.
  - do 4 (split; [vm_compute; reflexivity |]). vm_compute. reflexivity.
  - do 3 (split; [vm_compute; reflexivity |]).
    eexists. split; vm_compute; reflexivity.
Qed.

Lemma argument_types_checked_witness :
  CallExpression (call "f" [text "hi"]) (initial program)
    = Err (InvalidType "Text" "Int64" "a") /\
  (exists moved,
     BeforeCall (BuiltinFunction "syscall")
       [number "1"; number "1"; text "Hello Syscalls"; number "14"] (initial program)
     = Ok ([], register.Syscall registerFile, moved)).
Proof.
  split.
  - destruct (argument_types_checked (H := leaves) (call "f" [text "hi"]) (initial program)
                (UserFunction "f|1") f1 []) as ([_ Hmismatch] & _ & Hcall);
      [vm_compute; reflexivity | vm_compute; reflexivity | reflexivity |].
    apply (Hcall (initial program) false f1);
      [vm_compute; reflexivity | vm_compute; reflexivity | by right | by left
      | vm_compute; reflexivity |].
    apply (Hmismatch [] (text "hi") [] (initial program) "rdi"
             spec.Text (int64Param "a") textIntoRdi).
    + reflexivity.
    + constructor.
    + reflexivity.
    + vm_compute. reflexivity.
    + vm_compute. reflexivity.
    + discriminate.
  - destruct (argument_types_checked (H := leaves) syscallOfFour (initial program)
                (BuiltinFunction "syscall") syscallFunction [])
      as (_ & [Hcompiled _] & _);
      [vm_compute; reflexivity | vm_compute; reflexivity | reflexivity |].
    eexists. apply Hcompiled.
    eapply Compiled_into; [reflexivity | vm_compute; reflexivity
                          | vm_compute; reflexivity |].
    eapply Compiled_into; [reflexivity | vm_compute; reflexivity
                          | vm_compute; reflexivity |].
    eapply Compiled_into; [reflexivity | vm_compute; reflexivity
                          | vm_compute; reflexivity |].
    eapply Compiled_into; [reflexivity | vm_compute; reflexivity
                          | vm_compute; reflexivity |].
    apply Compiled_nil.
Defined.

(** C6 as stated fails: syscall is called with as many arguments as it
    declares parameters, its parameter of position 2 is declared Int64 and
    the argument of position 2 is compiled to a Text; the call compiles
    without an InvalidType error, because syscall opts out of the check. *)
Lemma argument_types_checked_counterexample :
  let arguments := [number "1"; number "1"; text "Hello Syscalls"; number "14";
                    number "0"; number "0"; number "0"] in
  length arguments = length (fParameters syscallFunction) /\
  pType <$> fParameters syscallFunction !! 2 = Some spec.Int64 /\
  (forall r s, exists s',
     ExpressionToRegister (text "Hello Syscalls") r s = Ok (spec.Text, s')) /\
  exists expr' s',
    CallExpression (call "syscall" arguments) (initial program) = Ok (expr', s').
Proof.
  split; [reflexivity |]. split; [reflexivity |]. split.
  - intros r s. simpl. unfold leafToRegister. simpl.
    destruct (AddString _ _). eauto.
  - eexists _, _. vm_compute. reflexivity.
Qed.

(** An argument that is a variable already in its call register is passed
    as it is: t is a Text, the parameter a of f is declared Int64, and the
    call [f(t)] compiles, without any code for the argument. *)
Lemma argument_in_place_is_not_checked :
  let s := withTextInRdi in
  vType <$> variables s !! 0 = Some spec.Text /\
  pType <$> fParameters f1 !! 0 = Some spec.Int64 /\
  exists s',
    CallExpression (call "f" [leaf token.Identifier "t"]) s
      = Ok (call "f" [leaf token.Identifier "t"], s') /\
    instructions (assembler s') = [InstrLabel CALL "f|1"].
Proof.
  do 2 (split; [vm_compute; reflexivity |]).
  eexists. split; vm_compute; reflexivity.
Qed.

(** C2, what the code does: the caller reads the callee's side-effect
    counter before it waits for the callee.  When main calls noisy while
    the compile task of noisy is still running, the counter read is still
    zero: after the call noisy has published its side effect and main has
    none.  When noisy had finished before the call, main is marked. *)
Theorem side_effects_read_before_wait :
  (let s := initial {[ "main|0" := main; "noisy|0" := noisy false ]} in
   exists expr' s',
     CallExpression (call "noisy" []) s = Ok (expr', s') /\
     instructions (assembler s') = [InstrLabel CALL "noisy|0"] /\
     Functions s' !! "noisy|0" ≫= completion = None /\
     SideEffects <$> Functions s' !! "noisy|0" = Some 1%Z /\
     SideEffects <$> Functions s' !! "main|0" = Some 0%Z) /\
  (let s := initial {[ "main|0" := main; "noisy|0" := noisy true ]} in
   exists expr' s',
     CallExpression (call "noisy" []) s = Ok (expr', s') /\
     SideEffects <$> Functions s' !! "noisy|0" = Some 1%Z /\
     SideEffects <$> Functions s' !! "main|0" = Some 1%Z).
Proof.
  split.
  - eexists _, _. split; [vm_compute; reflexivity |].
    do 3 (split; [vm_compute; reflexivity |]). vm_compute. reflexivity.
  - eexists _, _. split; [vm_compute; reflexivity |].
    split; vm_compute; reflexivity.
Qed.

(** C10, what the code does: BeforeCall itself makes the callee's
    parameter, which is not a variable, the user of a call register while
    the argument is compiled.  In [f(g(1))] the argument of f is compiled
    into rdi, held by the parameter of f; the call of g finds rdi in use,
    moves it away and reaches the panic of the branch for a user that is
    not a variable. *)
Theorem nested_call_reaches_panic :
  @CallExpression (nested 1) (call "f" [call "g" [number "1"]]) (initial program)
    = Panic "This should never happen".
Proof. vm_compute. reflexivity. Qed.

End Runs.

(** * Further properties of the code *)

(** ** The call statement and the resolution of the callee *)

Section CallStatement.

Context `{Collaborators}.

(** X1.  The call statement indexes its first and its last token
    unchecked: on an empty token list it panics.  Otherwise the checks
    come in this order: a first token that is not an identifier gives
    MissingFunctionName; then a last token that is not a closing
    parenthesis gives MissingCharacter ")"; then the tokens go to the
    token compiler, whose outcome is the outcome of the statement. *)
Theorem Call_checks_tokens (tokens : list token.Token) (s : State) :
  (tokens = [] -> Call tokens s = Panic "index out of range") /\
  (forall first final,
     head tokens = Some first -> last tokens = Some final ->
     (token.kind first <> token.Identifier ->
      Call tokens s = Err MissingFunctionName) /\
     (token.kind first = token.Identifier -> token.kind final <> token.GroupEnd ->
      Call tokens s = Err (MissingCharacter ")")) /\
     (token.kind first = token.Identifier -> token.kind final = token.GroupEnd ->
      Call tokens s = snd <$> TokensToRegister tokens None s)).
Proof.
  split; [by intros -> |].
  intros first final Hfirst Hlast. unfold Call, index.
  rewrite <- head_lookup, Hfirst. simpl.
  assert (Hfinal : tokens !! (length tokens - 1) = Some final).
  { rewrite last_lookup in Hlast. by replace (length tokens - 1) with (pred (length tokens)) by lia. }
  rewrite Hfinal. simpl.
  split; [| split].
  - intros Hkind. by rewrite bool_decide_eq_false_2.
  - intros Hkind Hend. rewrite bool_decide_eq_true_2 by done. simpl.
    by rewrite bool_decide_eq_false_2.
  - intros Hkind Hend. rewrite !bool_decide_eq_true_2 by done. simpl.
    by destruct (TokensToRegister tokens None s) as [[r s']| |].
Qed.

(** X2.  The callee is looked up under its polymorphic name, among the
    user functions first.  A name in neither table is reported by
    UnknownFunctionError.  A user function is never treated as a builtin,
    also when its name is that of print or store: once the parameter count
    has passed, the call goes through the call sequence, in the state in
    which the caller's side-effect counter has been incremented if the
    callee has side effects. *)
Theorem call_resolution (expr : Expression) (s : State) :
  let functionName := PolymorphName (token.text (Token expr)) (length (Children expr)) in
  (Functions s !! functionName = None -> BuiltinFunctions s !! functionName = None ->
   CallExpression expr s = Err (UnknownFunctionError functionName s)) /\
  (forall callee,
     Functions s !! functionName = Some callee ->
     NoParameterCheck callee = true \/
     length (Children expr) = length (fParameters callee) ->
     CallExpression expr s =
     callSequence expr functionName (UserFunction functionName)
       (if (0 <? SideEffects callee)%Z
        then alterFunction addSideEffects (function s) s else s)).
Proof.
  intros functionName. split.
  - intros Huser Hbuiltin. unfold CallExpression, resolve. fold functionName.
    by rewrite Huser, Hbuiltin.
  - intros callee Huser Hcount. unfold CallExpression, resolve. fold functionName.
    rewrite Huser. simpl. rewrite Huser. simpl.
    destruct Hcount as [-> | ->]; simpl; [done |].
    rewrite bool_decide_eq_true_2 by done. by rewrite andb_false_r.
Qed.

(** X3.  The builtin print accepts a text literal only: an argument
    whose token is of any other kind, a variable included, is refused with
    the error that names the function and the text of the argument. *)
Theorem print_requires_text (expr parameter : Expression) (s : State)
    (print : FunctionT) :
  let functionName := PolymorphName (token.text (Token expr)) (length (Children expr)) in
  functionName = BuiltinPrint ->
  Functions s !! functionName = None ->
  BuiltinFunctions s !! functionName = Some print ->
  NoParameterCheck print = true \/ length (Children expr) = length (fParameters print) ->
  Children expr !! 0 = Some parameter ->
  token.kind (Token parameter) <> token.Text ->
  CallExpression expr s =
  Err (RequiresTextParameter (fName print) (token.text (Token parameter))).
Proof.
  intros functionName Hname Huser Hbuiltin Hcount Hparameter Hkind.
  unfold CallExpression, resolve. fold functionName.
  rewrite Huser, Hbuiltin. simpl. rewrite Hbuiltin. simpl.
  assert (Hcheck : negb (NoParameterCheck print)
                   && negb (bool_decide (length (Children expr) = length (fParameters print)))
                   = false).
  { destruct Hcount as [-> | ->]; simpl; [done |].
    rewrite bool_decide_eq_true_2 by done. by rewrite andb_false_r. }
  rewrite Hcheck. rewrite (bool_decide_eq_true_2 _ Hname). 
  unfold index. rewrite Hparameter. simpl.
  by rewrite bool_decide_eq_false_2.
Qed.

End CallStatement.

(** ** The builtin store *)

Section StoreCode.

Context `{Collaborators}.

(** X4.  A call to the builtin store whose first argument names a bound
    variable that has a register, in a compiler whose bookkeeping of the
    read of a variable emits nothing and leaves the function tables alone:
    the call appends exactly one instruction to the code, a store on the
    register of the variable.  The offset and the byte count are the
    numbers of the second and third argument truncated to a byte, the
    value is the number of the fourth truncated to 64 bits.  The call is
    not counted: no CallCount changes.  The function tables change in one
    place at most: when the table entry of store has side effects, the
    side-effect counter of the function being compiled is incremented;
    otherwise they are unchanged. *)
Theorem store_emits_one_store (expr p0 p1 p2 p3 : Expression) (s : State)
    (callee : FunctionT) (v : nat) (reg : register.Name) :
  let functionName := PolymorphName (token.text (Token expr)) 4 in
  let entered := if (0 <? SideEffects callee)%Z
                 then alterFunction addSideEffects (function s) s else s in
  Children expr = [p0; p1; p2; p3] ->
  Functions s !! functionName = None ->
  BuiltinFunctions s !! functionName = Some callee ->
  functionName = BuiltinStore ->
  functionName <> BuiltinPrint ->
  NoParameterCheck callee = true \/ length (fParameters callee) = 4 ->
  scopesGet (scopes s) (token.text (Token p0)) = Some v ->
  variables (UseVariable v entered) !! v ≫= vRegister = Some reg ->
  assembler (UseVariable v entered) = assembler entered ->
  Functions (UseVariable v entered) = Functions entered ->
  BuiltinFunctions (UseVariable v entered) = BuiltinFunctions entered ->
  exists offset byteCount value s',
    CallExpression expr s = Ok (expr, s') /\
    instructions (assembler s') =
      instructions (assembler s) ++
      [InstrMemoryNumber STORE reg offset byteCount value] /\
    offset = (Atoi (token.text (Token p1)) mod 256)%Z /\
    byteCount = (Atoi (token.text (Token p2)) mod 256)%Z /\
    value = (Atoi (token.text (Token p3)) mod 2 ^ 64)%Z /\
    (0 <= offset < 256)%Z /\ (0 <= byteCount < 256)%Z /\
    (forall ref, CallCount <$> deref ref s' = CallCount <$> deref ref s) /\
    (forall ref, ref <> function s -> deref ref s' = deref ref s) /\
    deref (function s) s' =
      (if (0 <? SideEffects callee)%Z then fmap addSideEffects else id)
        (deref (function s) s).
Proof.
  intros functionName entered Hchildren Huser Hbuiltin Hstore Hprint Hcount Hscope Hreg
    Hasm Hfunctions Hbuiltins.
  assert (Hentered : assembler entered = assembler s).
  { subst entered. destruct (0 <? SideEffects callee)%Z; [apply assembler_alterFunction | done]. }
  assert (Hderef : forall ref,
            deref ref (asm (StoreNumber reg (byte (Atoi (token.text (Token p1))))
                              (byte (Atoi (token.text (Token p2))))
                              (uint64 (Atoi (token.text (Token p3)))))
                         (UseVariable v entered))
            = deref ref entered).
  { intros ref. destruct ref; simpl; by rewrite ?Hfunctions, ?Hbuiltins. }
  eexists _, _, _, _.
  split; [| split; [| split; [reflexivity | split; [reflexivity | split; [reflexivity |]]]]].
  - unfold CallExpression. rewrite Hchildren. simpl length.
    fold functionName. unfold resolve. rewrite Huser, Hbuiltin. simpl.
    rewrite Hbuiltin. simpl. fold entered.
    assert (Hsc : scopes entered = scopes s).
    { subst entered. destruct (0 <? SideEffects callee)%Z; [apply scopes_alterFunction | done]. }
    assert (Hcheck : negb (NoParameterCheck callee)
                     && negb (bool_decide (4 = length (fParameters callee))) = false).
    { destruct Hcount as [-> | ->]; [done |].
      rewrite (bool_decide_eq_true_2 (4 = 4)) by done. apply andb_false_r. }
    rewrite Hcheck. simpl.
    rewrite (bool_decide_eq_false_2 _ Hprint).
    rewrite (bool_decide_eq_true_2 _ Hstore). simpl.
    unfold storeBuiltin. simpl. rewrite Hsc, Hscope. rewrite Hreg. simpl. reflexivity.
  - simpl. by rewrite Hasm, Hentered.
  - split; [apply Z.mod_pos_bound; lia |]. split; [apply Z.mod_pos_bound; lia |].
    split; [| split].
    + intros ref. rewrite Hderef. subst entered.
      destruct (0 <? SideEffects callee)%Z; [| done].
      destruct (decide (ref = function s)) as [-> | Hne].
      * rewrite deref_alterFunction. by destruct (deref (function s) s).
      * by rewrite deref_alterFunction_ne.
    + intros ref Hne. rewrite Hderef. subst entered.
      destruct (0 <? SideEffects callee)%Z; [| done].
      by apply deref_alterFunction_ne.
    + rewrite Hderef. subst entered.
      destruct (0 <? SideEffects callee)%Z; [| done].
      apply deref_alterFunction.
Qed.

End StoreCode.

(** ** Before and after the call *)

Section AroundTheCall.

Context `{Collaborators}.

Lemma users_freeAll callRegisters : forall s r,
  users (fold_left (fun s callRegister => Free callRegister s) callRegisters s) !! r =
  if bool_decide (r ∈ callRegisters) then None else users s !! r.
Proof.
  induction callRegisters as [|c cs IH]; intros s r; cbn [fold_left].
  - rewrite bool_decide_eq_false_2; [done | apply not_elem_of_nil].
  - rewrite IH. unfold Free at 1. cbn [users withUsers].
    destruct (decide (r ∈ cs)) as [Hin | Hnotin].
    + rewrite !bool_decide_eq_true_2; [done | by apply elem_of_cons; right | done].
    + rewrite (bool_decide_eq_false_2 (r ∈ cs)) by done.
      destruct (decide (r = c)) as [-> | Hne].
      * rewrite bool_decide_eq_true_2 by (apply elem_of_cons; by left).
        apply lookup_delete_eq.
      * rewrite bool_decide_eq_false_2.
        2:{ intros Hin. apply elem_of_cons in Hin as [? | ?]; done. }
        by apply lookup_delete_ne.
Qed.

Lemma frame_popRegisters pops : forall s,
  users (fold_left (fun s reg => asm (PopRegister reg) s) pops s) = users s /\
  variables (fold_left (fun s reg => asm (PopRegister reg) s) pops s) = variables s /\
  Functions (fold_left (fun s reg => asm (PopRegister reg) s) pops s) = Functions s /\
  BuiltinFunctions (fold_left (fun s reg => asm (PopRegister reg) s) pops s)
    = BuiltinFunctions s /\
  registers (fold_left (fun s reg => asm (PopRegister reg) s) pops s) = registers s.
Proof.
  induction pops as [|r rs IH]; intros s; simpl; [done |].
  destruct (IH (asm (PopRegister r) s)) as (-> & -> & -> & -> & ->). done.
Qed.

Lemma frame_freeAll callRegisters : forall s,
  variables (fold_left (fun s callRegister => Free callRegister s) callRegisters s)
    = variables s /\
  Functions (fold_left (fun s callRegister => Free callRegister s) callRegisters s)
    = Functions s /\
  BuiltinFunctions (fold_left (fun s callRegister => Free callRegister s) callRegisters s)
    = BuiltinFunctions s /\
  registers (fold_left (fun s callRegister => Free callRegister s) callRegisters s)
    = registers s.
Proof.
  induction callRegisters as [|r rs IH]; intros s; simpl; [done |].
  destruct (IH (Free r s)) as (-> & -> & -> & ->). done.
Qed.

Lemma deref_tables ref s s' :
  Functions s' = Functions s -> BuiltinFunctions s' = BuiltinFunctions s ->
  deref ref s' = deref ref s.
Proof. intros Hf Hb. destruct ref; simpl; by rewrite ?Hf, ?Hb. Qed.

(** X5.  AfterCall frees every register of the list of call registers it
    is given, whether the call used it or not, and leaves the users of all
    other registers and the variables alone; it increments the call counter
    of the callee (with the wrap-around of int32) and of no other
    function. *)
Theorem AfterCall_frees_call_registers (ref : FunctionRef)
    (pushedRegisters callRegisters : list register.Name) (s : State) :
  let s' := AfterCall ref pushedRegisters callRegisters s in
  (forall r, r ∈ callRegisters -> users s' !! r = None) /\
  (forall r, r ∉ callRegisters -> users s' !! r = users s !! r) /\
  variables s' = variables s /\
  deref ref s' = addCallCount <$> deref ref s /\
  (forall other, other <> ref -> deref other s' = deref other s).
Proof.
  intros s'. subst s'. unfold AfterCall.
  set (sc := alterFunction addCallCount ref s).
  set (sp := fold_left _ (rev pushedRegisters) sc).
  destruct (frame_popRegisters (rev pushedRegisters) sc) as (Hu & Hv & Hf & Hb & _).
  fold sp in Hu, Hv, Hf, Hb.
  destruct (frame_freeAll callRegisters sp) as (Hv' & Hf' & Hb' & _).
  assert (Hderef : forall other,
            deref other (fold_left (fun s callRegister => Free callRegister s) callRegisters sp)
            = deref other sc).
  { intros other. rewrite (deref_tables other sp) by done. by apply deref_tables. }
  split; [| split; [| split; [| split]]].
  - intros r Hin. rewrite users_freeAll. by rewrite bool_decide_eq_true_2.
  - intros r Hnotin. rewrite users_freeAll. rewrite bool_decide_eq_false_2 by done.
    rewrite Hu. subst sc. by rewrite users_alterFunction.
  - rewrite Hv', Hv. subst sc. by rewrite variables_alterFunction.
  - rewrite Hderef. subst sc. apply deref_alterFunction.
  - intros other Hne. rewrite Hderef. subst sc. by apply deref_alterFunction_ne.
Qed.

(** X6.  BeforeCall indexes the list of call registers by the position of
    the argument, unchecked: a call with more arguments than the list of
    call registers and the list of system call registers have entries
    never compiles. *)
Theorem too_many_arguments_never_compile (ref : FunctionRef)
    (parameters : list Expression) (s : State) :
  length (register.Call (registers s)) < length parameters ->
  length (register.Syscall (registers s)) < length parameters ->
  forall result, BeforeCall ref parameters s <> Ok result.
Proof.
  intros Hcall Hsyscall result Hbefore. unfold BeforeCall in Hbefore.
  destruct (deref ref (Wait ref s)) as [callee|]; [| done].
  apply bind_Ok in Hbefore as (saved & _ & Hbefore).
  apply bind_Ok in Hbefore as (s' & Hmove & _).
  destruct (frame_saveRegisters saved (Wait ref s)) as (_ & _ & Hregisters).
  rewrite Hregisters in Hmove. unfold Wait in Hmove.
  rewrite registers_alterFunction in Hmove.
  set (callRegisters := if bool_decide (fName callee = BuiltinSyscall)
                        then register.Syscall (registers s)
                        else register.Call (registers s)) in Hmove.
  assert (Hshort : length callRegisters < 0 + length parameters).
  { subst callRegisters. by destruct (bool_decide _). }
  assert (Hle : 0 <= length callRegisters) by lia.
  clear Hcall Hsyscall. revert Hmove Hshort Hle.
  generalize (saveRegisters saved (alterFunction publish ref s)) as s0.
  generalize 0 as i. generalize callRegisters as regs. clear callRegisters.
  induction parameters as [|p ps IH]; intros regs i s0 Hmove Hshort Hle; simpl in *.
  - lia.
  - apply bind_Ok in Hmove as (callRegister & Hreg & Hmove).
    unfold index in Hreg. destruct (regs !! i) as [r|] eqn:Hr; [| done].
    apply lookup_lt_Some in Hr.
    destruct (alreadyInPlace p callRegister s0) as [v|].
    + eapply IH; [exact Hmove | lia | lia].
    + apply bind_Ok in Hmove as ([[typ param] s1] & _ & Hmove).
      destruct (_ && _); [done |].
      eapply IH; [exact Hmove | lia | lia].
Qed.

(** X7.  BeforeCall asserts, unchecked, that the user of a register of the
    callee's clobber set is a variable: when one of these registers is in
    use by something else (an expression, a parameter), BeforeCall
    panics. *)
Theorem BeforeCall_asserts_variables (ref : FunctionRef)
    (parameters : list Expression) (s : State) (names : list string)
    (r : register.Name) (user : User) :
  clobberSet ref s = Some names ->
  r ∈ names ->
  users s !! r = Some user ->
  (forall v, user <> UserVariable v) ->
  exists message, BeforeCall ref parameters s = Panic message.
Proof.
  intros Hclobber Hin Huser Hforeign. unfold BeforeCall.
  unfold clobberSet in Hclobber.
  destruct (deref ref (Wait ref s)) as [callee|]; [| done].
  injection Hclobber as Hnames. rewrite Hnames.
  assert (Hpanic : exists message, registersToSave names (Wait ref s) = Panic message).
  { assert (Hu : users (Wait ref s) = users s) by apply users_alterFunction.
    generalize dependent (Wait ref s). intros s0 Hu. clear Hnames.
    induction names as [|name names IH]; [by apply elem_of_nil in Hin |].
    simpl. destruct (register.ByName _ name) as [callModifiedRegister|] eqn:Hby; [| eauto].
    unfold register.ByName in Hby. destruct (bool_decide _); [| done].
    injection Hby as <-. rewrite Hu.
    apply elem_of_cons in Hin as [<- | Hin].
    - rewrite Huser. destruct user as [v| |]; [by destruct (Hforeign v) | eauto | eauto].
    - destruct (IH Hin) as [message Hrest].
      destruct (users s !! name) as [[v| |]|]; eauto.
      destruct (variables s0 !! v) as [variable|]; [| eauto].
      destruct (_ <? _)%Z; [eauto |]. rewrite Hrest. simpl. eauto. }
  destruct Hpanic as [message ->]. simpl. eauto.
Qed.

(** X8.  When a call register is in use, its user is moved away: without
    a free register in the general pool the call fails with
    ExceededMaxVariables; with one, and a variable as the user, exactly one
    move from the call register to the free register is emitted, the
    variable is rebound to the free register, the call register becomes
    free, and no other register or variable changes; with a user that is
    not a variable the compiler panics. *)
Theorem relocate_moves_the_variable (callRegister : register.Name) (s : State) :
  users s !! callRegister <> None ->
  match FindFree (register.General (registers s)) s with
  | None => relocate callRegister s = Err ExceededMaxVariables
  | Some freeRegister =>
      match users s !! callRegister with
      | Some (UserVariable variable) =>
          exists s',
            relocate callRegister s = Ok s' /\
            instructions (assembler s') =
              instructions (assembler s) ++ [InstrRegister2 MOV freeRegister callRegister] /\
            users s' !! callRegister = None /\
            users s' !! freeRegister = Some (UserVariable variable) /\
            (forall r, r <> callRegister -> r <> freeRegister ->
                       users s' !! r = users s !! r) /\
            vRegister <$> variables s' !! variable
              = (fun _ => Some freeRegister) <$> variables s !! variable /\
            (forall v, v <> variable -> variables s' !! v = variables s !! v)
      | _ => relocate callRegister s = Panic "This should never happen"
      end
  end.
Proof.
  intros Hused. unfold relocate.
  destruct (FindFree _ s) as [freeRegister|] eqn:Hfree; [| done].
  apply find_some in Hfree as [_ Hfree]. unfold IsFree in Hfree.
  apply bool_decide_eq_true_1 in Hfree.
  assert (Hne : freeRegister <> callRegister) by congruence.
  simpl. destruct (users s !! callRegister) as [[variable| |]|] eqn:Huser; try done.
  eexists. split; [done |]. simpl.
  unfold MoveRegisterRegister, doRegister2.
  rewrite (bool_decide_eq_false_2 (freeRegister = callRegister)) by done.
  rewrite andb_false_r. simpl.
  split; [done |]. split; [apply lookup_delete_eq |].
  split; [rewrite lookup_delete_ne by done; apply lookup_insert_eq |].
  split.
  { intros r Hr1 Hr2. rewrite lookup_delete_ne by done. by rewrite lookup_insert_ne. }
  split.
  - rewrite lookup_alter_eq. by destruct (variables s !! variable).
  - intros v Hv. by rewrite lookup_alter_ne.
Qed.

End AroundTheCall.

(** ** The call and its result *)

Section CallResult.

Context `{Collaborators}.

Lemma callSequence_stages expr functionName ref s expr' s' :
  callSequence expr functionName ref s = Ok (expr', s') ->
  exists pushRegisters callRegisters sb callee sa rv su,
    BeforeCall ref (Children expr) s = Ok (pushRegisters, callRegisters, sb) /\
    deref ref sb = Some callee /\
    sa = AfterCall ref pushRegisters callRegisters
           (if bool_decide (functionName = BuiltinSyscall) then asm Syscall sb
            else if CanInline callee then InlineInto callee sb
            else asm (assembler.Call functionName) sb) /\
    register.ReturnValue (registers sa) !! 0 = Some rv /\
    Use rv (UserExpression expr) sa = Ok su /\
    s' = (if bool_decide (ExprRegister expr = Some rv) then su
          else Free rv (match ExprRegister expr with
                        | Some r => asm (MoveRegisterRegister r rv) su
                        | None => su
                        end)) /\
    exists final,
      deref ref s' = Some final /\
      expr' = match ReturnTypes final with
              | [] => expr
              | t :: _ => {| Token := Token expr; Children := Children expr;
                             ExprRegister := ExprRegister expr; ExprType := Some t |}
              end.
Proof.
  unfold callSequence. intros Hb.
  apply bind_Ok in Hb as ([[pushRegisters callRegisters] sb] & Hbefore & Hb).
  apply bind_Ok in Hb as (callee & Hcallee & Hb).
  destruct (deref ref sb) as [callee0|] eqn:Hderef; [| done].
  injection Hcallee as ->.
  apply bind_Ok in Hb as (rv & Hrv & Hb).
  unfold index in Hrv.
  destruct (register.ReturnValue _ !! 0) as [rv0|] eqn:Hrv0; [| done].
  injection Hrv as ->.
  apply bind_Ok in Hb as (su & Huse & Hb).
  apply bind_Ok in Hb as (final & Hfinal & Hb).
  match type of Hfinal with
  | from_option _ _ (deref ref ?st) = _ => set (sr := st) in *
  end.
  destruct (deref ref sr) as [final0|] eqn:Hderef'; [| done].
  injection Hfinal as ->.
  eexists pushRegisters, callRegisters, sb, callee, _, rv, su.
  split; [done |]. split; [done |]. split; [reflexivity |].
  split; [exact Hrv0 |]. split; [exact Huse |].
  unfold HasReturnValue in Hb. destruct (ReturnTypes final) as [|t ts] eqn:Hret.
  - injection Hb as <- <-. split; [done |]. exists final. by rewrite Hret.
  - simpl in Hb. injection Hb as <- <-. split; [done |]. exists final. by rewrite Hret.
Qed.

Lemma deref_saveRegisters ref pushRegisters : forall s,
  deref ref (saveRegisters pushRegisters s) = deref ref s.
Proof.
  unfold saveRegisters.
  induction pushRegisters as [|r rs IH]; intros s; simpl; [done |].
  rewrite IH. by destruct ref.
Qed.

(** X9.  After a call through the call sequence, the first return value
    register is free again, unless it is itself the register of the call
    expression, in which case the expression keeps it.  The expression
    gets the first return type of the callee when the callee has a return
    value and keeps its type otherwise; its token, its children and its
    register are unchanged. *)
Theorem call_result (expr expr' : Expression) (functionName : string)
    (ref : FunctionRef) (s s' : State) :
  callSequence expr functionName ref s = Ok (expr', s') ->
  (exists rv,
     register.ReturnValue (registers s') !! 0 = Some rv /\
     users s' !! rv =
       if bool_decide (ExprRegister expr = Some rv)
       then Some (UserExpression expr) else None) /\
  (exists callee,
     deref ref s' = Some callee /\
     ExprType expr' = match ReturnTypes callee with
                      | [] => ExprType expr
                      | t :: _ => Some t
                      end) /\
  Token expr' = Token expr /\ Children expr' = Children expr /\
  ExprRegister expr' = ExprRegister expr.
Proof.
  intros Hcall.
  apply callSequence_stages in Hcall
    as (pushRegisters & callRegisters & sb & callee & sa & rv & su &
        _ & _ & _ & Hrv & Huse & -> & final & Hfinal & ->).
  unfold Use in Huse. destruct (IsFree rv sa); [| done]. injection Huse as <-.
  split; [| split].
  - exists rv. destruct (bool_decide (ExprRegister expr = Some rv)).
    + split; [exact Hrv |]. simpl. apply lookup_insert_eq.
    + split; [by destruct (ExprRegister expr) |].
      destruct (ExprRegister expr); simpl; apply lookup_delete_eq.
  - exists final. split; [done |]. by destruct (ReturnTypes final).
  - by destruct (ReturnTypes final).
Qed.

(** X10.  A call without arguments and without a result register, to a
    function that is not inlined, emits the pushes of the live registers
    of the clobber set, one instruction for the call (syscall for the
    builtin syscall, call with the polymorphic name otherwise) and the pops
    in reverse order, and nothing else. *)
Theorem call_without_arguments_code (expr expr' : Expression) (functionName : string)
    (ref : FunctionRef) (callee : FunctionT) (s s' : State) :
  Children expr = [] ->
  ExprRegister expr = None ->
  deref ref (Wait ref s) = Some callee ->
  functionName = BuiltinSyscall \/ CanInline callee = false ->
  callSequence expr functionName ref s = Ok (expr', s') ->
  let saved := List.filter (liveAcross s) (usedRegisterNames callee) in
  instructions (assembler s') =
    instructions (assembler s) ++
    map (InstrRegister1 PUSH) saved ++
    [if bool_decide (functionName = BuiltinSyscall) then Instr0 SYSCALL
     else InstrLabel CALL functionName] ++
    map (InstrRegister1 POP) (rev saved).
Proof.
  intros Hnone Hslot Hcallee Hdirect Hcall saved.
  apply callSequence_stages in Hcall
    as (pushRegisters & callRegisters & sb & callee' & sa & rv & su &
        Hbefore & Hderef & Hsa & Hrv & Huse & -> & _).
  rewrite Hslot. rewrite (bool_decide_eq_false_2 (None = Some rv)) by done.
  cbn [assembler Free withUsers].
  unfold Use in Huse. destruct (IsFree rv sa); [| done]. injection Huse as <-.
  cbn [assembler withUsers]. rewrite Hsa, instructions_AfterCall.
  unfold BeforeCall in Hbefore. rewrite Hcallee, Hnone in Hbefore.
  apply bind_Ok in Hbefore as (pushed & Hpushed & Hbefore).
  simpl in Hbefore. injection Hbefore as <- _ <-.
  apply registersToSave_filter in Hpushed.
  rewrite (filter_ext _ _ (liveAcross_Wait ref s)) in Hpushed. fold saved in Hpushed.
  subst pushed.
  assert (Hsame : callee' = callee).
  { rewrite deref_saveRegisters in Hderef. congruence. }
  subst callee'.
  assert (Hcode : forall st,
            instructions (assembler
              (if bool_decide (functionName = BuiltinSyscall) then asm Syscall st
               else if CanInline callee then InlineInto callee st
               else asm (assembler.Call functionName) st)) =
            instructions (assembler st) ++
            [if bool_decide (functionName = BuiltinSyscall) then Instr0 SYSCALL
             else InstrLabel CALL functionName]).
  { intros st. destruct (bool_decide (functionName = BuiltinSyscall)) eqn:Hsys; [done |].
    destruct Hdirect as [-> | ->]; [| done].
    by rewrite bool_decide_eq_true_2 in Hsys. }
  rewrite Hcode, instructions_saveRegisters.
  unfold Wait. rewrite assembler_alterFunction. by rewrite <- !app_assoc.
Qed.

(** X11.  printLn indexes the first four registers of the system call
    list, unchecked: with four or more registers it succeeds, with fewer it
    panics; it never returns an error. *)
Theorem printLn_needs_four_registers (text : string) (s : State) :
  (4 <= length (register.Syscall (registers s)) ->
   exists s', printLn text s = Ok s') /\
  (length (register.Syscall (registers s)) < 4 ->
   printLn text s = Panic "index out of range") /\
  (forall e, printLn text s <> Err e).
Proof.
  unfold printLn.
  destruct (AddString (text +:+ newline) (assembler s)) as [address a].
  cbn [registers withAssembler asm].
  destruct (register.Syscall (registers s)) as [|r0 [|r1 [|r2 [|r3 rest]]]];
    simpl; (split; [intros; try lia; eauto | split; [intros; try lia; done | done]]).
Qed.

End CallResult.

(** ** The stack of open loops *)

Section OpenLoops.

Context `{Collaborators}.

Lemma ForStart_pushes `{!ForFrame} tokens s0 s1 :
  ForStart tokens s0 = Ok s1 ->
  let n := int (forCounter (forLoop s0) + 1) in
  exists reg temporary,
    forLoop s1 =
      {| forCounter := n;
         stack := stack (forLoop s0) ++
                  [{| labelStart := forLabel n; labelEnd := forEndLabel n;
                      counter := reg; limit := temporary |}] |} /\
    last (instructions (assembler s1)) = Some (InstrLabel JE (forEndLabel n)).
Proof.
  unfold ForStart. destruct tokens as [|keyword expression]; [done |].
  set (entered := scopesPush (Expect token.Keyword s0)).
  destruct (_ =? -1)%Z; [done |].
  intros Hb. apply bind_Ok in Hb as ([reg sa] & Hcounter & Hb).
  destruct (bool_decide _); [done |].
  apply bind_Ok in Hb as ([temporary sc] & Hcompare & Hb).
  injection Hb as <-.
  apply CompareExpression_forLoop in Hcompare. simpl in Hcompare.
  assert (Hsa : forLoop sa = forLoop s0).
  { transitivity (forLoop entered); [| apply Expect_forLoop].
    unfold counterRegister in Hcounter. destruct (_ =? -1)%Z.
    - destruct (bool_decide _); [done |].
      destruct (FindFreeRegister entered) as [r|]; [| done].
      apply bind_Ok in Hcounter as ([r' s2] & HT & [= _ <-]).
      by apply TokensToRegister_forLoop in HT.
    - apply bind_Ok in Hcounter as ([v s2] & HA & Hv).
      destruct (variables s2 !! v); [| done]. injection Hv as _ <-.
      by apply AssignVariable_forLoop in HA. }
  cbv zeta. exists reg, temporary. simpl. rewrite Hcompare. simpl. rewrite Hsa.
  split; [done |]. apply last_snoc.
Qed.

Lemma ForEnd_pops `{!ForFrame} s sp loops loop c :
  PopScope s = Ok sp ->
  stack (forLoop s) = loops ++ [loop] ->
  counter loop = Some c ->
  exists s',
    ForEnd s = Ok s' /\
    forLoop s' = {| forCounter := forCounter (forLoop s); stack := loops |} /\
    instructions (assembler s') =
      instructions (assembler sp) ++
      [InstrRegister1 INC c; InstrLabel JMP (labelStart loop); Label (labelEnd loop)] /\
    users s' = match limit loop with
               | Some t => delete t (delete c (users sp))
               | None => delete c (users sp)
               end.
Proof.
  intros Hpop Hstack Hcounter. unfold ForEnd. rewrite Hpop. simpl.
  apply PopScope_forLoop in Hpop. rewrite Hpop, Hstack, last_snoc, Hcounter.
  rewrite removelast_last.
  destruct (limit loop) as [t|]; eexists; (split; [done |]); simpl;
    by rewrite <- !app_assoc.
Qed.

(** X12.  A successful ForStart increments the loop counter (with the
    wrap-around of int), pushes one loop onto the stack of open loops,
    whose labels are for_N and for_N_end for the new counter value N, and
    ends the code of the header with the jump to for_N_end. *)
Theorem ForStart_opens_a_loop `{!ForFrame} (tokens : list token.Token) (s0 s1 : State) :
  ForStart tokens s0 = Ok s1 ->
  let n := int (forCounter (forLoop s0) + 1) in
  forCounter (forLoop s1) = n /\
  (exists reg temporary,
     stack (forLoop s1) =
       stack (forLoop s0) ++
       [{| labelStart := forLabel n; labelEnd := forEndLabel n;
           counter := reg; limit := temporary |}]) /\
  last (instructions (assembler s1)) = Some (InstrLabel JE (forEndLabel n)).
Proof.
  intros Hstart n. apply ForStart_pushes in Hstart as (reg & temporary & Hfor & Hlast).
  split; [by rewrite Hfor |]. split; [| done].
  exists reg, temporary. by rewrite Hfor.
Qed.

(** X13.  ForEnd returns the error of PopScope; with no open loop it
    panics on the index; otherwise it pops the innermost (the last pushed)
    loop, leaves the loop counter as it is, appends the increment of the
    loop's counter register, the jump to its start label and its end label,
    and frees the counter register and the limit register, and no
    other. *)
Theorem ForEnd_closes_the_innermost_loop `{!ForFrame} (s : State) :
  (forall e, PopScope s = Err e -> ForEnd s = Err e) /\
  (forall sp, PopScope s = Ok sp -> stack (forLoop s) = [] ->
              ForEnd s = Panic "index out of range") /\
  (forall sp loops loop c,
     PopScope s = Ok sp -> stack (forLoop s) = loops ++ [loop] ->
     counter loop = Some c ->
     exists s',
       ForEnd s = Ok s' /\
       stack (forLoop s') = loops /\
       forCounter (forLoop s') = forCounter (forLoop s) /\
       instructions (assembler s') =
         instructions (assembler sp) ++
         [InstrRegister1 INC c; InstrLabel JMP (labelStart loop);
          Label (labelEnd loop)] /\
       users s' !! c = None /\
       (forall t, limit loop = Some t -> users s' !! t = None) /\
       (forall r, r <> c -> limit loop <> Some r -> users s' !! r = users sp !! r)).
Proof.
  split; [| split].
  - intros e Hpop. unfold ForEnd. by rewrite Hpop.
  - intros sp Hpop Hstack. unfold ForEnd. rewrite Hpop. simpl.
    apply PopScope_forLoop in Hpop. by rewrite Hpop, Hstack.
  - intros sp loops loop c Hpop Hstack Hcounter.
    destruct (ForEnd_pops _ _ _ _ _ Hpop Hstack Hcounter) as (s' & Hend & Hfor & Hcode & Hu).
    exists s'. split; [done |]. rewrite Hfor, Hu. simpl.
    split; [done |]. split; [done |]. split; [done |].
    destruct (limit loop) as [t|].
    + split; [| split].
      * destruct (decide (c = t)) as [->|]; [apply lookup_delete_eq |].
        rewrite lookup_delete_ne by done. apply lookup_delete_eq.
      * intros ? [= <-]. apply lookup_delete_eq.
      * intros r Hc Ht. rewrite lookup_delete_ne by congruence.
        by rewrite lookup_delete_ne.
    + split; [apply lookup_delete_eq |]. split; [done |].
      intros r Hc _. by rewrite lookup_delete_ne.
Qed.

(** X14.  ForStart and ForEnd around a body that leaves the for-loop state
    as it found it: the stack of open loops is the one before the
    statement, the loop counter stays incremented, and the labels that
    ForEnd jumps to and defines are those of this statement: the end label
    is the target of the jump that ForStart emitted. *)
Theorem for_statement_balances_the_stack `{!ForFrame}
    (tokens : list token.Token) (s0 s1 s2 s3 : State) :
  ForStart tokens s0 = Ok s1 ->
  forLoop s2 = forLoop s1 ->
  ForEnd s2 = Ok s3 ->
  let n := int (forCounter (forLoop s0) + 1) in
  stack (forLoop s3) = stack (forLoop s0) /\
  forCounter (forLoop s3) = n /\
  last (instructions (assembler s1)) = Some (InstrLabel JE (forEndLabel n)) /\
  exists sp c,
    PopScope s2 = Ok sp /\
    instructions (assembler s3) =
      instructions (assembler sp) ++
      [InstrRegister1 INC c; InstrLabel JMP (forLabel n); Label (forEndLabel n)].
Proof.
  intros Hstart Hbody Hend n.
  apply ForStart_pushes in Hstart as (reg & temporary & Hfor & Hlast). fold n in Hfor, Hlast.
  assert (Hpop : exists sp, PopScope s2 = Ok sp).
  { unfold ForEnd in Hend. apply bind_Ok in Hend as (sp & Hpop & _). eauto. }
  destruct Hpop as [sp Hpop].
  assert (Hstack : stack (forLoop s2) =
                   stack (forLoop s0) ++
                   [{| labelStart := forLabel n; labelEnd := forEndLabel n;
                       counter := reg; limit := temporary |}]).
  { by rewrite Hbody, Hfor. }
  destruct reg as [c|].
  2:{ unfold ForEnd in Hend. rewrite Hpop in Hend. simpl in Hend.
      apply PopScope_forLoop in Hpop. by rewrite Hpop, Hstack, last_snoc in Hend. }
  destruct (ForEnd_pops _ _ _ _ _ Hpop Hstack eq_refl) as (s' & Hend' & Hfor' & Hcode & _).
  rewrite Hend in Hend'. injection Hend' as <-.
  rewrite Hfor'. simpl. rewrite Hbody, Hfor. simpl.
  split; [done |]. split; [done |]. split; [done |].
  by exists sp, c.
Qed.

End OpenLoops.

(** ** The labels of the loops *)

Section LoopLabels.

Lemma mentions_app c s1 s2 :
  mentions c (s1 +:+ s2) = mentions c s1 || mentions c s2.
Proof. induction s1 as [|c' s1 IH]; simpl; [done |]. by rewrite IH, orb_assoc. Qed.

Lemma mentions_pretty_N_go c (Hc : forall d, (d < 10)%N -> pretty_N_char d <> c) :
  forall x s, mentions c s = false -> mentions c (pretty_N_go x s) = false.
Proof.
  intros x. induction (N.lt_wf_0 x) as [x _ IH]. intros s Hs.
  destruct (decide (x = 0%N)) as [-> | Hx].
  - by rewrite pretty_N_go_0.
  - rewrite pretty_N_go_step by lia. apply IH.
    + apply N.div_lt; lia.
    + simpl. rewrite Hs, orb_false_r. apply bool_decide_eq_false_2, Hc.
      apply N.mod_lt. lia.
Qed.

Lemma pretty_N_char_ne_underscore d : (d < 10)%N -> pretty_N_char d <> underscore.
Proof.
  intros Hd.
  destruct d as [|p]; [by vm_compute |].
  do 4 (destruct p as [p|p|]; try (by vm_compute)); lia.
Qed.

Lemma mentions_pretty_Z (n : Z) : mentions underscore (pretty n) = false.
Proof.
  assert (HN : forall x : N, mentions underscore (pretty x) = false).
  { intros x. unfold pretty, pretty_N. destruct (decide (x = 0%N)); [done |].
    apply mentions_pretty_N_go; [apply pretty_N_char_ne_underscore | done]. }
  destruct n as [|p|p].
  - by vm_compute.
  - apply (HN (Npos p)).
  - change (pretty (Zneg p)) with ("-" +:+ pretty (Npos p)).
    rewrite mentions_app, HN. by vm_compute.
Qed.

Lemma app_separator_inj c x y r r' :
  mentions c x = false -> mentions c y = false ->
  x +:+ String c r = y +:+ String c r' -> x = y.
Proof.
  revert y. induction x as [|a x IH]; intros [|b y] Hx Hy Heq; simpl in *.
  - done.
  - injection Heq as <- _. by rewrite bool_decide_eq_true_2 in Hy.
  - injection Heq as -> _. by rewrite bool_decide_eq_true_2 in Hx.
  - injection Heq as -> Heq. apply orb_false_iff in Hx as [_ Hx].
    apply orb_false_iff in Hy as [_ Hy]. f_equal. by apply IH.
Qed.

(** X15.  The labels of the loops: different counter values give
    different start labels and different end labels, a start label is never
    an end label, and the next counter value differs from the current one,
    so that the labels of two loops never collide before the counter has
    gone through all its values. *)
Theorem loop_labels_are_distinct (n m : Z) :
  (forLabel n = forLabel m -> n = m) /\
  (forEndLabel n = forEndLabel m -> n = m) /\
  forLabel n <> forEndLabel m /\
  ((- 2 ^ 63 <= n < 2 ^ 63)%Z -> forLabel (int (n + 1)) <> forLabel n).
Proof.
  assert (Hstart : forall a b, forLabel a = forLabel b -> a = b).
  { intros a b Heq. unfold forLabel in Heq.
    apply (inj (String.app "for_")) in Heq. by apply (inj pretty) in Heq. }
  split; [apply Hstart |]. split; [| split].
  - unfold forEndLabel. intros Heq.
    apply (inj (String.app "for_")) in Heq.
    apply app_separator_inj in Heq; [| apply mentions_pretty_Z ..].
    by apply (inj pretty) in Heq.
  - unfold forLabel, forEndLabel. intros Heq.
    apply (inj (String.app "for_")) in Heq.
    apply (f_equal (mentions underscore)) in Heq.
    rewrite mentions_app, !mentions_pretty_Z in Heq. by vm_compute in Heq.
  - intros Hrange Heq. apply Hstart in Heq. unfold int, wrap in Heq.
    change (2 ^ (64 - 1))%Z with (2 ^ 63)%Z in Heq.
    destruct (decide (n = 2 ^ 63 - 1)%Z) as [-> | Hmax]; [done |].
    rewrite Z.mod_small in Heq; lia.
Qed.

End LoopLabels.

(** ** Running a loop: the number of iterations *)

Section LoopIterations.

Import machine.

Lemma read_write r x m r' :
  read (write r x m) r' = if decide (r = r') then x else read m r'.
Proof.
  unfold read, write. simpl. destruct (decide (r = r')) as [-> | Hne].
  - by rewrite lookup_insert_eq.
  - by rewrite lookup_insert_ne.
Qed.

Lemma step_je_taken program m name target :
  program !! pc m = Some (InstrLabel JE name) -> zeroFlag m = true ->
  labelPosition program name = Some target ->
  step program m = Some {| pc := target; regs := regs m; zeroFlag := zeroFlag m |}.
Proof.
  destruct m as [p r z]. simpl. intros Hi -> Hl. unfold step. simpl. rewrite Hi. simpl.
  unfold jump. by rewrite Hl.
Qed.

Lemma step_je_not_taken program m name :
  program !! pc m = Some (InstrLabel JE name) -> zeroFlag m = false ->
  step program m = Some (next m).
Proof.
  destruct m as [p r z]. simpl. intros Hi ->. unfold step. simpl. by rewrite Hi.
Qed.

Lemma step_jmp program m name target :
  program !! pc m = Some (InstrLabel JMP name) ->
  labelPosition program name = Some target ->
  step program m = Some {| pc := target; regs := regs m; zeroFlag := zeroFlag m |}.
Proof. intros Hi Hl. unfold step. rewrite Hi. simpl. unfold jump. by rewrite Hl. Qed.

(** Straight-line code that loads registers other than [c] and [t] runs
    through and leaves both alone. *)
Lemma run_loads (c t : string) body : forall pre post m,
  Forall (fun i => exists d v, i = InstrRegisterNumber MOV d v /\ d <> c /\ d <> t) body ->
  pc m = length pre ->
  exists m',
    pc m' = length pre + length body /\
    read m' c = read m c /\ read m' t = read m t /\
    (forall fuel,
       executed (length body + fuel) (pre ++ body ++ post) m =
       seq (length pre) (length body) ++ executed fuel (pre ++ body ++ post) m') /\
    (forall fuel,
       halts (length body + fuel) (pre ++ body ++ post) m =
       halts fuel (pre ++ body ++ post) m').
Proof.
  induction body as [|i body IH]; intros pre post m Hloads Hpc.
  - exists m. simpl. rewrite Nat.add_0_r. done.
  - apply Forall_cons in Hloads as [(d & v & -> & Hc & Ht) Hloads].
    set (m1 := write d (uint64 v) m).
    assert (Hat : (pre ++ (InstrRegisterNumber MOV d v :: body) ++ post) !! pc m
                  = Some (InstrRegisterNumber MOV d v)).
    { rewrite Hpc, lookup_app_r by lia. by rewrite Nat.sub_diag. }
    assert (Hstep : step (pre ++ (InstrRegisterNumber MOV d v :: body) ++ post) m = Some m1).
    { unfold step. by rewrite Hat. }
    destruct (IH (pre ++ [InstrRegisterNumber MOV d v]) post m1 Hloads)
      as (m' & Hpc' & Hc' & Ht' & Hrun & Hhalt).
    { subst m1. simpl. rewrite Hpc, length_app. simpl. lia. }
    rewrite <- !app_assoc in Hrun, Hhalt. simpl in Hrun, Hhalt.
    rewrite length_app in Hpc', Hrun. simpl in Hpc', Hrun.
    exists m'. split; [simpl; lia |].
    split; [rewrite Hc'; subst m1; rewrite read_write; by destruct (decide (d = c)) |].
    split; [rewrite Ht'; subst m1; rewrite read_write; by destruct (decide (d = t)) |].
    split.
    + intros fuel. cbn [length Nat.add].
      rewrite (executed_step _ _ _ _ Hstep), Hrun, Hpc.
      cbn [seq app]. by rewrite Nat.add_1_r.
    + intros fuel. cbn [length Nat.add].
      by rewrite (halts_step _ _ _ _ _ Hat Hstep), Hhalt.
Qed.

(** X16.  The code of a loop from a to b, run on the machine, with a body
    that loads registers other than the counter and the limit: the body
    is executed (b - a) mod 2^64 times and the run ends behind the end
    label.  The loop is left on equality only, so a loop whose start is
    above its limit runs until the counter has wrapped around. *)
Theorem loop_iterations (a b : Z) (body : list Instruction) (c t : register.Name)
    (n : Z) (fuel : nat) :
  c <> t ->
  Forall (fun i => exists d v, i = InstrRegisterNumber MOV d v /\ d <> c /\ d <> t) body ->
  let iterations := Z.to_nat ((b - a) mod 2 ^ 64) in
  let iteration := [1; 2; 3; 4] ++ seq 5 (length body) ++
                   [5 + length body; 6 + length body] in
  6 + iterations * (6 + length body) <= fuel ->
  let program := forCode [InstrRegisterNumber MOV c a] [InstrRegisterNumber MOV t b]
                   body c t n in
  executed fuel program start =
    0 :: concat (replicate iterations iteration) ++ [1; 2; 3; 4; 7 + length body] /\
  halts fuel program start = true.
Proof.
  intros Hct Hloads iterations iteration Hfuel program.
  set (L := length body) in *.
  set (tl := [InstrRegister1 INC c; InstrLabel JMP (forLabel n); Label (forEndLabel n)]).
  set (pre := [InstrRegisterNumber MOV c a; Label (forLabel n); InstrRegisterNumber MOV t b;
               InstrRegister2 CMP c t; InstrLabel JE (forEndLabel n)]).
  assert (Hprog : program = pre ++ body ++ tl) by done.
  assert (Hnolabel : forall name, Label name ∉ body).
  { intros name Hin. rewrite Forall_forall in Hloads.
    destruct (Hloads _ Hin) as (d & v & Heq & _). done. }
  assert (Hstart : labelPosition program (forLabel n) = Some 1).
  { rewrite Hprog. subst pre. simpl.
    by rewrite (bool_decide_eq_true_2 (Label (forLabel n) = Label (forLabel n))). }
  assert (Hend : labelPosition program (forEndLabel n) = Some (7 + L)).
  { rewrite Hprog. rewrite labelPosition_app.
    2:{ subst pre. rewrite !not_elem_of_cons. repeat split; try done.
        - intros Heq. apply (forLabel_ne n). congruence.
        - apply not_elem_of_nil. }
    rewrite labelPosition_app by done. subst tl. simpl.
    rewrite (bool_decide_eq_true_2 (Label (forEndLabel n) = Label (forEndLabel n))) by done.
    simpl. f_equal. subst L. lia. }
  assert (Htail : forall k, program !! (5 + L + k) = tl !! k).
  { intros k. rewrite Hprog. rewrite lookup_app_r by (simpl; lia).
    rewrite lookup_app_r by (simpl; lia). f_equal. simpl. lia. }
  assert (Hinc : program !! (5 + L) = Some (InstrRegister1 INC c)).
  { specialize (Htail 0). by rewrite Nat.add_0_r in Htail. }
  assert (Hjmp : program !! (6 + L) = Some (InstrLabel JMP (forLabel n))).
  { specialize (Htail 1). by replace (5 + L + 1) with (6 + L) in Htail by lia. }
  assert (Hlast : program !! (7 + L) = Some (Label (forEndLabel n))).
  { specialize (Htail 2). by replace (5 + L + 2) with (7 + L) in Htail by lia. }
  assert (Hpast : program !! (8 + L) = None).
  { apply lookup_ge_None. rewrite Hprog. simpl. rewrite length_app. simpl. lia. }
  set (ub := uint64 b).
  (* from the label at the head of the loop *)
  assert (Hloop : forall k m fuel,
    pc m = 1 -> (0 <= read m c < 2 ^ 64)%Z ->
    ((ub - read m c) mod 2 ^ 64 = Z.of_nat k)%Z ->
    5 + k * (6 + L) <= fuel ->
    executed fuel program m =
      concat (replicate k iteration) ++ [1; 2; 3; 4; 7 + L] /\
    halts fuel program m = true).
  { induction k as [|k IH]; intros m fuel0 Hpc Hrange Hk Hfuel0.
    - (* the counter has reached the limit *)
      assert (Hx : read m c = ub).
      { subst ub. unfold uint64 in *. 
        pose proof (Z.mod_pos_bound b (2 ^ 64)) as Hb.
        apply Z.mod_divide in Hk; [| lia]. destruct Hk as [q Hq]. nia. }
      do 5 (destruct fuel0 as [|fuel0]; [simpl in Hfuel0; lia |]).
      destruct m as [p regs0 z]. simpl in Hpc. subst p.
      set (m0 := {| pc := 1; regs := regs0; zeroFlag := z |}) in *.
      set (m1 := next m0).
      set (m2 := write t ub m1).
      set (m3 := compare (read m2 c) (read m2 t) m2).
      set (m4 := {| pc := 7 + L; regs := regs m3; zeroFlag := zeroFlag m3 |}).
      set (m5 := next m4).
      assert (H1 : step program m0 = Some m1) by done.
      assert (H2 : step program m1 = Some m2) by done.
      assert (H3 : step program m2 = Some m3) by done.
      assert (Hz : zeroFlag m3 = true).
      { subst m3. simpl. subst m2. rewrite !read_write.
        rewrite (decide_False (P := t = c)) by congruence.
        rewrite (decide_True (P := t = t)) by done.
        change (read m1 c) with (read m0 c). rewrite Hx. apply Z.eqb_refl. }
      assert (H4 : step program m3 = Some m4).
      { by apply (step_je_taken program m3 (forEndLabel n)). }
      assert (H5 : step program m4 = Some m5).
      { unfold step. change (pc m4) with (7 + L). by rewrite Hlast. }
      assert (H6 : step program m5 = None).
      { unfold step. change (pc m5) with (8 + L). by rewrite Hpast. }
      split.
      + rewrite (executed_step _ _ _ _ H1), (executed_step _ _ _ _ H2),
          (executed_step _ _ _ _ H3), (executed_step _ _ _ _ H4),
          (executed_step _ _ _ _ H5).
        by rewrite executed_stop.
      + assert (L0 : program !! pc m0 = Some (Label (forLabel n))) by done.
        assert (L1 : program !! pc m1 = Some (InstrRegisterNumber MOV t b)) by done.
        assert (L2 : program !! pc m2 = Some (InstrRegister2 CMP c t)) by done.
        assert (L3 : program !! pc m3 = Some (InstrLabel JE (forEndLabel n))) by done.
        assert (L4 : program !! pc m4 = Some (Label (forEndLabel n))) by exact Hlast.
        assert (L5 : program !! pc m5 = None) by exact Hpast.
        rewrite (halts_step _ _ _ _ _ L0 H1), (halts_step _ _ _ _ _ L1 H2),
          (halts_step _ _ _ _ _ L2 H3), (halts_step _ _ _ _ _ L3 H4),
          (halts_step _ _ _ _ _ L4 H5).
        by apply halts_end.
    - (* one more iteration *)
      assert (Hx : read m c <> ub).
      { intros Heq. rewrite Heq, Z.sub_diag in Hk. rewrite Z.mod_0_l in Hk; lia. }
      assert (Hfuel1 : exists rest, fuel0 = 4 + (L + (2 + rest)) /\ 5 + k * (6 + L) <= rest).
      { exists (fuel0 - (6 + L)). lia. }
      destruct Hfuel1 as (rest & -> & Hrest).
      destruct m as [p regs0 z]. simpl in Hpc. subst p.
      set (m0 := {| pc := 1; regs := regs0; zeroFlag := z |}) in *.
      set (m1 := next m0).
      set (m2 := write t ub m1).
      set (m3 := compare (read m2 c) (read m2 t) m2).
      set (m4 := next m3).
      assert (H1 : step program m0 = Some m1) by done.
      assert (H2 : step program m1 = Some m2) by done.
      assert (H3 : step program m2 = Some m3) by done.
      assert (Hc2 : read m2 c = read m0 c).
      { subst m2. rewrite read_write. by rewrite (decide_False (P := t = c)) by congruence. }
      assert (Hz : zeroFlag m3 = false).
      { subst m3. simpl. rewrite Hc2. subst m2. rewrite read_write.
        rewrite (decide_True (P := t = t)) by done. by apply Z.eqb_neq. }
      assert (H4 : step program m3 = Some m4).
      { by apply (step_je_not_taken program m3 (forEndLabel n)). }
      destruct (run_loads c t body pre tl m4 Hloads eq_refl)
        as (m5 & Hpc5 & Hc5 & Ht5 & Hrun & Hhalt).
      rewrite <- Hprog in Hrun, Hhalt. change (length pre) with 5 in *. fold L in Hpc5, Hrun, Hhalt.
      set (m6 := write c (uint64 (read m5 c + 1)) m5).
      set (m7 := {| pc := 1; regs := regs m6; zeroFlag := zeroFlag m6 |}).
      assert (H6 : step program m5 = Some m6).
      { unfold step. rewrite Hpc5, Hinc. done. }
      assert (L6 : program !! pc m6 = Some (InstrLabel JMP (forLabel n))).
      { change (pc m6) with (S (pc m5)). by rewrite Hpc5. }
      assert (H7 : step program m6 = Some m7).
      { by apply (step_jmp program m6 (forLabel n)). }
      assert (Hc7 : read m7 c = uint64 (read m0 c + 1)).
      { change (read m7 c) with (read m6 c). subst m6. rewrite read_write.
        rewrite decide_True by done. rewrite Hc5.
        change (read m4 c) with (read m2 c). by rewrite Hc2. }
      destruct (IH m7 rest eq_refl) as [Hexec Hhalts].
      { rewrite Hc7. unfold uint64. apply Z.mod_pos_bound. lia. }
      { rewrite Hc7. unfold uint64.
        pose proof (Z.mod_pos_bound (ub - read m0 c) (2 ^ 64)) as Hbound.
        rewrite Hk in Hbound.
        rewrite Zminus_mod_idemp_r.
        replace (ub - (read m0 c + 1))%Z with ((ub - read m0 c) - 1)%Z by lia.
        rewrite <- Zminus_mod_idemp_l, Hk.
        rewrite Z.mod_small; lia. }
      { exact Hrest. }
      split.
      + change (4 + (L + (2 + rest))) with (S (S (S (S (L + (2 + rest)))))).
        rewrite (executed_step _ _ _ _ H1), (executed_step _ _ _ _ H2),
          (executed_step _ _ _ _ H3), (executed_step _ _ _ _ H4), Hrun.
        change (2 + rest) with (S (S rest)).
        rewrite (executed_step _ _ _ _ H6), (executed_step _ _ _ _ H7), Hexec.
        rewrite Hpc5. change (pc m6) with (S (pc m5)). rewrite Hpc5.
        simpl. subst iteration. simpl. rewrite <- !app_assoc. done.
      + assert (L0 : program !! pc m0 = Some (Label (forLabel n))) by done.
        assert (L1 : program !! pc m1 = Some (InstrRegisterNumber MOV t b)) by done.
        assert (L2 : program !! pc m2 = Some (InstrRegister2 CMP c t)) by done.
        assert (L3 : program !! pc m3 = Some (InstrLabel JE (forEndLabel n))) by done.
        assert (L5 : program !! pc m5 = Some (InstrRegister1 INC c)) by (by rewrite Hpc5).
        change (4 + (L + (2 + rest))) with (S (S (S (S (L + (2 + rest)))))).
        rewrite (halts_step _ _ _ _ _ L0 H1), (halts_step _ _ _ _ _ L1 H2),
          (halts_step _ _ _ _ _ L2 H3), (halts_step _ _ _ _ _ L3 H4), Hhalt.
        change (2 + rest) with (S (S rest)).
        by rewrite (halts_step _ _ _ _ _ L5 H6), (halts_step _ _ _ _ _ L6 H7). }
  destruct fuel as [|fuel]; [lia |].
  set (m1 := write c (uint64 a) start).
  assert (H0 : step program start = Some m1) by done.
  assert (L0 : program !! pc start = Some (InstrRegisterNumber MOV c a)) by done.
  assert (Hc1 : read m1 c = uint64 a).
  { subst m1. rewrite read_write. by rewrite decide_True. }
  destruct (Hloop iterations m1 fuel eq_refl) as [Hexec Hhalts].
  - rewrite Hc1. unfold uint64. apply Z.mod_pos_bound. lia.
  - rewrite Hc1. subst ub iterations. unfold uint64.
    rewrite <- Zminus_mod. rewrite Z2Nat.id; [done |].
    apply Z.mod_pos_bound. lia.
  - lia.
  - split.
    + by rewrite (executed_step _ _ _ _ H0), Hexec.
    + by rewrite (halts_step _ _ _ _ _ L0 H0).
Qed.

End LoopIterations.

(** ** The assembler helpers and the operator table *)

Section Helpers.

(** X17.  Return is idempotent: after it the last instruction is a
    return, it appends at most one instruction, and it appends none exactly
    when the last instruction is a return already; the string pool is
    unchanged. *)
Theorem Return_avoids_double_return (a : Assembler) :
  Return (Return a) = Return a /\
  (exists lastInstr,
     lastInstruction (Return a) = Some lastInstr /\ Name lastInstr = RET) /\
  (instructions (Return a) = instructions a \/
   instructions (Return a) = instructions a ++ [Instr0 RET]) /\
  (instructions (Return a) = instructions a <->
   exists lastInstr, lastInstruction a = Some lastInstr /\ Name lastInstr = RET) /\
  strings (Return a) = strings a.
Proof.
  assert (Hdo : forall b, lastInstruction (do RET b) = Some (Instr0 RET)).
  { intros b. unfold lastInstruction, do, emit. simpl. apply last_snoc. }
  assert (Hgrow : forall b, instructions (do RET b) <> instructions b).
  { intros b Heq. apply (f_equal length) in Heq. unfold do, emit in Heq. simpl in Heq.
    rewrite length_app in Heq. simpl in Heq. lia. }
  assert (Hcase :
    (exists i, lastInstruction a = Some i /\ Name i = RET /\ Return a = a) \/
    ((forall i, lastInstruction a = Some i -> Name i <> RET) /\ Return a = do RET a)).
  { unfold Return. destruct (lastInstruction a) as [i|]; [| by right].
    destruct (bool_decide (Name i = RET)) eqn:Hname.
    - apply bool_decide_eq_true_1 in Hname. left. by exists i.
    - apply bool_decide_eq_false_1 in Hname. right. split; [| done].
      by intros ? [= <-]. }
  destruct Hcase as [(i & Hlast & Hname & Heq) | [Hnone Heq]]; rewrite !Heq.
  - split; [done |]. split; [by exists i |]. split; [by left |].
    split; [| done]. split; [by exists i | done].
  - split.
    { unfold Return. rewrite Hdo. by rewrite bool_decide_eq_true_2. }
    split; [by exists (Instr0 RET) |]. split; [by right |]. split; [| done].
    split; [intros Hsame; by apply Hgrow in Hsame |].
    intros (i & Hi & Hname). by apply Hnone in Hi.
Qed.

(** X18.  Every operator of the table has a priority between 1 and 8:
    the zero value that the lookup of a missing key gives tells an operator
    from any other string. *)
Theorem operator_priorities_are_not_zero (op : string) :
  (is_Some (spec.Operators !! op) <-> spec.priority op <> 0%Z) /\
  (0 <= spec.priority op <= 8)%Z.
Proof.
  assert (Hall : forall p, spec.Operators !! op = Some p -> (1 <= p <= 8)%Z).
  { intros p Hp. unfold spec.Operators in Hp. apply elem_of_list_to_map_2 in Hp.
    repeat (apply elem_of_cons in Hp as [Hp | Hp]; [injection Hp as -> ->; lia |]).
    by apply elem_of_nil in Hp. }
  unfold spec.priority.
  destruct (spec.Operators !! op) as [p|] eqn:Hop; simpl.
  - specialize (Hall p eq_refl). split; [| lia]. split; [lia | eauto].
  - split; [| lia]. split; [by intros [? ?] | done].
Qed.

End Helpers.


(** ** The receive loop and the outcome of the link step *)

Section CompileOutcomes.

Import Build.
Context `{World}.

Lemma receive_pending arrivals rest : forall acc,
  Forall pending arrivals ->
  receive (arrivals ++ rest) acc = receive rest (acc ++ received arrivals).
Proof.
  induction arrivals as [|ev arrivals IH]; intros acc Hpending; simpl.
  - by rewrite app_nil_r.
  - apply Forall_cons in Hpending as [Hev Hpending].
    destruct ev as [err| |compiled|]; try done; simpl.
    + by apply IH.
    + rewrite IH by done. unfold received. simpl. by rewrite <- app_assoc.
Qed.

Lemma receive_None events : forall acc,
  receive events acc = None <-> Forall pending events.
Proof.
  induction events as [|ev events IH]; intros acc; simpl.
  - split; [constructor | done].
  - destruct ev as [err| |compiled|].
    + split; [done |]. intros Hall. by apply Forall_cons in Hall as [? _].
    + rewrite IH. split; [by constructor |]. intros Hall. by apply Forall_cons in Hall as [_ ?].
    + rewrite IH. split; [by constructor |]. intros Hall. by apply Forall_cons in Hall as [_ ?].
    + split; [done |]. intros Hall. by apply Forall_cons in Hall as [? _].
Qed.

(** X19.  Without a function main, Compile returns MainMissing whatever
    the channels deliver.  With it, an error that is received before the
    results channel is closed is returned, whatever follows, and whether or
    not an executable is to be written. *)
Theorem compile_returns_the_first_error (build : BuildT)
    (arrivals rest : list ChannelEvent) (err : Error) :
  (Environment build !! "main" = None ->
   Compile build (arrivals ++ rest) = Some (Err MainMissing)) /\
  (Environment build !! "main" <> None ->
   Forall pending arrivals ->
   Compile build (arrivals ++ ErrorReceived err :: rest) = Some (Err err)).
Proof.
  split.
  - intros Hmain. unfold Compile. by rewrite Hmain.
  - intros Hmain Hpending. unfold Compile.
    destruct (Environment build !! "main"); [| done].
    by rewrite receive_pending.
Qed.

(** X20.  Compile returns only once an error has been received or the
    results channel has been closed: the close of the errors channel and
    the compiled functions alone do not end the receive loop. *)
Theorem compile_waits_for_the_results (build : BuildT) (events : list ChannelEvent) :
  Environment build !! "main" <> None ->
  Compile build events = None <-> Forall pending events.
Proof.
  intros Hmain. rewrite <- (receive_None events []). unfold Compile.
  destruct (Environment build !! "main"); [| done].
  destruct (receive events []) as [[results|err|msg]|]; try done.
  destruct (negb (WriteExecutable build)); [done |].
  destruct (Verify _); [| done]. by destruct (writeToDisk _ _).
Qed.

(** X21.  When the results channel is closed before any error is
    received, the executable is to be written, the final code verifies and
    the file can be written and made executable (mode 0755), Compile
    succeeds, and the final code is the entry followed by the code of the
    received functions that are called, in the order of their
    reception; events after the close are not looked at. *)
Theorem compile_writes_the_executable (build : BuildT)
    (arrivals rest : list ChannelEvent) :
  let code := InstrLabel CALL "main" :: Exit 0 ++
              concat (map (fun f => Finalize (fAssembler f)) (linked (received arrivals))) in
  Environment build !! "main" <> None ->
  Forall pending arrivals ->
  WriteExecutable build = true ->
  Verify code = [] ->
  WriteToFile code (ExecutablePath build) = None ->
  Chmod (ExecutablePath build) 493 = None ->
  Compile build (arrivals ++ ResultsClosed :: rest) = Some (Ok (Some code)).
Proof.
  intros code Hmain Hpending Hwrite Hverify Hfile Hmode. unfold Compile.
  destruct (Environment build !! "main"); [| done].
  rewrite receive_pending by done. simpl. rewrite Hwrite. simpl.
  rewrite merge_linked. simpl. fold code. rewrite Hverify.
  unfold writeToDisk. by rewrite Hfile, Hmode.
Qed.

(** X22.  Compile reports a written executable only when writing is
    switched on, the verification of the final code finds no error, and
    both the write and the change of mode succeed; it succeeds without an
    executable only when writing is switched off; it never panics. *)
Theorem compile_writes_only_verified_code (build : BuildT)
    (events : list ChannelEvent) :
  (forall code,
     Compile build events = Some (Ok (Some code)) ->
     WriteExecutable build = true /\ Verify code = [] /\
     WriteToFile code (ExecutablePath build) = None /\
     Chmod (ExecutablePath build) 493 = None) /\
  (Compile build events = Some (Ok None) -> WriteExecutable build = false) /\
  (WriteExecutable build = false ->
   forall code, Compile build events <> Some (Ok (Some code))) /\
  (forall message, Compile build events <> Some (Panic message)).
Proof.
  assert (Hreceive : forall evs acc message, receive evs acc <> Some (Panic message)).
  { induction evs as [|ev evs IH]; intros acc message; simpl; [done |].
    destruct ev; try done; apply IH. }
  unfold Compile.
  destruct (Environment build !! "main"); [| by repeat split].
  destruct (receive events []) as [[results|err|msg]|] eqn:Hr; try by repeat split.
  2:{ by apply Hreceive in Hr. }
  destruct (WriteExecutable build); simpl; [| by repeat split].
  destruct (Verify _) as [|e es] eqn:Hverify; [| by repeat split].
  unfold writeToDisk.
  destruct (WriteToFile _ _) eqn:Hfile; [by repeat split |].
  destruct (Chmod _ _) eqn:Hmode; [by repeat split |].
  split; [| by repeat split].
  intros code [= <-]. done.
Qed.

End CompileOutcomes.

(** ** The further properties on concrete programs *)

Section FurtherRuns.

Import example.
#[local] Existing Instance leaves.
#[local] Existing Instance world.

Lemma leaves_ForFrame : ForFrame (H := leaves).
Proof.
  split.
  - done.
  - intros tokens target s r s' HT.
    by apply (TokensToRegister_appends (ForLaws := leaves_ForLaws)) in HT as [? _].
  - intros tokens s v s' HA.
    by apply (AssignVariable_appends (ForLaws := leaves_ForLaws)) in HA as [? _].
  - intros reg upperLimit label s t s' HC. simpl in HC.
    unfold CompareExpressionSpec in HC.
    destruct (FindFree _ _) as [temporary|]; [| done].
    apply bind_Ok in HC as ([r sd] & HT & HC).
    destruct reg as [c|]; [| done]. injection HC as _ <-.
    by apply tokensToRegister_appends in HT as [? _].
  - intros s s' [= <-]. done.
Qed.

Lemma Call_checks_tokens_witness :
  Call [tok token.Number "1"; tok token.GroupEnd ")"] (initial program)
    = Err MissingFunctionName /\
  Call [tok token.Identifier "f"; tok token.GroupStart "("] (initial program)
    = Err (MissingCharacter ")") /\
  Call [tok token.Identifier "f"; tok token.GroupStart "("; tok token.GroupEnd ")"]
    (initial program)
    = snd <$> TokensToRegister
                [tok token.Identifier "f"; tok token.GroupStart "("; tok token.GroupEnd ")"]
                None (initial program).
Proof.
  split; [| split].
  - destruct (Call_checks_tokens (H := leaves)
                [tok token.Number "1"; tok token.GroupEnd ")"] (initial program))
      as [_ Hcheck].
    destruct (Hcheck (tok token.Number "1") (tok token.GroupEnd ")") eq_refl eq_refl)
      as (Hname & _). by apply Hname.
  - destruct (Call_checks_tokens (H := leaves)
                [tok token.Identifier "f"; tok token.GroupStart "("] (initial program))
      as [_ Hcheck].
    destruct (Hcheck (tok token.Identifier "f") (tok token.GroupStart "(") eq_refl eq_refl)
      as (_ & Hend & _). by apply Hend.
  - destruct (Call_checks_tokens (H := leaves)
                [tok token.Identifier "f"; tok token.GroupStart "("; tok token.GroupEnd ")"]
                (initial program))
      as [_ Hcheck].
    destruct (Hcheck (tok token.Identifier "f") (tok token.GroupEnd ")") eq_refl eq_refl)
      as (_ & _ & Hrun). by apply Hrun.
Defined.

Lemma call_resolution_witness :
  CallExpression (call "nothing" []) (initial program)
    = Err (UnknownFunction "nothing|0" EmptyString) /\
  CallExpression (call "f" [number "1"]) (initial program)
    = callSequence (call "f" [number "1"]) "f|1" (UserFunction "f|1") (initial program).
Proof.
  split.
  - destruct (call_resolution (H := leaves) (call "nothing" []) (initial program))
      as [Hunknown _].
    apply Hunknown; vm_compute; reflexivity.
  - destruct (call_resolution (H := leaves) (call "f" [number "1"]) (initial program))
      as [_ Huser].
    apply (Huser f1); [vm_compute; reflexivity | right; reflexivity].
Defined.

Lemma print_requires_text_witness :
  CallExpression (call "print" [number "1"]) (initial program)
    = Err (RequiresTextParameter "print|1" "1").
Proof.
  apply (print_requires_text (H := leaves) (call "print" [number "1"]) (number "1")
           (initial program) printFunction);
    vm_compute; first [reflexivity | discriminate | (right; reflexivity)].
Defined.

Lemma store_emits_one_store_witness :
  exists offset byteCount value s',
    CallExpression storeIntoX (withVariableInRbx 9) = Ok (storeIntoX, s') /\
    instructions (assembler s') =
      instructions (assembler (withVariableInRbx 9)) ++
      [InstrMemoryNumber STORE "rbx" offset byteCount value] /\
    offset = (256 mod 256)%Z /\ byteCount = (1 mod 256)%Z /\ value = (5 mod 2 ^ 64)%Z /\
    (0 <= offset < 256)%Z /\ (0 <= byteCount < 256)%Z /\
    (forall ref, CallCount <$> deref ref s' = CallCount <$> deref ref (withVariableInRbx 9)) /\
    (forall ref, ref <> function (withVariableInRbx 9) ->
                 deref ref s' = deref ref (withVariableInRbx 9)) /\
    deref (function (withVariableInRbx 9)) s' =
      (if (0 <? SideEffects storeFunction)%Z then fmap addSideEffects else id)
        (deref (function (withVariableInRbx 9)) (withVariableInRbx 9)).
Proof.
  apply (store_emits_one_store (H := leaves) storeIntoX
           (leaf token.Identifier "x") (number "256") (number "1") (number "5")
           (withVariableInRbx 9) storeFunction 0 "rbx");
    vm_compute; first [reflexivity | discriminate | (right; reflexivity)].
Defined.

Lemma AfterCall_frees_call_registers_witness :
  let s' := AfterCall (UserFunction "main|0") [] ["rdi"; "rsi"] withVariableInRdi in
  users s' !! "rdi" = None /\
  users s' !! "rbx" = users withVariableInRdi !! "rbx" /\
  deref (UserFunction "main|0") s'
    = addCallCount <$> deref (UserFunction "main|0") withVariableInRdi.
Proof.
  destruct (AfterCall_frees_call_registers (UserFunction "main|0") [] ["rdi"; "rsi"]
              withVariableInRdi) as (Hfreed & Hkept & _ & Hcount & _).
  split; [| split].
  - apply Hfreed. apply elem_of_cons. by left.
  - apply Hkept. intros Hin.
    repeat (apply elem_of_cons in Hin as [Hin | Hin]; [discriminate Hin |]).
    by apply elem_of_nil in Hin.
  - exact Hcount.
Defined.

Lemma too_many_arguments_never_compile_witness :
  length (register.Call (registers (initial program))) < 8 /\
  length (register.Syscall (registers (initial program))) < 8 /\
  (forall result,
     BeforeCall (UserFunction "f|1")
       [number "1"; number "2"; number "3"; number "4"; number "5"; number "6";
        number "7"; number "8"] (initial program) <> Ok result).
Proof.
  split; [vm_compute; lia |]. split; [vm_compute; lia |].
  apply (too_many_arguments_never_compile (H := leaves)); vm_compute; lia.
Defined.

Lemma BeforeCall_asserts_variables_witness :
  exists message,
    BeforeCall (UserFunction "h|0") [] withExpressionInRbx = Panic message.
Proof.
  apply (BeforeCall_asserts_variables (H := leaves) (UserFunction "h|0") []
           withExpressionInRbx ["rbx"; "r12"] "rbx" (UserExpression (number "1"))).
  - vm_compute. reflexivity.
  - apply elem_of_cons. by left.
  - vm_compute. reflexivity.
  - intros v. discriminate.
Defined.

Lemma relocate_moves_the_variable_witness :
  exists s',
    relocate "rdi" withVariableInRdi = Ok s' /\
    instructions (assembler s') =
      instructions (assembler withVariableInRdi) ++ [InstrRegister2 MOV "rbx" "rdi"] /\
    users s' !! "rdi" = None /\
    users s' !! "rbx" = Some (UserVariable 0) /\
    (forall r, r <> "rdi" -> r <> "rbx" -> users s' !! r = users withVariableInRdi !! r) /\
    vRegister <$> variables s' !! 0
      = (fun _ => Some "rbx") <$> variables withVariableInRdi !! 0 /\
    (forall v, v <> 0 -> variables s' !! v = variables withVariableInRdi !! v).
Proof.
  assert (Hused : users withVariableInRdi !! "rdi" <> None) by (vm_compute; discriminate).
  exact (relocate_moves_the_variable "rdi" withVariableInRdi Hused).
Defined.

Lemma call_result_witness :
  (exists rv,
     register.ReturnValue (registers (snd afterCallOfG)) !! 0 = Some rv /\
     users (snd afterCallOfG) !! rv =
       if bool_decide (ExprRegister callOfG = Some rv)
       then Some (UserExpression callOfG) else None) /\
  (exists callee,
     deref (UserFunction "g|1") (snd afterCallOfG) = Some callee /\
     ExprType (fst afterCallOfG) = match ReturnTypes callee with
                                   | [] => ExprType callOfG
                                   | t :: _ => Some t
                                   end) /\
  Token (fst afterCallOfG) = Token callOfG /\
  Children (fst afterCallOfG) = Children callOfG /\
  ExprRegister (fst afterCallOfG) = ExprRegister callOfG.
Proof.
  apply (call_result (H := leaves) callOfG (fst afterCallOfG) "g|1" (UserFunction "g|1")
           (initial program) (snd afterCallOfG)).
  vm_compute. reflexivity.
Defined.

Lemma call_without_arguments_code_witness :
  instructions (assembler (afterCallOfH 9)) =
    instructions (assembler (withVariableInRbx 9)) ++
    map (InstrRegister1 PUSH)
      (List.filter (liveAcross (withVariableInRbx 9)) (usedRegisterNames h0)) ++
    [if bool_decide ("h|0" = BuiltinSyscall) then Instr0 SYSCALL
     else InstrLabel CALL "h|0"] ++
    map (InstrRegister1 POP)
      (rev (List.filter (liveAcross (withVariableInRbx 9)) (usedRegisterNames h0))).
Proof.
  apply (call_without_arguments_code (H := leaves) (call "h" []) (call "h" []) "h|0"
           (UserFunction "h|0") h0 (withVariableInRbx 9) (afterCallOfH 9));
    first [by right | vm_compute; reflexivity].
Defined.

Lemma printLn_needs_four_registers_witness :
  (exists s', printLn "hi" (initial program) = Ok s') /\
  printLn "hi" narrow = Panic "index out of range".
Proof.
  split.
  - destruct (printLn_needs_four_registers "hi" (initial program))
      as [Hok _]. apply Hok. vm_compute. lia.
  - destruct (printLn_needs_four_registers "hi" narrow)
      as (_ & Hpanic & _). apply Hpanic. vm_compute. lia.
Defined.

Lemma ForStart_opens_a_loop_witness :
  forCounter (forLoop afterForStart) = 1%Z /\
  (exists reg temporary,
     stack (forLoop afterForStart) =
       stack (forLoop (initial program)) ++
       [{| labelStart := forLabel 1; labelEnd := forEndLabel 1;
           counter := reg; limit := temporary |}]) /\
  last (instructions (assembler afterForStart)) = Some (InstrLabel JE (forEndLabel 1)).
Proof.
  apply (ForStart_opens_a_loop (H := leaves) (H0 := leaves_ForFrame)
           forTokens (initial program) afterForStart).
  vm_compute. reflexivity.
Defined.

Lemma ForEnd_closes_the_innermost_loop_witness :
  let sp := withScopes (tail (scopes inLoop)) inLoop in
  let loop := {| labelStart := forLabel 1; labelEnd := forEndLabel 1;
                 counter := Some "rbx"; limit := Some "r12" |} in
  exists s',
    ForEnd inLoop = Ok s' /\
    stack (forLoop s') = [] /\
    forCounter (forLoop s') = forCounter (forLoop inLoop) /\
    instructions (assembler s') =
      instructions (assembler sp) ++
      [InstrRegister1 INC "rbx"; InstrLabel JMP (labelStart loop);
       Label (labelEnd loop)] /\
    users s' !! "rbx" = None /\
    (forall t, limit loop = Some t -> users s' !! t = None) /\
    (forall r, r <> "rbx" -> limit loop <> Some r -> users s' !! r = users sp !! r).
Proof.
  intros sp loop.
  destruct (ForEnd_closes_the_innermost_loop (H := leaves) (H0 := leaves_ForFrame)
              inLoop) as (_ & _ & Hclose).
  apply (Hclose sp [] loop "rbx").
  - vm_compute. reflexivity.
  - vm_compute. reflexivity.
  - reflexivity.
Defined.

Lemma for_statement_balances_the_stack_witness :
  stack (forLoop afterForEnd) = stack (forLoop (initial program)) /\
  forCounter (forLoop afterForEnd) = 1%Z /\
  last (instructions (assembler afterForStart)) = Some (InstrLabel JE (forEndLabel 1)) /\
  exists sp c,
    PopScope inLoop = Ok sp /\
    instructions (assembler afterForEnd) =
      instructions (assembler sp) ++
      [InstrRegister1 INC c; InstrLabel JMP (forLabel 1); Label (forEndLabel 1)].
Proof.
  apply (for_statement_balances_the_stack (H := leaves) (H0 := leaves_ForFrame)
           forTokens (initial program) afterForStart inLoop afterForEnd);
    vm_compute; reflexivity.
Defined.

Lemma loop_labels_are_distinct_witness :
  forLabel 1 <> forEndLabel 2 /\ forLabel (int (1 + 1)) <> forLabel 1.
Proof.
  destruct (loop_labels_are_distinct 1 2) as (_ & _ & Hne & _).
  destruct (loop_labels_are_distinct 1 1) as (_ & _ & _ & Hnext).
  split; [exact Hne | apply Hnext; lia].
Defined.

Lemma loop_iterations_witness :
  let program := forCode [InstrRegisterNumber MOV "rbx" 0] [InstrRegisterNumber MOV "r12" 3]
                   [InstrRegisterNumber MOV "rax" 1] "rbx" "r12" 1 in
  machine.executed 27 program machine.start =
    0 :: concat (replicate (Z.to_nat ((3 - 0) mod 2 ^ 64))
                   ([1; 2; 3; 4] ++ seq 5 1 ++ [5 + 1; 6 + 1])) ++ [1; 2; 3; 4; 7 + 1] /\
  machine.halts 27 program machine.start = true.
Proof.
  apply (loop_iterations 0 3 [InstrRegisterNumber MOV "rax" 1] "rbx" "r12" 1 27).
  - discriminate.
  - apply Forall_cons. split; [| constructor].
    exists "rax", 1%Z. split; [reflexivity |]. split; discriminate.
  - vm_compute. lia.
Defined.

Lemma Return_avoids_double_return_witness :
  instructions (Return (Return assembler.New)) = [Instr0 RET] /\
  instructions (Return (emit (InstrLabel CALL "f") assembler.New))
    = [InstrLabel CALL "f"; Instr0 RET].
Proof.
  destruct (Return_avoids_double_return assembler.New) as (Hagain & _ & Hone & _).
  destruct (Return_avoids_double_return (emit (InstrLabel CALL "f") assembler.New))
    as (_ & _ & [Hsame | Hmore] & Hiff & _).
  - apply Hiff in Hsame as (i & [= <-] & Hname). discriminate Hname.
  - split; [by rewrite Hagain | exact Hmore].
Defined.

Lemma operator_priorities_are_not_zero_witness :
  spec.priority "+" <> 0%Z /\ ~ is_Some (spec.Operators !! "++").
Proof.
  destruct (operator_priorities_are_not_zero "+") as [[Hsome _] _].
  destruct (operator_priorities_are_not_zero "++") as [[Hnone _] _].
  split.
  - apply Hsome. by exists 7%Z.
  - intros His. by apply Hnone in His.
Defined.

Lemma compile_returns_the_first_error_witness :
  Build.Compile exampleBuild
    ([Build.ResultReceived (compiled "a" 1 codeOfA); Build.ErrorsClosed] ++
     Build.ErrorReceived MissingRange :: exampleEvents)
    = Some (Err MissingRange).
Proof.
  destruct (compile_returns_the_first_error (H := world) exampleBuild
              [Build.ResultReceived (compiled "a" 1 codeOfA); Build.ErrorsClosed]
              exampleEvents MissingRange) as [_ Herror].
  apply Herror; [vm_compute; discriminate | by repeat constructor].
Defined.

Lemma compile_waits_for_the_results_witness :
  Build.Compile exampleBuild
    [Build.ResultReceived (compiled "a" 1 codeOfA); Build.ErrorsClosed] = None.
Proof.
  apply (compile_waits_for_the_results (H := world) exampleBuild);
    [vm_compute; discriminate | by repeat constructor].
Defined.

Lemma compile_writes_the_executable_witness :
  Build.Compile exampleBuild
    ([Build.ResultReceived (compiled "a" 1 codeOfA); Build.ErrorsClosed;
      Build.ResultReceived (compiled "unused" 0 [Instr0 RET]);
      Build.ResultReceived (compiled "main" 1 codeOfMain)] ++
     Build.ResultsClosed :: [])
    = Some (Ok (Some (InstrLabel CALL "main" :: Build.Exit 0 ++ codeOfA ++ codeOfMain))).
Proof.
  apply (compile_writes_the_executable (H := world) exampleBuild
           [Build.ResultReceived (compiled "a" 1 codeOfA); Build.ErrorsClosed;
            Build.ResultReceived (compiled "unused" 0 [Instr0 RET]);
            Build.ResultReceived (compiled "main" 1 codeOfMain)] []);
    first [by repeat constructor | vm_compute; discriminate | reflexivity].
Defined.

Lemma compile_writes_only_verified_code_witness :
  Build.WriteExecutable exampleBuild = true /\
  Build.Verify (InstrLabel CALL "main" :: Build.Exit 0 ++ codeOfA ++ codeOfMain) = [] /\
  Build.WriteToFile (InstrLabel CALL "main" :: Build.Exit 0 ++ codeOfA ++ codeOfMain)
    (Build.ExecutablePath exampleBuild) = None /\
  Build.Chmod (Build.ExecutablePath exampleBuild) 493 = None.
Proof.
  destruct (compile_writes_only_verified_code (H := world) exampleBuild exampleEvents)
    as [Hwritten _].
  apply Hwritten. vm_compute. reflexivity.
Defined.

End FurtherRuns.
